(** * PSLibrary.helpers: the Visum block-file codec

    A shallow embedding of [src/PSLibrary/helpers.py]: the block-file
    reader [read_visum_file], the writer [export_visum_file], the
    sanitizer [_replace_invalid_visum_chars] and the encoding detector
    [_get_encoding], followed by the properties of the specification
    that concern them.

    Conventions of the embedding.
    - A Python [bytes] value is a list of 8-bit characters.  A Python
      [str] is represented by its UTF-8 encoding, so it has the same
      type.  [str.upper] is modelled for text of ASCII characters;
      the statements that pass a text through it ask for ASCII text.
    - A [DataFrame] is column oriented, as in pandas: an ordered list of
      labelled series.  DataFrame objects live in a store and are
      passed by reference.  The store is kept field by field: one map
      holds the columns of each object, which the code mutates, and
      [index_of] gives the row index of each object, which the code
      only reads.  Row labels are integers.
    - The file system is a finite map from paths to file contents;
      directories are not recorded.  [os.path.split] is the one of the
      platform and a parameter of the writer.
    - [pandas.read_csv] and [DataFrame.to_csv] are external services.
      The reader and the writer take them as parameters; a model of
      each, written from the specification, instantiates them where a
      statement needs concrete tables. *)

From Stdlib Require Import Ascii String ZArith Lia Bool.
From stdpp Require Import base list gmap strings.

Abbreviation bytes := (list ascii).

(** ** Python byte strings *)

Definition str (s : string) : bytes := list_ascii_of_string s.
Arguments str _%_string.

Definition nl : ascii := "010"%char.
Definition dollar : ascii := "$"%char.
Definition star : ascii := "*"%char.
Definition semicolon : ascii := ";"%char.
Definition colon : ascii := ":"%char.
Definition backslash : ascii := "\"%char.
Definition squote : ascii := "'"%char.
Definition dquote : ascii := "034"%char.

(** [s.startswith(p)] *)
Fixpoint starts_with (p s : bytes) : bool :=
  match p, s with
  | [], _ => true
  | _ :: _, [] => false
  | a :: p', c :: s' => Ascii.eqb a c && starts_with p' s'
  end.

(** [sub in s] *)
Fixpoint contains (sub s : bytes) : bool :=
  starts_with sub s ||
  match s with
  | [] => false
  | _ :: s' => contains sub s'
  end.

(** [s.find(sub)], with [None] for Python's -1 *)
Fixpoint find_sub (sub s : bytes) : option nat :=
  if starts_with sub s then Some 0
  else match s with
       | [] => None
       | _ :: s' => S <$> find_sub sub s'
       end.

(** [s.find(sub, start)] *)
Definition bytes_find (sub s : bytes) (start : nat) : option nat :=
  (fun i => start + i) <$> find_sub sub (drop start s).

(** [sep.join(l)] *)
Fixpoint join (sep : bytes) (l : list bytes) : bytes :=
  match l with
  | [] => []
  | [x] => x
  | x :: l' => x ++ sep ++ join sep l'
  end.

(** [s.upper()] for a text of ASCII characters: the letters a to z are
    raised, every other character is kept.  On letters outside ASCII
    Python does more (it maps "ß" to "SS"), which is not modelled: a
    statement that depends on [upper] is made for ASCII text. *)
Definition ascii_upper (c : ascii) : ascii :=
  let n := nat_of_ascii c in
  if (97 <=? n) && (n <=? 122) then ascii_of_nat (n - 32) else c.

Definition upper (s : bytes) : bytes := ascii_upper <$> s.

(** [s.replace(old, new)] for a one-character [old] *)
Definition str_replace (old : ascii) (new : bytes) (s : bytes) : bytes :=
  flat_map (fun c => if Ascii.eqb c old then new else [c]) s.

(** [s.split(sep)] for a non-empty [sep]: the pieces between the
    occurrences of [sep], found from left to right without overlap.
    [skip] counts the characters of a matched separator still to pass
    over, [cur] is the piece being collected. *)
Fixpoint split_aux (sep : bytes) (skip : nat) (cur s : bytes) : list bytes :=
  match s with
  | [] => [cur]
  | c :: s' =>
      match skip with
      | S k => split_aux sep k cur s'
      | O => if starts_with sep s
             then cur :: split_aux sep (length sep - 1) [] s'
             else split_aux sep 0 (cur ++ [c]) s'
      end
  end.

Definition split (sep s : bytes) : list bytes := split_aux sep 0 [] s.

(** [s.split(sep)[-1]] *)
Definition split_last (sep s : bytes) : bytes := List.last (split sep s) [].

(** [str(b)] for a bytes object [b]: its [repr].  The quote is ['],
    unless [b] holds a ['] and no double quote; the quote and the
    backslash are escaped, tab, newline and carriage return get their
    letter escape, other bytes outside 0x20..0x7e the form \xNN. *)
Definition hex_digit (n : nat) : ascii :=
  nth n (str "0123456789abcdef") "0"%char.

Definition repr_byte (quote c : ascii) : bytes :=
  let n := nat_of_ascii c in
  if Ascii.eqb c quote || Ascii.eqb c backslash then [backslash; c]
  else if Ascii.eqb c "009"%char then str "\t"
  else if Ascii.eqb c nl then str "\n"
  else if Ascii.eqb c "013"%char then str "\r"
  else if (n <? 32) || (127 <=? n)
       then [backslash; "x"%char; hex_digit (n / 16); hex_digit (n mod 16)]
  else [c].

Definition repr_quote (s : bytes) : ascii :=
  if contains [squote] s && negb (contains [dquote] s) then dquote else squote.

Definition bytes_repr (s : bytes) : bytes :=
  let quote := repr_quote s in
  "b"%char :: quote :: flat_map (repr_byte quote) s ++ [quote].

(** ** Tables *)

(** A cell is a [str], a missing value (NaN), or another Python
    value, which the codec only ever sees through its text. *)
Inductive cell :=
| VStr (s : bytes)
| VOther (text : bytes)
| VNaN.

(** [str(x)], as computed by [Series.astype(str)] *)
Definition cell_str (c : cell) : bytes :=
  match c with
  | VStr s => s
  | VOther t => t
  | VNaN => str "nan"
  end.

Abbreviation Series := (list cell).
Abbreviation DataFrame := (list (bytes * list cell)).

(** [pd.DataFrame([])] *)
Definition empty_frame : DataFrame := [].

(** [dataframe.columns] *)
Definition columns (df : DataFrame) : list bytes := fst <$> df.

(** [dataframe[column]]: the series carrying that label; with a repeated
    label pandas returns a sub-frame, here the list of all of them. *)
Definition select (df : DataFrame) (column : bytes) : list Series :=
  snd <$> filter (fun p => p.1 = column) df.

(** [dataframe[column] = s] for a label of the frame *)
Definition assign (df : DataFrame) (column : bytes) (s : Series) : DataFrame :=
  (fun p => if decide (p.1 = column) then (p.1, s) else p) <$> df.

(** ** The sanitizer *)

(** The replacement the source uses for the dollar sign: the two Thai
    letters U+0E22 U+0E07. *)
Definition dollar_substitute : bytes := str "ยง".

(** [x.replace(old, new)] on a cell: only [str] has such a method, any
    other value raises. *)
Definition cell_replace (old : ascii) (new : bytes) (c : cell) : option cell :=
  match c with
  | VStr s => Some (VStr (str_replace old new s))
  | _ => None
  end.

(** [series.loc[mask] = series.loc[mask].apply(f)]; [None] when [f]
    raises on a selected cell, in which case nothing is assigned. *)
Fixpoint apply_masked (f : cell -> option cell) (mask : list bool) (s : Series)
  : option Series :=
  match mask, s with
  | m :: mask', c :: s' =>
      c' ← (if m then f c else Some c);
      r ← apply_masked f mask' s';
      Some (c' :: r)
  | _, _ => Some s
  end.

(** [series.astype(str).str.contains(sub, na=False, regex=False)] *)
Definition str_contains_mask (sub : bytes) (s : Series) : list bool :=
  (fun c => contains sub (cell_str c)) <$> s.

(** The row index of a frame: the labels of its rows, in order, one
    for each row.  The labels are integers; they need not differ from
    one another. *)
Abbreviation Index := (list Z).

(** [pd.RangeIndex(n)]: the index 0, 1, ..., n-1 that a frame has when
    it was built without one. *)
Definition RangeIndex (n : nat) : Index := Z.of_nat <$> seq 0 n.

(** What [series[0]] gives on a series with integer row labels.  The
    lookup is by label, not by position: the cell of the row labelled
    0 when there is one such row, a series when there are several, and
    KeyError when there is none. *)
Inductive getitem :=
| Scalar (c : cell)
| SubSeries (cells : list cell)
| KeyError.

Definition series_getitem_0 (index : Index) (s : Series) : getitem :=
  match snd <$> filter (fun p : Z * cell => p.1 = 0%Z) (zip index s) with
  | [] => KeyError
  | [c] => Scalar c
  | cells => SubSeries cells
  end.

(** The body of the [try] for one series:
    [if len(dataframe[column]) > 0 and isinstance(dataframe[column][0], str)]
    and the four lines under it.  A KeyError of the lookup is caught
    like any other exception, and a series in place of a cell is not a
    [str]: in both cases nothing is done.  Both masks are computed from
    the series as it is on entry; an exception in a replacement leaves
    the series as the assignments made so far have left it. *)
Definition sanitize_series (index : Index) (s : Series) : Series :=
  if 0 <? length s then
    match series_getitem_0 index s with
    | Scalar (VStr _) =>
        let mask1 := str_contains_mask [dollar] s in
        let mask2 := str_contains_mask [semicolon] s in
        match apply_masked (cell_replace dollar dollar_substitute) mask1 s with
        | None => s
        | Some s1 =>
            match apply_masked (cell_replace semicolon (str ",")) mask2 s1 with
            | None => s1
            | Some s2 => s2
            end
        end
    | _ => s
    end
  else s.

(** One iteration of [for column in dataframe.columns].  With a repeated
    label [dataframe[column]] is a frame, [dataframe[column][0]] raises
    KeyError (or the frame has no rows), and the iteration changes
    nothing. *)
Definition sanitize_step (index : Index) (df : DataFrame) (column : bytes) : DataFrame :=
  match select df column with
  | [s] => assign df column (sanitize_series index s)
  | _ => df
  end.

Definition sanitize_frame (index : Index) (df : DataFrame) : DataFrame :=
  foldl (sanitize_step index) df (columns df).

(** The store of DataFrame objects; a reference is a key of the store.
    [store] holds the columns of each object. *)
Abbreviation ref := nat.
Abbreviation store := (gmap nat DataFrame).

(** [_replace_invalid_visum_chars(dataframes)]: every frame is mutated
    in place and the same references are returned.  [index_of] gives the
    row index of each object. *)
Definition _replace_invalid_visum_chars (index_of : ref -> Index)
    (dataframes : list ref) (h : store) : store * list ref :=
  (foldl (fun h r => alter (sanitize_frame (index_of r)) r h) h dataframes, dataframes).

(** ** Errors and the file system *)

Inductive error :=
| FileNotFoundError (path : string)
| ValueError (msg : string)
| CsvError (msg : string)
| ReadCsvException (data : bytes) (cause : error)
| FileExistsError (path : string)
| UnsupportedOperation (msg : string).

Inductive result (A : Type) :=
| OK (a : A)
| Raise (e : error).
Arguments OK {A} a.
Arguments Raise {A} e.

Abbreviation filesystem := (gmap string bytes).

(** [codecs.BOM_UTF8] *)
Definition BOM_UTF8 : bytes :=
  [ascii_of_nat 239; ascii_of_nat 187; ascii_of_nat 191].

(** [open(file_name, "rb")] *)
Definition open_rb (fs : filesystem) (file_name : string) : result bytes :=
  match fs !! file_name with
  | Some content => OK content
  | None => Raise (FileNotFoundError file_name)
  end.

(** [_get_encoding(file_name)]; [file_stream.read(3)] is [take 3]. *)
Definition _get_encoding (fs : filesystem) (file_name : string) : result string :=
  match open_rb fs file_name with
  | Raise e => Raise e
  | OK file_stream =>
      let is_utf8 := bool_decide (take 3 file_stream = BOM_UTF8) in
      OK (if is_utf8 then "utf-8-sig" else "ansi")%string
  end.

(** [_bom_aware_open(file_name)]: the stream is the chosen encoding
    together with the bytes of the file, which is all the reader uses
    (it maps the file descriptor).  The codec named "ansi" is taken to
    exist, as it does on Windows. *)
Definition _bom_aware_open (fs : filesystem) (file_name : string)
  : result (string * bytes) :=
  match _get_encoding fs file_name with
  | Raise e => Raise e
  | OK encoding =>
      match open_rb fs file_name with
      | Raise e => Raise e
      | OK content => OK (encoding, content)
      end
  end.

(** ** The memory map *)

Record mmap := { mm_data : bytes; mm_pos : nat }.

(** [mmap.mmap(file.fileno(), 0, access=mmap.ACCESS_READ)]: length 0
    maps the whole file, and an empty file cannot be mapped. *)
Definition mmap_open (content : bytes) : result mmap :=
  match content with
  | [] => Raise (ValueError "cannot mmap an empty file")
  | _ => OK {| mm_data := content; mm_pos := 0 |}
  end.

Definition mm_size (m : mmap) : nat := length (mm_data m).

(** [file_map.find(sub)] searches from the current position. *)
Definition mm_find (sub : bytes) (m : mmap) : option nat :=
  bytes_find sub (mm_data m) (mm_pos m).

Definition mm_seek (pos : nat) (m : mmap) : mmap :=
  {| mm_data := mm_data m; mm_pos := pos |}.

(** The line that starts a byte string, its newline included. *)
Fixpoint take_line (s : bytes) : bytes :=
  match s with
  | [] => []
  | c :: s' => if Ascii.eqb c nl then [c] else c :: take_line s'
  end.

Definition mm_readline (m : mmap) : bytes * mmap :=
  let line := take_line (drop (mm_pos m) (mm_data m)) in
  (line, mm_seek (mm_pos m + length line) m).

Definition mm_read (n : nat) (m : mmap) : bytes * mmap :=
  let chunk := take n (drop (mm_pos m) (mm_data m)) in
  (chunk, mm_seek (mm_pos m + length chunk) m).

(** ** The reader *)

(** What [pd.read_csv] returns: a frame, or with a [chunksize] among the
    keyword arguments a reader that yields frames. *)
Inductive csv_reader :=
| Parsed (df : DataFrame)
| TextFileReader (chunks : list DataFrame).

(** [pd.concat(chunks)] for chunks of one reader, which carry the same
    labels in the same order. *)
Definition append_rows (a b : DataFrame) : DataFrame :=
  zip_with (fun p q => (p.1, p.2 ++ q.2)) a b.

Definition pd_concat (chunks : list DataFrame) : result DataFrame :=
  match chunks with
  | [] => Raise (ValueError "No objects to concatenate")
  | c :: cs => OK (foldl append_rows c cs)
  end.

(** [df_block.columns = map(lambda x: x.split(f"${table_name.upper()}:")[-1], df_block.columns)] *)
Definition strip_table_prefix (table_name : bytes) (df_block : DataFrame) : DataFrame :=
  (fun p => (split_last (dollar :: upper table_name ++ [colon]) p.1, p.2)) <$> df_block.

(** [f"${name}:" not in str(line_with_dollar)] is the negation of: *)
Definition header_matches (name line_with_dollar : bytes) : bool :=
  contains (dollar :: name ++ [colon]) (bytes_repr line_with_dollar).

Record scan_state := {
  found_block : list bool;
  data : list DataFrame;
  file_map : mmap
}.

Inductive block_names_arg :=
| Name (block_name : bytes)
| Names (block_names : list bytes).

Inductive read_output :=
| Table (df : DataFrame)
| Tables (dfs : list DataFrame).

Section Reader.

(** [pd.read_csv(data, encoding='UTF-8', skipinitialspace=True,
    on_bad_lines="warn", sep=";", **kwargs)] *)
Variable pd_read_csv : bytes -> result csv_reader.

(** [_read_csv_file(data, sep=";", **kwargs)] *)
Definition _read_csv_file (data : bytes) : result csv_reader :=
  match pd_read_csv data with
  | OK file_reader => OK file_reader
  | Raise err => Raise (ReadCsvException data err)
  end.

(** The inner [while start_sign_index != -1] loop.  The loops of the
    reader recurse on [fuel]; [None] means the fuel ran out. *)
Fixpoint find_terminator (fuel : nat) (m : mmap) (start_sign_index : option nat)
  : option (option nat * mmap) :=
  match start_sign_index with
  | None => Some (None, m)
  | Some i =>
      match fuel with
      | O => None
      | S fuel' =>
          let '(line_with_star, m1) := mm_readline (mm_seek i m) in
          let index_star := find_sub [star] line_with_star in
          let index_semicolon := find_sub [semicolon] line_with_star in
          if bool_decide (index_semicolon = None)
             && bool_decide (index_star = Some 0 \/ index_star = Some 1)
          then Some (Some i, m1)
          else find_terminator fuel' m1 (mm_find [star] m1)
      end
  end.

(** The body of [for index, name in enumerate(block_names)] once the
    header line has matched: locate the end of the block, decode the
    span and store the table at [index]. *)
Definition read_block (dollar_sign_index index : nat) (name : bytes) (st : scan_state)
  : option (result scan_state) :=
  let m := file_map st in
  match find_terminator (S (mm_size m)) m (mm_find [star] m) with
  | None => None
  | Some (found, m1) =>
      let start_sign_index := default (mm_size m1) found in
      let count := start_sign_index - dollar_sign_index in
      let '(span, m2) := mm_read count (mm_seek dollar_sign_index m1) in
      let st' df_block :=
        {| found_block := <[index := true]> (found_block st);
           data := <[index := strip_table_prefix name df_block]> (data st);
           file_map := m2 |} in
      match _read_csv_file span with
      | Raise e => Some (Raise e)
      | OK (Parsed df_block) => Some (OK (st' df_block))
      | OK (TextFileReader chunks) =>
          match pd_concat chunks with
          | Raise e => Some (Raise e)
          | OK df_block => Some (OK (st' df_block))
          end
      end
  end.

(** The [for] loop; it is left at the first name that the header line
    does not match. *)
Fixpoint match_names (dollar_sign_index : nat) (line_with_dollar : bytes)
    (index : nat) (block_names : list bytes) (st : scan_state)
  : option (result scan_state) :=
  match block_names with
  | [] => Some (OK st)
  | name :: rest =>
      if negb (header_matches name line_with_dollar) then Some (OK st)
      else
        match read_block dollar_sign_index index name st with
        | Some (OK st') =>
            match_names dollar_sign_index line_with_dollar (S index) rest st'
        | other => other
        end
  end.

(** The [while False in found_block] loop. *)
Fixpoint scan_blocks (fuel : nat) (block_names : list bytes) (st : scan_state)
  : option (result scan_state) :=
  if negb (bool_decide (false ∈ found_block st)) then Some (OK st)
  else
    match fuel with
    | O => None
    | S fuel' =>
        match mm_find [dollar] (file_map st) with
        | None => Some (OK st)
        | Some dollar_sign_index =>
            let '(line_with_dollar, m) :=
              mm_readline (mm_seek dollar_sign_index (file_map st)) in
            let st1 := {| found_block := found_block st;
                          data := data st;
                          file_map := m |} in
            match match_names dollar_sign_index line_with_dollar 0 block_names st1 with
            | Some (OK st') => scan_blocks fuel' block_names st'
            | other => other
            end
        end
    end.

(** [read_visum_file(path, block_names, **kwargs)] *)
Definition read_visum_file (fs : filesystem) (path : string)
    (block_names : block_names_arg) : option (result read_output) :=
  let '(names, list_required) :=
    match block_names with
    | Name s => ([s], false)
    | Names l => (l, true)
    end in
  let number_of_blocks := length names in
  match _bom_aware_open fs path with
  | Raise e => Some (Raise e)
  | OK (_, content) =>
      match mmap_open content with
      | Raise e => Some (Raise e)
      | OK m =>
          let st := {| found_block := replicate number_of_blocks false;
                       data := replicate number_of_blocks empty_frame;
                       file_map := m |} in
          match scan_blocks (S (mm_size m)) names st with
          | None => None
          | Some (Raise e) => Some (Raise e)
          | Some (OK st') =>
              Some (OK (if list_required then Tables (data st')
                        else Table (default empty_frame (data st' !! 0))))
          end
      end
  end.

End Reader.

(** ** The writer *)

(** [posixpath.split]: the path up to its last slash, without that
    slash unless the head consists of slashes, and what follows the
    slash.  It serves where a statement needs a concrete
    [os.path.split]; on a relative path written with forward slashes
    [ntpath.split] gives the same. *)
Fixpoint after_last (c : ascii) (s : bytes) : nat :=
  match s with
  | [] => 0
  | x :: s' =>
      match after_last c s' with
      | 0 => if Ascii.eqb x c then 1 else 0
      | S k => S (S k)
      end
  end.

Fixpoint rstrip_char (c : ascii) (s : bytes) : bytes :=
  match s with
  | [] => []
  | x :: s' =>
      match rstrip_char c s' with
      | [] => if Ascii.eqb x c then [] else [x]
      | r => x :: r
      end
  end.

Definition posix_split (p : string) : string * string :=
  let sep := "/"%char in
  let i := after_last sep (str p) in
  let head := take i (str p) in
  let tail := drop i (str p) in
  let head := if negb (forallb (Ascii.eqb sep) head) then rstrip_char sep head
              else head in
  (string_of_list_ascii head, string_of_list_ascii tail).

(** [if not os.path.exists(base_path): os.makedirs(base_path)].  The
    empty path does not exist, and [os.makedirs] raises
    FileNotFoundError for it.  Of a path that is not empty the model
    keeps no record: the directory is there after the step, and the
    errors the operating system may raise in creating it are outside
    the model. *)
Definition makedirs_if_missing (base_path : string) : option error :=
  if bool_decide (base_path = EmptyString)
  then Some (FileNotFoundError EmptyString)
  else None.

(** The text stream that [open] returns: the bytes the file holds once
    it is open, whether the stream stands at their end, and whether it
    can be written. *)
Record text_stream := {
  stream_content : bytes;
  stream_at_end : bool;
  stream_writable : bool
}.

(** The mode strings [open] accepts: letters of "rwxabt+", none twice,
    exactly one of r, w, x, a, and not both t and b. *)
Definition valid_mode (mode : string) : bool :=
  forallb (fun c => bool_decide (c ∈ str "rwxabt+")) (str mode)
  && bool_decide (NoDup (str mode))
  && (length (filter (fun c => c ∈ str "rwxa") (str mode)) =? 1)
  && negb (bool_decide ("t"%char ∈ str mode) && bool_decide ("b"%char ∈ str mode)).

(** [open(path_out, mode, encoding='utf-8-sig')].  A mode string that
    is not valid, or that asks for a binary stream although an encoding
    is given, is a ValueError (its message is not modelled).  Mode r
    needs the file and starts at offset 0, writable only with "+";
    mode x refuses a file that exists; mode w truncates; mode a keeps
    what is there and writes at the end. *)
Definition open_for_write (fs : filesystem) (path_out mode : string)
  : result text_stream :=
  let has c := bool_decide (c ∈ str mode) in
  if negb (valid_mode mode) || has "b"%char then Raise (ValueError "invalid mode")
  else if has "r"%char then
    match fs !! path_out with
    | None => Raise (FileNotFoundError path_out)
    | Some content =>
        OK {| stream_content := content; stream_at_end := false;
              stream_writable := has "+"%char |}
    end
  else if has "x"%char then
    match fs !! path_out with
    | Some _ => Raise (FileExistsError path_out)
    | None => OK {| stream_content := []; stream_at_end := true;
                    stream_writable := true |}
    end
  else if has "w"%char then
    OK {| stream_content := []; stream_at_end := true; stream_writable := true |}
  else
    OK {| stream_content := default [] (fs !! path_out); stream_at_end := true;
          stream_writable := true |}.

(** The utf-8-sig encoder puts the byte-order mark before the first
    text it encodes when the stream stood at offset 0 on opening. *)
Definition write_utf8_sig (existing text : bytes) : bytes :=
  match existing, text with
  | [], _ :: _ => BOM_UTF8 ++ text
  | _, _ => existing ++ text
  end.

(** The bytes of the file once [text] has been written to the stream
    and the stream is closed.  A stream at the end of the file adds to
    it; a stream at offset 0 of a file that holds bytes (mode r+)
    writes over them. *)
Definition close_stream (file : text_stream) (text : bytes) : bytes :=
  if stream_at_end file then write_utf8_sig (stream_content file) text
  else match text with
       | [] => stream_content file
       | _ => (BOM_UTF8 ++ text)
              ++ drop (length (BOM_UTF8 ++ text)) (stream_content file)
       end.

(** The two [file.write] calls made in mode "w". *)
Definition file_header (datetime_string file_type : bytes) : bytes :=
  (str "$VISION" ++ [nl] ++ str "* " ++ datetime_string ++ [nl]
   ++ str "$VERSION:VERSNR;FILETYPE;LANGUAGE;UNIT" ++ [nl])
  ++ ([nl] ++ str "10.000;" ++ file_type ++ str ";ENG;KM" ++ [nl] ++ [nl]).

(** [f'*\n* Table: {table_name}\n*\n${netObject}:{attr_names}\n'] *)
Definition block_header (df_out : DataFrame) (table_name netObject : bytes) : bytes :=
  let attr_names := upper (join (str ";") (columns df_out)) in
  str "*" ++ [nl] ++ str "* Table: " ++ table_name ++ [nl] ++ str "*" ++ [nl]
  ++ [dollar] ++ netObject ++ [colon] ++ attr_names ++ [nl].

Inductive export_input :=
| OneFrame (df : ref) (block_name : bytes)
| FrameList (dfs : list ref) (block_names : list bytes).

Section Writer.

(** [df_out.to_csv(file, ";", mode="a", index=False, header=False,
    lineterminator='\n', encoding='utf-8', quoting=csv.QUOTE_NONE,
    quotechar="", escapechar="")]: the text it writes, and the
    exception it ends with, if any. *)
Variable to_csv : DataFrame -> bytes * option error.

(** [os.path.split], the one of the platform *)
Variable os_path_split : string -> string * string.

(** The row index of each DataFrame object *)
Variable index_of : ref -> Index.

(** [for df_out, table_name, netObject in zip(dfs, block_names, block_names)] *)
Fixpoint write_blocks (h : store) (pairs : list (ref * bytes)) : bytes * option error :=
  match pairs with
  | [] => ([], None)
  | (r, table_name) :: rest =>
      let df_out := default empty_frame (h !! r) in
      let head := block_header df_out table_name table_name in
      match to_csv df_out with
      | (rows, Some e) => (head ++ rows, Some e)
      | (rows, None) =>
          let '(more, status) := write_blocks h rest in
          (head ++ rows ++ more, status)
      end
  end.

(** Everything the call writes to the opened file, in order. *)
Definition export_text (h : store) (pairs : list (ref * bytes))
    (file_type datetime_string : bytes) (mode : string) : bytes * option error :=
  let head := if bool_decide (mode = "w"%string)
              then file_header datetime_string file_type else [] in
  let '(blocks, status) := write_blocks h pairs in
  (head ++ blocks, status).

(** [export_visum_file(dfs, path_out, block_names, file_type, mode)].
    [datetime_string] is the formatted [datetime.now()].  The frames
    are sanitized first, then the directory of the path is seen to,
    then the file is opened.  The file is closed by the [with]
    statement on every exit, so what was written before an exception
    stays in it.  On a stream that cannot be written (mode r) the
    first [file.write] raises; there is one as soon as there is a
    table to write. *)
Definition export_visum_file (input : export_input) (path_out : string)
    (file_type : bytes) (mode : string) (datetime_string : bytes)
    (h : store) (fs : filesystem) : store * filesystem * option error :=
  let '(dfs, block_names) :=
    match input with
    | OneFrame df block_name => ([df], [block_name])
    | FrameList dfs block_names => (dfs, block_names)
    end in
  let '(h1, dfs1) := _replace_invalid_visum_chars index_of dfs h in
  let '(base_path, _) := os_path_split path_out in
  match makedirs_if_missing base_path with
  | Some e => (h1, fs, Some e)
  | None =>
      match open_for_write fs path_out mode with
      | Raise e => (h1, fs, Some e)
      | OK file =>
          let '(text, status) :=
            export_text h1 (zip dfs1 block_names) file_type datetime_string mode in
          if stream_writable file
          then (h1, <[path_out := close_stream file text]> fs, status)
          else (h1, fs, match zip dfs1 block_names with
                        | [] => None
                        | _ => Some (UnsupportedOperation "not writable")
                        end)
      end
  end.

End Writer.

(** ** The CSV services *)

(** The text [to_csv] writes for a cell; a missing value is written as
    the empty string. *)
Definition cell_text (c : cell) : bytes :=
  match c with
  | VStr s => s
  | VOther t => t
  | VNaN => []
  end.

(** The rows of a frame: as many as its first series has cells. *)
Definition frame_rows (df : DataFrame) : list (list cell) :=
  match df with
  | [] => []
  | (_, s) :: _ =>
      (fun i => (fun p => default VNaN (p.2 !! i)) <$> df) <$> seq 0 (length s)
  end.

(** Modelled from the spec: the CSV encoding service [DataFrame.to_csv],
    a library call whose code is not part of the repository.  The spec
    (4.6, 6) has it emit each row as a semicolon-joined line ended by a
    single newline, with no quoting and no header line. *)
Definition csv_encode (df : DataFrame) : bytes * option error :=
  (concat ((fun row => join (str ";") (cell_text <$> row) ++ [nl]) <$> frame_rows df),
   None).

(** [s.lstrip(" \t")] *)
Fixpoint lstrip (s : bytes) : bytes :=
  match s with
  | c :: s' => if Ascii.eqb c " "%char || Ascii.eqb c "009"%char then lstrip s' else s
  | [] => []
  end.

(** The lines of a buffer: the pieces between newlines, without the
    empty piece that follows a final newline. *)
Definition split_lines (buf : bytes) : list bytes :=
  let pieces := split [nl] buf in
  match List.last pieces [] with
  | [] => removelast pieces
  | _ => pieces
  end.

Definition csv_fields (line : bytes) : list bytes :=
  lstrip <$> split [semicolon] line.

(** Modelled from the spec: the CSV decoding service [pandas.read_csv],
    a library call whose code is not part of the repository.  The spec
    (4.3, 7) has it decode semicolon-delimited text whose first line
    names the columns, ignore leading whitespace after delimiters, and
    drop a line that does not have the expected number of fields.  The
    cells it returns are the field texts: the type inference of the
    library is not modelled. *)
Definition csv_decode (buf : bytes) : result csv_reader :=
  match split_lines buf with
  | [] => Raise (CsvError "No columns to parse from file")
  | header :: body =>
      let names := csv_fields header in
      let rows := filter (fun r => length r = length names) (csv_fields <$> body) in
      OK (Parsed (imap (fun j name => (name, (fun r => VStr (default [] (r !! j))) <$> rows))
                       names))
  end.

(** The reader and the writer over these two services. *)
Definition read_file := read_visum_file csv_decode.
Definition write_file := export_visum_file csv_encode.

(** ** Notions used in the statements *)

(** What the sanitizer does to one cell when nothing raises. *)
Definition replace_dollar (c : cell) : cell :=
  match c with
  | VStr s => VStr (str_replace dollar dollar_substitute s)
  | _ => c
  end.

Definition replace_semicolon (c : cell) : cell :=
  match c with
  | VStr s => VStr (str_replace semicolon (str ",") s)
  | _ => c
  end.

Definition sanitize_cell (c : cell) : cell := replace_semicolon (replace_dollar c).

Definition is_str (c : cell) : bool :=
  match c with VStr _ => true | _ => false end.

(** A cell on which [x.replace] raises although the mask selects it. *)
Definition raises_on (old : ascii) (s : Series) : bool :=
  existsb (fun c => contains [old] (cell_str c) && negb (is_str c)) s.


(** The guard of the sanitizer holds: the series has a row, exactly one
    of its rows has the label 0, and the cell of that row is a [str]. *)
Definition str_at_label_0 (index : Index) (s : Series) : bool :=
  (0 <? length s)
  && match series_getitem_0 index s with
     | Scalar c => is_str c
     | _ => false
     end.

(** The label names exactly one series of the frame. *)
Definition label_unique (df : DataFrame) (column : bytes) : Prop :=
  length (filter (fun p => p.1 = column) df) = 1.

#[global] Instance label_unique_dec df column : Decision (label_unique df column).
Proof. unfold label_unique. apply _. Defined.

(** The frame after the sanitizer has passed over it. *)
Definition sanitized (index : Index) (df : DataFrame) : DataFrame :=
  (fun p => if decide (label_unique df p.1)
            then (p.1, sanitize_series index p.2) else p) <$> df.


(** Some [str] cell of the frame holds the character. *)
Definition str_cells_contain (c : ascii) (df : DataFrame) : bool :=
  existsb (fun p : bytes * Series =>
             existsb (fun v => is_str v && contains [c] (cell_str v)) p.2) df.

(** The references a call of the writer passes to the sanitizer. *)
Definition input_frames (input : export_input) : list nat :=
  match input with
  | OneFrame df _ => [df]
  | FrameList dfs _ => dfs
  end.

(** The three-line banner that opens every table block. *)
Definition table_banner : bytes := str "*" ++ [nl] ++ str "* Table: ".

(** A text given line by line, each line ended by a newline. *)
Definition text_of_lines (l : list string) : bytes :=
  concat ((fun s => str s ++ [nl]) <$> l).

(** The line the reader takes from offset [k] of the file. *)
Definition line_at (content : bytes) (k : nat) : bytes :=
  take_line (drop k content).

(** No dollar sign of the file stands before a line that matches the
    header pattern of [name]. *)
Definition block_absent (name content : bytes) : bool :=
  forallb (fun k => negb (bool_decide (content !! k = Some dollar))
                    || negb (header_matches name (line_at content k)))
          (seq 0 (length content)).

(** The errors that come out of decoding a block. *)
Definition from_decoder (e : error) : Prop :=
  match e with
  | ReadCsvException _ _ => True
  | ValueError msg => msg = "No objects to concatenate"%string
  | _ => False
  end.

(** Position [i] of the request has not been filled. *)
Definition untouched (i : nat) (st : scan_state) : Prop :=
  found_block st !! i = Some false /\ data st !! i = Some empty_frame.

(** Characters a field may not hold if it is to come back from the
    file: the block sentinel, the delimiter, line ends and the quote. *)
Definition reserved (c : ascii) : bool :=
  bool_decide (c ∈ [dollar; semicolon; nl; "013"%char; dquote]).

(** A text of ASCII characters. *)
Definition ascii_text (t : bytes) : bool :=
  forallb (fun c => nat_of_ascii c <? 128) t.

Definition blank (c : ascii) : bool :=
  Ascii.eqb c " "%char || Ascii.eqb c "009"%char.

(** A text that is not empty, does not begin with a blank and holds no
    reserved character. *)
Definition clean_text (t : bytes) : bool :=
  match t with
  | [] => false
  | c :: _ => negb (blank c)
  end && forallb (fun c => negb (reserved c)) t.

(** All series are as long as the first, and there is at least one. *)
Definition rectangular (df : DataFrame) : bool :=
  match df with
  | [] => false
  | (_, s) :: rest =>
      forallb (fun p : bytes * Series => length p.2 =? length s) rest
  end.

(** No cell of the series has an asterisk in its text. *)
Definition star_free (s : Series) : bool :=
  forallb (fun c => negb (contains [star] (cell_text c))) s.

(** A table that comes back from the file: its labels are clean ASCII
    texts, its cells have clean texts, and the cells of its last
    column hold no asterisk. *)
Definition clean_table (df : DataFrame) : bool :=
  rectangular df
  && forallb (fun p : bytes * Series =>
                clean_text p.1 && ascii_text p.1
                && forallb (fun c => clean_text (cell_text c)) p.2) df
  && match last df with
     | Some p => star_free p.2
     | None => true
     end.

(** Characters of a block name that reach the header line and its
    [repr] unchanged and are not touched by [upper]. *)
Definition name_char (c : ascii) : bool :=
  let n := nat_of_ascii c in
  (32 <=? n) && (n <? 127)
  && negb (bool_decide (c ∈ [backslash; squote; dquote; dollar; colon; semicolon]))
  && negb ((97 <=? n) && (n <=? 122)).

Definition clean_name (name : bytes) : bool :=
  forallb name_char name && negb (bool_decide (name = str "VERSION")).

(** The table a clean table is read back as: upper-case labels, and
    every cell as the text it was written with. *)
Definition read_back (df : DataFrame) : DataFrame :=
  (fun p : bytes * Series => (upper p.1, (fun c => VStr (cell_text c)) <$> p.2)) <$> df.

(** The decoded block before its table prefix is stripped: the first
    label still carries the prefix of the header line. *)
Definition with_prefix (head : bytes) (df : DataFrame) : DataFrame :=
  match df with
  | (label, s) :: rest => (head ++ label, s) :: rest
  | [] => []
  end.

(** Every asterisk of the text is followed, before its line ends, by a
    semicolon, and its line ends within the text: the terminator
    search passes over such an asterisk. *)
Definition guarded (body : bytes) : Prop :=
  forall p q, body = p ++ star :: q ->
  exists t rest, q = t ++ nl :: rest /\ (nl ∉ t) /\ (semicolon ∈ t).

(** The path has a directory part. *)
Definition has_directory (os_path_split : string -> string * string)
    (path : string) : Prop :=
  (os_path_split path).1 <> EmptyString.

(** The characters that the [repr] of a bytes object shows as they
    are, or uses for its escapes: printable ASCII. *)
Definition printable (c : ascii) : bool :=
  (32 <=? nat_of_ascii c) && (nat_of_ascii c <? 127).

(** The names a call of the writer pairs with its frames. *)
Definition input_names (input : export_input) : list bytes :=
  match input with
  | OneFrame _ block_name => [block_name]
  | FrameList _ block_names => block_names
  end.

(** A block the scan passes over on its way: the text before its
    dollar line, the dollar line without its dollar sign and newline,
    and the rows after it. *)
Definition passed_text (blocks : list (bytes * bytes * bytes)) : bytes :=
  concat ((fun b : bytes * bytes * bytes =>
             b.1.1 ++ dollar :: b.1.2 ++ nl :: b.2) <$> blocks).

(** What the read of one block returns, once the decoder has been given
    the bytes of the block. *)
Definition block_outcome (pd_read_csv : bytes -> result csv_reader)
    (name span : bytes) : option (result read_output) :=
  match pd_read_csv span with
  | OK (Parsed df_block) => Some (OK (Table (strip_table_prefix name df_block)))
  | OK (TextFileReader chunks) =>
      match pd_concat chunks with
      | OK df_block => Some (OK (Table (strip_table_prefix name df_block)))
      | Raise e => Some (Raise e)
      end
  | Raise e => Some (Raise (ReadCsvException span e))
  end.

(** The bytes of a written block from its dollar sign on: the header
    line and the rows. *)
Definition block_span (df : DataFrame) (name : bytes) : bytes :=
  dollar :: (name ++ colon :: upper (join (str ";") (columns df)))
  ++ nl :: (csv_encode df).1.

(** The text the writer emits for one table: the banner, the header
    line and the rows. *)
Definition block_text (p : DataFrame * bytes) : bytes :=
  block_header p.1 p.2 p.2 ++ (csv_encode p.1).1.

(** The same text as a block for the scan to pass over. *)
Definition as_passed (p : DataFrame * bytes) : bytes * bytes * bytes :=
  (table_banner ++ p.2 ++ [nl] ++ str "*" ++ [nl],
   p.2 ++ colon :: upper (join (str ";") (columns p.1)),
   (csv_encode p.1).1).

(** The outcome of a call of the writer from which a table comes back:
    the call ended without error, the table stands in the store as it
    was, and reading the file under the name yields the table as it is
    read back. *)
Definition comes_back (path : string) (r : nat) (df : DataFrame) (name : bytes)
    (out : store * filesystem * option error) : Prop :=
  out.2 = None
  /\ out.1.1 !! r = Some df
  /\ read_file out.1.2 path (Name name) = Some (OK (Table (read_back df))).

(** * Properties *)

(** ** Byte strings *)

Lemma contains_char (c : ascii) (s : bytes) : contains [c] s = true <-> c ∈ s.
Proof.
  induction s as [|x s IH]; simpl.
  - split; [discriminate | intros H; inversion H].
  - rewrite andb_true_r, orb_true_iff, IH, Ascii.eqb_eq, elem_of_cons. tauto.
Qed.

Lemma contains_char_false (c : ascii) (s : bytes) : contains [c] s = false <-> c ∉ s.
Proof. rewrite <- contains_char. destruct (contains [c] s); split; congruence. Qed.

Lemma str_replace_absent old new s : old ∉ s -> str_replace old new s = s.
Proof.
  induction s as [|x s IH]; intros H; [done|].
  apply not_elem_of_cons in H as [Hx Hs]. unfold str_replace in *. simpl.
  destruct (Ascii.eqb x old) eqn:E.
  - apply Ascii.eqb_eq in E. congruence.
  - simpl. by rewrite IH.
Qed.

Lemma elem_of_str_replace c old new s :
  c ∈ str_replace old new s <-> (c ∈ new /\ old ∈ s) \/ (c ≠ old /\ c ∈ s).
Proof.
  induction s as [|x s IH]; unfold str_replace in *; simpl.
  - rewrite !elem_of_nil. tauto.
  - rewrite elem_of_app, IH, !elem_of_cons. destruct (Ascii.eqb x old) eqn:E.
    + apply Ascii.eqb_eq in E. subst. intuition congruence.
    + apply Ascii.eqb_neq in E. rewrite list_elem_of_singleton. intuition congruence.
Qed.

Lemma dollar_not_in_substitute : dollar ∉ dollar_substitute.
Proof. apply contains_char_false. reflexivity. Qed.

Lemma semicolon_not_in_substitute : semicolon ∉ dollar_substitute.
Proof. apply contains_char_false. reflexivity. Qed.

Lemma apply_dollar_mask s :
  apply_masked (cell_replace dollar dollar_substitute) (str_contains_mask [dollar] s) s
  = if raises_on dollar s then None else Some (replace_dollar <$> s).
Proof.
  induction s as [|c s IH]; [done|].
  unfold str_contains_mask in *. cbn [fmap list_fmap apply_masked raises_on existsb].
  rewrite IH. fold (raises_on dollar s).
  destruct c as [x|t|]; cbn [cell_str is_str negb cell_replace replace_dollar].
  - rewrite andb_false_r. cbn [orb].
    destruct (contains [dollar] x) eqn:E; destruct (raises_on dollar s); try done.
    cbn. apply contains_char_false in E. by rewrite str_replace_absent.
  - rewrite andb_true_r. destruct (contains [dollar] t); destruct (raises_on dollar s); done.
  - destruct (raises_on dollar s); done.
Qed.

Lemma apply_semicolon_mask s :
  apply_masked (cell_replace semicolon (str ",")) (str_contains_mask [semicolon] s)
               (replace_dollar <$> s)
  = if raises_on semicolon s then None else Some (sanitize_cell <$> s).
Proof.
  induction s as [|c s IH]; [done|].
  unfold str_contains_mask in *. cbn [fmap list_fmap apply_masked raises_on existsb].
  rewrite IH. fold (raises_on semicolon s).
  destruct c as [x|t|];
    cbn [cell_str is_str negb cell_replace replace_dollar sanitize_cell replace_semicolon].
  - rewrite andb_false_r. cbn [orb].
    destruct (contains [semicolon] x) eqn:E; destruct (raises_on semicolon s); try done.
    cbn. apply contains_char_false in E. rewrite (str_replace_absent semicolon); [done|].
    rewrite elem_of_str_replace. intros [[H _]|[_ H]]; [|done].
    by apply semicolon_not_in_substitute.
  - rewrite andb_true_r. destruct (contains [semicolon] t); destruct (raises_on semicolon s); done.
  - destruct (raises_on semicolon s); done.
Qed.

(** The ways a series leaves the sanitizer. *)
Lemma sanitize_series_unfold index s :
  sanitize_series index s =
  if str_at_label_0 index s then
    if raises_on dollar s then s
    else if raises_on semicolon s then replace_dollar <$> s
    else sanitize_cell <$> s
  else s.
Proof.
  unfold sanitize_series, str_at_label_0.
  destruct (0 <? length s); [|done]. cbn [andb].
  destruct (series_getitem_0 index s) as [[x|t|]|cells|]; try done.
  cbn [is_str]. rewrite apply_dollar_mask.
  destruct (raises_on dollar _); [done|].
  rewrite apply_semicolon_mask. by destruct (raises_on semicolon _).
Qed.

Lemma replace_dollar_idem c : replace_dollar (replace_dollar c) = replace_dollar c.
Proof.
  destruct c as [x| |]; try done. cbn. f_equal. apply str_replace_absent.
  rewrite elem_of_str_replace. intros [[H _]|[H _]]; [|done].
  by apply dollar_not_in_substitute.
Qed.

Lemma sanitize_cell_idem c : sanitize_cell (sanitize_cell c) = sanitize_cell c.
Proof.
  destruct c as [x| |]; try done. unfold sanitize_cell. cbn. f_equal.
  rewrite (str_replace_absent dollar).
  - apply str_replace_absent. rewrite elem_of_str_replace.
    intros [[H _]|[H _]]; [|done]. apply contains_char in H. discriminate.
  - rewrite !elem_of_str_replace. intros [[H _]|[_ [[H _]|[H _]]]]; try done.
    + apply contains_char in H. discriminate.
    + by apply dollar_not_in_substitute.
Qed.

Lemma replace_dollar_sanitize c : replace_dollar (sanitize_cell c) = sanitize_cell c.
Proof.
  destruct c as [x| |]; try done. unfold sanitize_cell. cbn. f_equal.
  apply str_replace_absent.
  rewrite !elem_of_str_replace. intros [[H _]|[_ [[H _]|[H _]]]]; try done.
  - apply contains_char in H. discriminate.
  - by apply dollar_not_in_substitute.
Qed.

Lemma raises_on_fmap old (f : cell -> cell) s :
  (forall c, is_str (f c) = is_str c) ->
  (forall c, is_str c = false -> f c = c) ->
  raises_on old (f <$> s) = raises_on old s.
Proof.
  intros Hk Hf. induction s as [|c s IH]; [done|].
  cbn [fmap list_fmap raises_on existsb]. fold (raises_on old (f <$> s)) (raises_on old s).
  rewrite <- IH. f_equal. rewrite Hk. destruct (is_str c) eqn:E.
  - by rewrite !andb_false_r.
  - by rewrite Hf.
Qed.

Lemma labelled_0_fmap (f : cell -> cell) (index : Index) s :
  snd <$> filter (fun p : Z * cell => p.1 = 0%Z) (zip index (f <$> s))
  = f <$> (snd <$> filter (fun p : Z * cell => p.1 = 0%Z) (zip index s)).
Proof.
  revert s. induction index as [|z index IH]; intros [|c s]; try done.
  cbn [fmap list_fmap zip zip_with]. rewrite !filter_cons. cbn [fst].
  fold (zip index (f <$> s)) (zip index s).
  destruct (decide (z = 0%Z)); cbn [fmap list_fmap snd]; by rewrite <- IH.
Qed.

Lemma str_at_label_0_fmap (f : cell -> cell) index s :
  (forall c, is_str (f c) = is_str c) ->
  str_at_label_0 index (f <$> s) = str_at_label_0 index s.
Proof.
  intros Hk. unfold str_at_label_0, series_getitem_0.
  rewrite length_fmap, labelled_0_fmap.
  destruct (snd <$> filter _ (zip index s)) as [|c [|c' l]]; cbn [fmap list_fmap];
    by rewrite ?Hk.
Qed.

Lemma is_str_replace_dollar c : is_str (replace_dollar c) = is_str c.
Proof. by destruct c. Qed.
Lemma is_str_sanitize_cell c : is_str (sanitize_cell c) = is_str c.
Proof. by destruct c. Qed.
Lemma replace_dollar_other c : is_str c = false -> replace_dollar c = c.
Proof. by destruct c. Qed.
Lemma sanitize_cell_other c : is_str c = false -> sanitize_cell c = c.
Proof. by destruct c. Qed.

Lemma sanitize_series_idem index s :
  sanitize_series index (sanitize_series index s) = sanitize_series index s.
Proof.
  rewrite (sanitize_series_unfold index s).
  destruct (str_at_label_0 index s) eqn:Hh; [|by rewrite sanitize_series_unfold, Hh].
  destruct (raises_on dollar s) eqn:H1; [by rewrite sanitize_series_unfold, Hh, H1|].
  destruct (raises_on semicolon s) eqn:H2; rewrite sanitize_series_unfold.
  - rewrite str_at_label_0_fmap, Hh by apply is_str_replace_dollar.
    rewrite !raises_on_fmap, H1, H2
      by (apply is_str_replace_dollar || apply replace_dollar_other).
    rewrite <- list_fmap_compose. apply list_fmap_ext. intros; apply replace_dollar_idem.
  - rewrite str_at_label_0_fmap, Hh by apply is_str_sanitize_cell.
    rewrite !raises_on_fmap, H1, H2
      by (apply is_str_sanitize_cell || apply sanitize_cell_other).
    rewrite <- list_fmap_compose. apply list_fmap_ext. intros; apply sanitize_cell_idem.
Qed.


(** ** The sanitizer on a frame *)

Lemma filter_label_fmap (g : bytes * Series -> bytes * Series) (df : DataFrame) (column : bytes) :
  (forall p, (g p).1 = p.1) ->
  filter (fun p => p.1 = column) (g <$> df) = g <$> filter (fun p => p.1 = column) df.
Proof.
  intros Hg. induction df as [|p df IH]; [done|].
  rewrite fmap_cons, !filter_cons, Hg, IH. by destruct (decide (p.1 = column)).
Qed.

Lemma label_unique_fmap (g : bytes * Series -> bytes * Series) (df : DataFrame) (column : bytes) :
  (forall p, (g p).1 = p.1) -> label_unique (g <$> df) column <-> label_unique df column.
Proof.
  intros Hg. unfold label_unique. by rewrite filter_label_fmap, length_fmap.
Qed.

Lemma sanitize_step_spec (index : Index) (df : DataFrame) (column : bytes) :
  sanitize_step index df column =
  (fun p => if decide (p.1 = column /\ label_unique df column)
            then (p.1, sanitize_series index p.2) else p) <$> df.
Proof.
  unfold sanitize_step, select, assign.
  destruct (decide (label_unique df column)) as [Hu|Hu].
  - pose proof Hu as Hlen. unfold label_unique in Hlen.
    destruct (filter _ df) as [|q [|q' l]] eqn:Hf; try discriminate.
    cbn [fmap list_fmap]. apply list_fmap_ext. intros i p Hp.
    apply list_elem_of_lookup_2 in Hp.
    destruct (decide (p.1 = column)) as [Hc|Hc].
    + assert (p ∈ filter (fun p => p.1 = column) df) as Hin
        by (apply list_elem_of_filter; done).
      rewrite Hf in Hin. apply list_elem_of_singleton in Hin. subst q.
      by rewrite decide_True by tauto.
    + by rewrite decide_False by tauto.
  - transitivity df.
    + destruct (filter _ df) as [|q [|q' l]] eqn:Hf; try done.
      destruct Hu. unfold label_unique. by rewrite Hf.
    + rewrite <- (list_fmap_id df) at 1. apply list_fmap_ext. intros _ p _.
      by rewrite decide_False by tauto.
Qed.

Lemma sanitize_fold (index : Index) (df : DataFrame) (labels : list bytes) :
  foldl (sanitize_step index) df labels =
  (fun p => if decide (p.1 ∈ labels /\ label_unique df p.1)
            then (p.1, sanitize_series index p.2) else p) <$> df.
Proof.
  induction labels as [|c labels IH] using rev_ind.
  - cbn. rewrite <- (list_fmap_id df) at 1. apply list_fmap_ext. intros _ p _.
    destruct (decide _) as [[H _]|]; [|done]. by apply elem_of_nil in H.
  - rewrite foldl_snoc, IH, sanitize_step_spec.
    set (g := fun q : bytes * Series =>
                if decide (q.1 ∈ labels /\ label_unique df q.1)
                then (q.1, sanitize_series index q.2) else q).
    assert (forall q, (g q).1 = q.1) as Hfst
      by (intros q; unfold g; by destruct (decide _)).
    pose proof (label_unique_fmap g df c Hfst) as Hu.
    rewrite <- list_fmap_compose. apply list_fmap_ext. intros _ p _.
    unfold compose.
    destruct (decide (p.1 = c /\ label_unique df c)) as [[Hc Huc]|Hn].
    + rewrite (decide_True (P := (g p).1 = c /\ _)) by (rewrite Hfst; tauto).
      rewrite (decide_True (P := p.1 ∈ labels ++ [c] /\ _))
        by (rewrite elem_of_app, list_elem_of_singleton; subst; tauto).
      rewrite Hfst. unfold g. destruct (decide _); cbn [fst snd]; [|done].
      by rewrite sanitize_series_idem.
    + rewrite (decide_False (P := (g p).1 = c /\ _)) by (rewrite Hfst; tauto).
      unfold g. destruct (decide (p.1 ∈ labels /\ _)) as [[Hin Hl]|Hl].
      * rewrite decide_True; [done|]. rewrite elem_of_app. tauto.
      * rewrite decide_False; [done|].
        rewrite elem_of_app, list_elem_of_singleton. intros [[?|?] ?]; subst; tauto.
Qed.

Lemma sanitize_frame_spec (index : Index) (df : DataFrame) :
  sanitize_frame index df = sanitized index df.
Proof.
  unfold sanitize_frame, sanitized. rewrite sanitize_fold.
  apply list_fmap_ext. intros i p Hp.
  assert (p.1 ∈ columns df) as Hin.
  { unfold columns. apply list_elem_of_fmap. exists p. split; [done|].
    by apply list_elem_of_lookup_2 in Hp. }
  destruct (decide (label_unique df p.1)) as [Hu|Hu].
  - by rewrite decide_True by tauto.
  - by rewrite decide_False by tauto.
Qed.



Lemma sanitize_frame_idem (index : Index) (df : DataFrame) :
  sanitize_frame index (sanitize_frame index df) = sanitize_frame index df.
Proof.
  rewrite !sanitize_frame_spec.
  set (g := fun p : bytes * Series =>
              if decide (label_unique df p.1)
              then (p.1, sanitize_series index p.2) else p).
  assert (forall q, (g q).1 = q.1) as Hfst by (intros q; unfold g; by destruct (decide _)).
  change (sanitized index df) with (g <$> df). unfold sanitized.
  rewrite <- list_fmap_compose. apply list_fmap_ext. intros _ p _. unfold compose.
  pose proof (label_unique_fmap g df (g p).1 Hfst) as Hu. rewrite Hfst in Hu.
  destruct (decide (label_unique df p.1)) as [Hp|Hp].
  - rewrite decide_True by (rewrite Hfst; tauto).
    rewrite Hfst. unfold g. rewrite decide_True by done. cbn [fst snd].
    by rewrite sanitize_series_idem.
  - rewrite decide_False by (rewrite Hfst; tauto). done.
Qed.

(** The store after [_replace_invalid_visum_chars]: the listed objects
    are replaced by their sanitized versions, the others are as before. *)
Lemma sanitize_store_lookup (index_of : ref -> Index) (dataframes : list nat)
    (h : store) (r : nat) :
  (_replace_invalid_visum_chars index_of dataframes h).1 !! r =
  if decide (r ∈ dataframes) then sanitize_frame (index_of r) <$> h !! r else h !! r.
Proof.
  unfold _replace_invalid_visum_chars. cbn [fst].
  induction dataframes as [|x l IH] using rev_ind.
  - cbn. destruct (decide _) as [H|]; [|done]. by apply elem_of_nil in H.
  - rewrite foldl_snoc. destruct (decide (x = r)) as [->|Hx].
    + rewrite lookup_alter_eq, IH.
      rewrite (decide_True (P := r ∈ l ++ [r])) by (apply elem_of_app; right; by left).
      destruct (decide (r ∈ l)); destruct (h !! r); cbn; [|done..].
      by rewrite sanitize_frame_idem.
    + rewrite lookup_alter_ne, IH by done.
      destruct (decide (r ∈ l)) as [Hin|Hin].
      * rewrite decide_True; [done|]. apply elem_of_app; by left.
      * rewrite decide_False; [done|]. rewrite elem_of_app, list_elem_of_singleton.
        intros [?|?]; congruence.
Qed.
(** ** The sanitizer: claims C6, C7 and C10 *)




Lemma sanitize_series_unguarded index s :
  str_at_label_0 index s = false -> sanitize_series index s = s.
Proof. intros H. by rewrite sanitize_series_unfold, H. Qed.








(** C7.  Applying the sanitizer to its own result changes nothing: the
    store and the returned references are those of the first pass. *)
Theorem sanitizer_idempotent (index_of : ref -> Index) (dataframes : list nat)
    (h : store) :
  _replace_invalid_visum_chars index_of
    (_replace_invalid_visum_chars index_of dataframes h).2
    (_replace_invalid_visum_chars index_of dataframes h).1
  = _replace_invalid_visum_chars index_of dataframes h.
Proof.
  change (_replace_invalid_visum_chars index_of dataframes h).2 with dataframes.
  apply injective_projections; [|done].
  apply map_eq. intros r. rewrite !sanitize_store_lookup.
  destruct (decide (r ∈ dataframes)); [|done].
  destruct (h !! r); cbn; [|done]. by rewrite sanitize_frame_idem.
Qed.
(** ** The writer: claims C8 and C10 *)

Lemma starts_with_app (p s : bytes) : starts_with p (p ++ s) = true.
Proof.
  induction p as [|a p IH]; [done|]. cbn. rewrite IH, andb_true_r.
  by apply Ascii.eqb_eq.
Qed.

Lemma open_mode_w (fs : filesystem) (path_out : string) :
  open_for_write fs path_out "w"
  = OK {| stream_content := []; stream_at_end := true; stream_writable := true |}.
Proof. reflexivity. Qed.

Lemma open_mode_a (fs : filesystem) (path_out mode : string) :
  mode = "a"%string \/ mode = "a+"%string ->
  open_for_write fs path_out mode
  = OK {| stream_content := default [] (fs !! path_out); stream_at_end := true;
          stream_writable := true |}.
Proof. intros [->| ->]; reflexivity. Qed.

Lemma makedirs_of_directory (os_path_split : string -> string * string)
    (path_out : string) :
  has_directory os_path_split path_out ->
  makedirs_if_missing (os_path_split path_out).1 = None.
Proof. intros H. unfold makedirs_if_missing. by rewrite bool_decide_false. Qed.

Section WriterResults.

Variable to_csv : DataFrame -> bytes * option error.
Variable os_path_split : string -> string * string.
Variable index_of : ref -> Index.

Lemma write_blocks_banner (h : store) (pairs : list (nat * bytes)) :
  (write_blocks to_csv h pairs).1 = []
  \/ starts_with table_banner (write_blocks to_csv h pairs).1 = true.
Proof.
  destruct pairs as [|[r name] rest]; [by left|right].
  cbn [write_blocks]. unfold block_header.
  destruct (to_csv _) as [rows [e|]]; [|destruct (write_blocks to_csv h rest)];
    cbn [fst]; reflexivity.
Qed.

(** The three results of a call, spelled out. *)
Lemma export_result (input : export_input) (path_out : string) (file_type : bytes)
    (mode : string) (datetime_string : bytes) (h : store) (fs : filesystem) :
  export_visum_file to_csv os_path_split index_of input path_out file_type mode
                    datetime_string h fs
  = let h1 := (_replace_invalid_visum_chars index_of (input_frames input) h).1 in
    let pairs := zip (input_frames input) (input_names input) in
    let written := export_text to_csv h1 pairs file_type datetime_string mode in
    match makedirs_if_missing (os_path_split path_out).1 with
    | Some e => (h1, fs, Some e)
    | None =>
        match open_for_write fs path_out mode with
        | Raise e => (h1, fs, Some e)
        | OK file =>
            if stream_writable file
            then (h1, <[path_out := close_stream file written.1]> fs, written.2)
            else (h1, fs, match pairs with
                          | [] => None
                          | _ => Some (UnsupportedOperation "not writable")
                          end)
        end
    end.
Proof.
  unfold export_visum_file.
  destruct input; cbn [input_frames input_names _replace_invalid_visum_chars fst snd];
    destruct (os_path_split path_out) as [base_path tail]; cbn [fst];
    destruct (makedirs_if_missing base_path); try done;
    destruct (open_for_write fs path_out mode); try done;
    by destruct (export_text _ _ _ _ _ _).
Qed.

(** The store after a call is the one the sanitizer leaves, whatever
    becomes of the file. *)
Lemma export_store (input : export_input) (path_out : string) (file_type : bytes)
    (mode : string) (datetime_string : bytes) (h : store) (fs : filesystem) :
  (export_visum_file to_csv os_path_split index_of input path_out file_type mode
                     datetime_string h fs).1.1
  = (_replace_invalid_visum_chars index_of (input_frames input) h).1.
Proof.
  rewrite export_result. cbn zeta.
  destruct (makedirs_if_missing _); [done|].
  destruct (open_for_write fs path_out mode) as [file|e]; [|done].
  by destruct (stream_writable file).
Qed.

(** A call in mode "w" for a path with a directory part. *)
Lemma export_mode_w (input : export_input) (path_out : string) (file_type : bytes)
    (datetime_string : bytes) (h : store) (fs : filesystem) :
  has_directory os_path_split path_out ->
  export_visum_file to_csv os_path_split index_of input path_out file_type "w"
                    datetime_string h fs
  = let h1 := (_replace_invalid_visum_chars index_of (input_frames input) h).1 in
    let written := write_blocks to_csv h1 (zip (input_frames input) (input_names input)) in
    (h1,
     <[path_out := write_utf8_sig []
                     (file_header datetime_string file_type ++ written.1)]> fs,
     written.2).
Proof.
  intros Hdir. rewrite export_result. cbn zeta.
  rewrite makedirs_of_directory, open_mode_w by done.
  cbn [stream_writable close_stream stream_at_end stream_content].
  unfold export_text. rewrite bool_decide_true by done.
  by destruct (write_blocks _ _ _).
Qed.

(** A call in an append mode for a path with a directory part. *)
Lemma export_mode_a (input : export_input) (path_out : string) (file_type : bytes)
    (mode : string) (datetime_string : bytes) (h : store) (fs : filesystem) :
  has_directory os_path_split path_out ->
  mode = "a"%string \/ mode = "a+"%string ->
  export_visum_file to_csv os_path_split index_of input path_out file_type mode
                    datetime_string h fs
  = let h1 := (_replace_invalid_visum_chars index_of (input_frames input) h).1 in
    let written := write_blocks to_csv h1 (zip (input_frames input) (input_names input)) in
    (h1,
     <[path_out := write_utf8_sig (default [] (fs !! path_out)) written.1]> fs,
     written.2).
Proof.
  intros Hdir Hmode. rewrite export_result. cbn zeta.
  rewrite makedirs_of_directory, open_mode_a by done.
  cbn [stream_writable close_stream stream_at_end stream_content].
  unfold export_text. rewrite bool_decide_false by (destruct Hmode as [->| ->]; done).
  by destruct (write_blocks _ _ _).
Qed.



End WriterResults.





(** ** The encoding detector: claim C9 *)

(** C9.  A missing file makes the detector, and the open built on it,
    raise the error of the read.  For a file that exists the detector
    answers "utf-8-sig" when the first three bytes are the UTF-8
    byte-order mark and "ansi" otherwise; the answer is the one it
    gives for the first three bytes alone, and the file is then opened
    with that encoding. *)
Theorem get_encoding_detects_bom (fs : filesystem) (file_name : string) (content : bytes) :
  let fs1 := <[file_name := content]> fs in
  let encoding := (if bool_decide (take 3 content = BOM_UTF8)
                   then "utf-8-sig" else "ansi")%string in
  _get_encoding (delete file_name fs) file_name = Raise (FileNotFoundError file_name)
  /\ _bom_aware_open (delete file_name fs) file_name = Raise (FileNotFoundError file_name)
  /\ _get_encoding fs1 file_name = OK encoding
  /\ _get_encoding (<[file_name := take 3 content]> fs) file_name = OK encoding
  /\ _bom_aware_open fs1 file_name = OK (encoding, content).
Proof.
  cbn zeta. unfold _bom_aware_open, _get_encoding, open_rb.
  rewrite lookup_delete_eq, !lookup_insert_eq.
  repeat split. by rewrite take_take.
Qed.

(** ** The scanning loops of the reader *)

Lemma find_sub_char_lookup (c : ascii) (s : bytes) (j : nat) :
  find_sub [c] s = Some j -> s !! j = Some c.
Proof.
  revert j. induction s as [|x s IH]; intros j; cbn; [discriminate|].
  rewrite andb_true_r. destruct (Ascii.eqb c x) eqn:E.
  - intros [= <-]. apply Ascii.eqb_eq in E. by subst.
  - destruct (find_sub [c] s) as [j'|]; cbn; [|discriminate].
    intros [= <-]. by apply IH.
Qed.

Lemma mm_find_char (c : ascii) (m : mmap) (k : nat) :
  mm_find [c] m = Some k ->
  mm_pos m <= k /\ k < mm_size m /\ mm_data m !! k = Some c.
Proof.
  unfold mm_find, bytes_find, mm_size.
  destruct (find_sub [c] _) as [j|] eqn:E; cbn; [|discriminate].
  intros [= <-]. apply find_sub_char_lookup in E. rewrite lookup_drop in E.
  split; [lia|]. split; [|done]. by apply lookup_lt_Some in E.
Qed.

Lemma take_line_length_pos (s : bytes) : s <> [] -> 0 < length (take_line s).
Proof. destruct s as [|c s]; [done|]. intros _. cbn. destruct (Ascii.eqb c nl); cbn; lia. Qed.

Lemma take_line_length_le (s : bytes) : length (take_line s) <= length s.
Proof.
  induction s as [|c s IH]; [done|]. cbn. destruct (Ascii.eqb c nl); cbn; lia.
Qed.

Lemma readline_advances (m : mmap) (k : nat) :
  k < mm_size m ->
  k < mm_pos (mm_readline (mm_seek k m)).2
  /\ mm_data (mm_readline (mm_seek k m)).2 = mm_data m.
Proof.
  intros Hk. unfold mm_readline, mm_seek, mm_size in *. cbn. split; [|done].
  assert (drop k (mm_data m) <> []) as Hne.
  { intros H. apply (f_equal length) in H. rewrite length_drop in H. cbn in H. lia. }
  apply take_line_length_pos in Hne. lia.
Qed.

(** The search for the terminator ends within the fuel it is given, at
    the candidate it started from or at a later one. *)
Lemma find_terminator_total (fuel : nat) (m : mmap) (o : option nat) :
  (forall i, o = Some i -> i < mm_size m /\ mm_size m - i < fuel) ->
  exists r m', find_terminator fuel m o = Some (r, m')
    /\ mm_data m' = mm_data m
    /\ forall j, r = Some j -> j < mm_size m /\ exists i, o = Some i /\ i <= j.
Proof.
  revert m o. induction fuel as [|fuel IH]; intros m o Ho.
  - destruct o as [i|]; [destruct (Ho i eq_refl); lia|].
    exists None, m. cbn. by repeat split.
  - destruct o as [i|]; [|exists None, m; cbn; by repeat split].
    destruct (Ho i eq_refl) as [Hi Hf]. cbn [find_terminator].
    destruct (readline_advances m i Hi) as [Hpos Hdata].
    destruct (mm_readline (mm_seek i m)) as [line m1] eqn:Hrl. cbn [snd] in *.
    destruct (_ && _).
    + exists (Some i), m1. split; [done|]. split; [done|].
      intros j [= <-]. split; [done|]. by exists i.
    + destruct (IH m1 (mm_find [star] m1)) as (r & m' & Hr & Hd & Hj).
      { intros j Hfind. apply mm_find_char in Hfind as (? & ? & _).
        unfold mm_size in *. rewrite Hdata in *. lia. }
      exists r, m'. split; [done|]. split; [congruence|].
      intros j ->. destruct (Hj j eq_refl) as (Hlt & j0 & Hfind & Hle).
      unfold mm_size in *. rewrite Hdata in Hlt. split; [done|].
      exists i. split; [done|].
      apply mm_find_char in Hfind as (? & _). lia.
Qed.

Section ReaderLoops.

Variable pd_read_csv : bytes -> result csv_reader.

(** One block: the state afterwards differs at [index] only, the map
    keeps its bytes and stands beyond the dollar sign; a failure is a
    failure of the decoder. *)
Lemma read_block_spec (k index : nat) (name : bytes) (st : scan_state) :
  k < mm_pos (file_map st) -> k < mm_size (file_map st) ->
  exists res, read_block pd_read_csv k index name st = Some res
    /\ match res with
       | OK st' =>
           found_block st' = <[index := true]> (found_block st)
           /\ (exists df, data st' = <[index := df]> (data st))
           /\ mm_data (file_map st') = mm_data (file_map st)
           /\ k < mm_pos (file_map st')
       | Raise e => from_decoder e
       end.
Proof.
  intros Hpos Hk. unfold read_block.
  destruct (find_terminator_total (S (mm_size (file_map st))) (file_map st)
              (mm_find [star] (file_map st))) as (r & m1 & -> & Hd & Hr).
  { intros i Hi. apply mm_find_char in Hi as (? & ? & _). lia. }
  set (start := default (mm_size m1) r).
  assert (k < start <= mm_size m1) as Hstart.
  { subst start. unfold mm_size in *. rewrite Hd. destruct r as [j|]; cbn; [|lia].
    destruct (Hr j eq_refl) as (Hlt & i & Hfind & Hle).
    apply mm_find_char in Hfind as (? & _). lia. }
  assert (k < mm_pos (mm_read (start - k) (mm_seek k m1)).2) as Hpos'.
  { unfold mm_read, mm_seek, mm_size in *. cbn.
    rewrite length_take, length_drop. lia. }
  assert (mm_data (mm_read (start - k) (mm_seek k m1)).2 = mm_data (file_map st))
    as Hd' by (by rewrite <- Hd).
  destruct (mm_read (start - k) (mm_seek k m1)) as [span m2]. cbn [snd] in *.
  unfold _read_csv_file. destruct (pd_read_csv span) as [[df|chunks]|e].
  - eexists. split; [done|]. cbn. eauto 6.
  - destruct chunks as [|c cs]; cbn [pd_concat].
    + eexists. split; [done|]. done.
    + eexists. split; [done|]. cbn. eauto 6.
  - eexists. split; [done|]. done.
Qed.

(** The [for] loop over the names, entered at request position [idx]
    with a header line that the name at position [i] does not match. *)
Lemma match_names_spec (k : nat) (line : bytes) (i : nat) (names : list bytes) :
  forall (idx : nat) (st : scan_state),
  k < mm_pos (file_map st) -> k < mm_size (file_map st) ->
  (forall name, idx <= i -> names !! (i - idx) = Some name ->
                header_matches name line = false) ->
  exists res, match_names pd_read_csv k line idx names st = Some res
    /\ match res with
       | OK st' =>
           length (found_block st') = length (found_block st)
           /\ length (data st') = length (data st)
           /\ mm_data (file_map st') = mm_data (file_map st)
           /\ k < mm_pos (file_map st')
           /\ (idx <= i -> untouched i st -> untouched i st')
       | Raise e => from_decoder e /\ (idx <= i -> 0 < i)
       end.
Proof.
  induction names as [|name rest IH]; intros idx st Hpos Hk Habs.
  - exists (OK st). cbn. repeat split; auto; unfold untouched in *; tauto.
  - cbn [match_names]. destruct (header_matches name line) eqn:Hm; cbn [negb].
    2:{ exists (OK st). repeat split; auto; unfold untouched in *; tauto. }
    assert (idx <> i) as Hne.
    { intros ->. specialize (Habs name (Nat.le_refl _)).
      rewrite Nat.sub_diag in Habs. specialize (Habs eq_refl). congruence. }
    destruct (read_block_spec k idx name st Hpos Hk) as (res & -> & Hres).
    destruct res as [st1|e].
    2:{ exists (Raise e). split; [done|]. split; [done|]. lia. }
    destruct Hres as (Hf & [df Hdf] & Hd & Hpos1).
    destruct (IH (S idx) st1) as (res & -> & Hres).
    + done.
    + unfold mm_size in *. by rewrite Hd.
    + intros n Hle Hn. apply (Habs n); [lia|].
      replace (i - idx) with (S (i - S idx)) by lia. done.
    + exists res. split; [done|]. destruct res as [st2|e].
      * destruct Hres as (Hf2 & Hd2 & Hdata2 & Hpos2 & Hun).
        rewrite Hf2, Hd2, Hdata2, Hf, Hdf, Hd, !length_insert.
        do 4 (split; [done|]).
        intros Hle [Hu1 Hu2]. apply Hun; [lia|]. unfold untouched.
        rewrite Hf, Hdf, !list_lookup_insert_ne by done. done.
      * destruct Hres as [He Hi]. split; [done|]. lia.
Qed.

(** The [while] loop: it ends within a fuel larger than what is left
    of the file, fills no position whose name matches no line, and
    fails only when the decoder does. *)
Lemma scan_blocks_spec (names : list bytes) (i : nat) (content : bytes) :
  (forall name k, names !! i = Some name -> content !! k = Some dollar ->
                  header_matches name (line_at content k) = false) ->
  forall (fuel : nat) (st : scan_state),
  mm_data (file_map st) = content ->
  mm_size (file_map st) - mm_pos (file_map st) < fuel ->
  exists res, scan_blocks pd_read_csv fuel names st = Some res
    /\ match res with
       | OK st' =>
           length (data st') = length (data st)
           /\ (untouched i st -> untouched i st')
       | Raise e => from_decoder e /\ 0 < i
       end.
Proof.
  intros Habs. induction fuel as [|fuel IH]; intros st Hc Hfuel; [lia|].
  cbn [scan_blocks]. destruct (negb _).
  { exists (OK st). repeat split; auto; unfold untouched in *; tauto. }
  destruct (mm_find [dollar] (file_map st)) as [k|] eqn:Hfind.
  2:{ exists (OK st). repeat split; auto; unfold untouched in *; tauto. }
  apply mm_find_char in Hfind as (Hle & Hk & Hdollar).
  destruct (readline_advances (file_map st) k Hk) as [Hpos Hdata].
  assert ((mm_readline (mm_seek k (file_map st))).1 = line_at content k) as Hline
    by (by rewrite <- Hc).
  destruct (mm_readline (mm_seek k (file_map st))) as [line m]. cbn [fst snd] in *.
  destruct (match_names_spec k line i names 0
              {| found_block := found_block st; data := data st; file_map := m |})
    as (res & -> & Hres); cbn [file_map found_block data].
  - done.
  - unfold mm_size in *. by rewrite Hdata.
  - intros name _. rewrite Nat.sub_0_r, Hline. intros Hn. apply Habs; [done|].
    by rewrite <- Hc.
  - cbn [file_map found_block data] in Hres. destruct res as [st1|e].
    2:{ exists (Raise e). split; [done|]. destruct Hres. split; [done|]. lia. }
    destruct Hres as (Hf1 & Hd1 & Hdata1 & Hpos1 & Hun).
    destruct (IH st1) as (res & -> & Hres).
    + by rewrite Hdata1, Hdata.
    + unfold mm_size in *. rewrite Hdata1, Hdata. lia.
    + exists res. split; [done|]. destruct res as [st2|e]; [|done].
      destruct Hres as [Hd2 Hun2]. rewrite Hd2, Hd1. split; [done|].
      intros Hu. apply Hun2, Hun; [lia|]. done.
Qed.

End ReaderLoops.

(** ** The reader: claims C2, C3, C4 and C5 *)

Lemma block_absent_spec (name content : bytes) (k : nat) :
  block_absent name content = true -> content !! k = Some dollar ->
  header_matches name (line_at content k) = false.
Proof.
  unfold block_absent. rewrite forallb_forall. intros H Hk.
  specialize (H k). rewrite in_seq in H.
  apply lookup_lt_Some in Hk as Hlt.
  rewrite bool_decide_true in H by done. cbn in H.
  apply negb_true_iff, H. lia.
Qed.

(** C5, as stated, fails on a file without bytes: it cannot be mapped
    and the call raises, although no block name occurs in it. *)
Lemma read_of_empty_file_raises :
  block_absent (str "LINK") [] = true
  /\ read_file {[ "empty.net"%string := [] ]} "empty.net" (Names [str "LINK"])
     = Some (Raise (ValueError "cannot mmap an empty file")).
Proof. split; reflexivity. Qed.

(** C5, amended.  On a file that exists and is not empty the read call
    always comes to an end, and a requested name that matches no dollar
    line of the file has the empty table at its position of the request
    whenever the call returns.  The call raises only when the CSV
    service fails on the block of an earlier name of the request; so it
    never raises when the missing name is first, or is asked for alone,
    and then a single name yields the empty table itself. *)
Theorem missing_block_yields_empty_table
    (pd_read_csv : bytes -> result csv_reader) (fs : filesystem) (path : string)
    (content : bytes) (names : list bytes) (i : nat) (name : bytes) :
  fs !! path = Some content -> content <> [] ->
  names !! i = Some name -> block_absent name content = true ->
  (exists r, read_visum_file pd_read_csv fs path (Names names) = Some r
     /\ match r with
        | OK (Tables tables) =>
            length tables = length names /\ tables !! i = Some empty_frame
        | OK (Table _) => False
        | Raise e => from_decoder e /\ 0 < i
        end)
  /\ read_visum_file pd_read_csv fs path (Name name) = Some (OK (Table empty_frame)).
Proof.
  intros Hfs Hne Hi Habs.
  assert (forall (l : list bytes) (j : nat), l !! j = Some name ->
    exists res,
      scan_blocks pd_read_csv (S (length content)) l
        {| found_block := replicate (length l) false;
           data := replicate (length l) empty_frame;
           file_map := {| mm_data := content; mm_pos := 0 |} |} = Some res
      /\ match res with
         | OK st' => length (data st') = length l /\ data st' !! j = Some empty_frame
         | Raise e => from_decoder e /\ 0 < j
         end) as Hscan.
  { intros l j Hj. apply lookup_lt_Some in Hj as Hlt.
    destruct (scan_blocks_spec pd_read_csv l j content) with
      (fuel := S (length content))
      (st := {| found_block := replicate (length l) false;
                data := replicate (length l) empty_frame;
                file_map := {| mm_data := content; mm_pos := 0 |} |})
      as (res & Hres & Hpost).
    - intros n k Hn Hk. rewrite Hj in Hn. injection Hn as <-.
      by apply block_absent_spec.
    - done.
    - unfold mm_size. cbn. lia.
    - exists res. split; [done|]. destruct res as [st'|e]; [|done].
      cbn [data] in Hpost. rewrite length_replicate in Hpost.
      destruct Hpost as [Hlen Hun]. split; [done|]. apply Hun.
      split; cbn; by apply lookup_replicate_2. }
  assert (mmap_open content = OK {| mm_data := content; mm_pos := 0 |}) as Hmap
    by (by destruct content).
  unfold read_visum_file, _bom_aware_open, _get_encoding, open_rb.
  rewrite Hfs, Hmap. unfold mm_size. cbn [mm_data]. split.
  - destruct (Hscan names i Hi) as (res & -> & Hpost).
    destruct res as [st'|e]; eexists; (split; [reflexivity|]); done.
  - destruct (Hscan [name] 0 eq_refl) as (res & Hres & Hpost).
    cbn [length] in *. rewrite Hres. destruct res as [st'|e].
    + destruct Hpost as [_ ->]. done.
    + destruct Hpost as [_ Hlt]. lia.
Qed.

(** A file with one block, asked for that block and for one it lacks. *)
Lemma missing_block_yields_empty_table_witness :
  (exists r,
     read_file {[ "net.net"%string := text_of_lines ["$NODE:NO"; "1"; "2"] ]}
               "net.net" (Names [str "NODE"; str "LINK"]) = Some r
     /\ match r with
        | OK (Tables tables) =>
            length tables = 2 /\ tables !! 1 = Some empty_frame
        | OK (Table _) => False
        | Raise e => from_decoder e /\ 0 < 1
        end)
  /\ read_file {[ "net.net"%string := text_of_lines ["$NODE:NO"; "1"; "2"] ]}
               "net.net" (Name (str "LINK")) = Some (OK (Table empty_frame)).
Proof.
  apply (missing_block_yields_empty_table csv_decode
           {[ "net.net"%string := text_of_lines ["$NODE:NO"; "1"; "2"] ]}
           "net.net" (text_of_lines ["$NODE:NO"; "1"; "2"])
           [str "NODE"; str "LINK"] 1 (str "LINK")).
  - reflexivity.
  - discriminate.
  - reflexivity.
  - vm_compute. reflexivity.
Defined.

(** C2 on the code.  The file holds block A and then block B.  Asked
    for B and A in this order, the reader returns the table of B and an
    empty table: the line of A fails the first name, the loop over the
    names is left, and A is never compared with it.  Asked for A alone
    it finds the block. *)
Theorem request_out_of_file_order_loses_block :
  let fs : filesystem :=
    {[ "net.net"%string := text_of_lines ["$A:X"; "1"; "*"; "$B:Y"; "2"] ]} in
  read_file fs "net.net" (Names [str "B"; str "A"])
  = Some (OK (Tables [[(str "Y", [VStr (str "2")])]; empty_frame]))
  /\ read_file fs "net.net" (Name (str "A"))
     = Some (OK (Table [(str "X", [VStr (str "1")])])).
Proof. split; vm_compute; reflexivity. Qed.

(** C3 on the code.  The candidate line is read from the asterisk on,
    not from the start of its line, so the column test always sees
    column 0 and a semicolon before the asterisk goes unseen.  In the
    first file the asterisk of "ab*cd" stands in column 2 of a line
    without semicolon and ends the block all the same (offset 7); in
    the second the asterisk of "1;ab*cd" follows a semicolon and ends
    the block too (offset 11). *)
Theorem asterisk_inside_line_ends_block :
  let file1 := text_of_lines ["$T:A"; "ab*cd"; "ef"] in
  let file2 := text_of_lines ["$T:A;B"; "1;ab*cd"; "2;ef"] in
  fst <$> find_terminator 100 {| mm_data := file1; mm_pos := 5 |} (Some 7)
  = Some (Some 7)
  /\ read_file {[ "f.att"%string := file1 ]} "f.att" (Name (str "T"))
     = Some (OK (Table [(str "A", [VStr (str "ab")])]))
  /\ fst <$> find_terminator 100 {| mm_data := file2; mm_pos := 7 |} (Some 11)
     = Some (Some 11)
  /\ read_file {[ "f.att"%string := file2 ]} "f.att" (Name (str "T"))
     = Some (OK (Table [(str "A", [VStr (str "1")]); (str "B", [VStr (str "ab")])])).
Proof. repeat split; vm_compute; reflexivity. Qed.

(** C4 on the code.  The header line spells the table name "Link" and
    the caller asks for "Link"; the prefix looked for in the column
    headers is "$LINK:", which the header "$Link:NO" does not contain,
    so the first column keeps its prefix. *)
Theorem prefix_kept_for_mixed_case_name :
  read_file {[ "f.net"%string := text_of_lines ["$Link:NO;NAME"; "1;x"] ]}
            "f.net" (Name (str "Link"))
  = Some (OK (Table [(str "$Link:NO", [VStr (str "1")]);
                     (str "NAME", [VStr (str "x")])])).
Proof. vm_compute. reflexivity. Qed.

(** ** The CSV services on clean tables *)

Lemma split_aux_absent (c : ascii) (cur s : bytes) :
  c ∉ s -> split_aux [c] 0 cur s = [cur ++ s].
Proof.
  revert cur. induction s as [|x s IH]; intros cur Hc.
  - cbn. by rewrite app_nil_r.
  - apply not_elem_of_cons in Hc as [Hx Hs]. cbn.
    rewrite andb_true_r. destruct (Ascii.eqb c x) eqn:E.
    + apply Ascii.eqb_eq in E. congruence.
    + rewrite IH by done. by rewrite <- app_assoc.
Qed.

Lemma split_aux_at (c : ascii) (cur s rest : bytes) :
  c ∉ s -> split_aux [c] 0 cur (s ++ c :: rest) = (cur ++ s) :: split_aux [c] 0 [] rest.
Proof.
  revert cur. induction s as [|x s IH]; intros cur Hc.
  - cbn. rewrite Ascii.eqb_refl, app_nil_r. done.
  - apply not_elem_of_cons in Hc as [Hx Hs]. cbn.
    rewrite andb_true_r. destruct (Ascii.eqb c x) eqn:E.
    + apply Ascii.eqb_eq in E. congruence.
    + rewrite IH by done. by rewrite <- app_assoc.
Qed.

Lemma split_join (c : ascii) (l : list bytes) :
  l <> [] -> Forall (fun t => c ∉ t) l -> split [c] (join [c] l) = l.
Proof.
  unfold split. induction l as [|t l IH]; [done|]. intros _ Hl.
  apply Forall_cons in Hl as [Ht Hl]. destruct l as [|t' l].
  - cbn. by rewrite split_aux_absent.
  - change (join [c] (t :: t' :: l)) with (t ++ c :: join [c] (t' :: l)).
    rewrite split_aux_at by done. cbn [app]. by rewrite IH.
Qed.

Lemma split_terminated (c : ascii) (l : list bytes) :
  Forall (fun t => c ∉ t) l ->
  split [c] (concat ((fun t => t ++ [c]) <$> l)) = l ++ [[]].
Proof.
  unfold split. induction l as [|t l IH]; [done|]. intros Hl.
  apply Forall_cons in Hl as [Ht Hl]. cbn [fmap list_fmap concat].
  rewrite <- app_assoc. cbn [app]. rewrite split_aux_at by done.
  cbn [app]. by rewrite IH.
Qed.

Lemma split_lines_terminated (l : list bytes) :
  Forall (fun t => nl ∉ t) l ->
  split_lines (concat ((fun t => t ++ [nl]) <$> l)) = l.
Proof.
  intros Hl. unfold split_lines. rewrite split_terminated by done.
  rewrite last_last. apply removelast_last.
Qed.

Lemma lstrip_clean (t : bytes) : clean_text t = true -> lstrip t = t.
Proof.
  unfold clean_text, blank. destruct t as [|c t]; [done|]. cbn.
  intros [Hb _]%andb_true_iff. apply negb_true_iff in Hb. by rewrite Hb.
Qed.

Lemma clean_text_free (t : bytes) (c : ascii) :
  clean_text t = true -> reserved c = true -> c ∉ t.
Proof.
  unfold clean_text. intros [_ H]%andb_true_iff Hc Hin.
  rewrite forallb_forall in H. apply list_elem_of_In, H in Hin.
  rewrite Hc in Hin. discriminate.
Qed.

(** [upper] keeps what makes a text clean. *)
Lemma ascii_upper_reserved (c : ascii) :
  reserved (ascii_upper c) = reserved c /\ blank (ascii_upper c) = blank c.
Proof.
  destruct c as [[] [] [] [] [] [] [] []]; vm_compute; split; reflexivity.
Qed.

Lemma clean_text_upper (t : bytes) : clean_text (upper t) = clean_text t.
Proof.
  unfold clean_text, upper. f_equal.
  - destruct t as [|c t]; [done|]. cbn. f_equal. apply ascii_upper_reserved.
  - induction t as [|c t IH]; [done|]. cbn. rewrite IH. f_equal. f_equal.
    apply ascii_upper_reserved.
Qed.

Lemma upper_app (a b : bytes) : upper (a ++ b) = upper a ++ upper b.
Proof. apply fmap_app. Qed.

Lemma upper_join (l : list bytes) :
  upper (join (str ";") l) = join (str ";") (upper <$> l).
Proof.
  induction l as [|t l IH]; [done|]. destruct l as [|t' l]; [done|].
  change (join (str ";") (t :: t' :: l)) with (t ++ str ";" ++ join (str ";") (t' :: l)).
  rewrite !upper_app, IH. done.
Qed.

Lemma upper_name (name : bytes) : forallb name_char name = true -> upper name = name.
Proof.
  unfold upper. induction name as [|c name IH]; [done|]. cbn.
  intros [Hc Hn]%andb_true_iff. rewrite IH by done. f_equal.
  unfold name_char in Hc. apply andb_true_iff in Hc as [_ Hc].
  apply negb_true_iff in Hc. unfold ascii_upper. by rewrite Hc.
Qed.

Lemma not_elem_of_join (c : ascii) (sep : bytes) (l : list bytes) :
  c ∉ sep -> Forall (fun t => c ∉ t) l -> c ∉ join sep l.
Proof.
  intros Hsep. induction l as [|t l IH]; intros Hl; [apply not_elem_of_nil|].
  apply Forall_cons in Hl as [Ht Hl]. destruct l as [|t' l]; [done|].
  change (join sep (t :: t' :: l)) with (t ++ sep ++ join sep (t' :: l)).
  rewrite !elem_of_app. intros [?|[?|?]]; try done. by apply IH.
Qed.

Lemma join_prefix (sep pre t : bytes) (l : list bytes) :
  pre ++ join sep (t :: l) = join sep ((pre ++ t) :: l).
Proof. destruct l; cbn; by rewrite <- ?app_assoc. Qed.

Lemma filter_all {A} (P : A -> Prop) `{!forall x, Decision (P x)} (l : list A) :
  Forall P l -> filter P l = l.
Proof.
  induction l as [|x l IH]; [done|]. intros [Hx Hl]%Forall_cons.
  rewrite filter_cons, decide_True by done. by rewrite IH.
Qed.

Lemma fmap_seq_lookup {A B} (f : A -> B) (d : A) (l : list A) :
  (fun i => f (default d (l !! i))) <$> seq 0 (length l) = f <$> l.
Proof.
  apply list_eq. intros i. rewrite !list_lookup_fmap.
  destruct (decide (i < length l)) as [Hi|Hi].
  - rewrite lookup_seq_lt by done. cbn.
    destruct (lookup_lt_is_Some_2 l i Hi) as [x Hx]. by rewrite Hx.
  - rewrite lookup_seq_ge by lia. by rewrite lookup_ge_None_2 by lia.
Qed.

Lemma imap_zip_with {A B C} (f : nat -> A -> C) (g : A -> B -> C)
    (l : list A) (k : list B) :
  length l = length k ->
  (forall j a b, l !! j = Some a -> k !! j = Some b -> f j a = g a b) ->
  imap f l = zip_with g l k.
Proof.
  revert f k. induction l as [|a l IH]; intros f [|b k] Hlen Hf; try done.
  cbn. f_equal.
  - by apply (Hf 0).
  - apply IH; [by injection Hlen|]. intros j a' b' Ha Hb. by apply (Hf (S j)).
Qed.

Lemma clean_table_parts (df : DataFrame) :
  clean_table df = true ->
  exists label s rest, df = (label, s) :: rest
    /\ Forall (fun p : bytes * Series =>
                 length p.2 = length s /\ clean_text p.1 = true
                 /\ Forall (fun c => clean_text (cell_text c) = true) p.2) df.
Proof.
  unfold clean_table, rectangular. destruct df as [|[label s] rest]; [done|].
  intros [[Hr Hc]%andb_true_iff _]%andb_true_iff. exists label, s, rest. split; [done|].
  rewrite forallb_forall in Hc.
  assert (Forall (fun p : bytes * Series => length p.2 = length s) ((label, s) :: rest))
    as Hlen.
  { constructor; [done|]. apply Forall_forall. intros p Hp.
    rewrite forallb_forall in Hr. apply list_elem_of_In, Hr in Hp.
    by apply Nat.eqb_eq in Hp. }
  apply Forall_forall. intros p Hp. split; [by eapply Forall_forall in Hlen|].
  apply list_elem_of_In, Hc in Hp as Hp'.
  apply andb_true_iff in Hp' as [[Hl _]%andb_true_iff Hcells].
  split; [done|]. apply Forall_forall. intros c Hcin.
  rewrite forallb_forall in Hcells. by apply Hcells, list_elem_of_In.
Qed.

Lemma clean_table_ascii (df : DataFrame) :
  clean_table df = true ->
  Forall (fun p : bytes * Series => ascii_text p.1 = true) df.
Proof.
  unfold clean_table. intros [[_ Hc]%andb_true_iff _]%andb_true_iff.
  rewrite forallb_forall in Hc. apply Forall_forall. intros p Hp.
  apply list_elem_of_In, Hc in Hp.
  by apply andb_true_iff in Hp as [[_ Ha]%andb_true_iff _].
Qed.

Lemma clean_table_last (df : DataFrame) (p : bytes * Series) :
  clean_table df = true -> last df = Some p -> star_free p.2 = true.
Proof.
  unfold clean_table. intros [_ Hl]%andb_true_iff Hp. by rewrite Hp in Hl.
Qed.

Lemma csv_fields_join (l : list bytes) :
  l <> [] -> Forall (fun t => clean_text t = true) l ->
  csv_fields (join (str ";") l) = l.
Proof.
  intros Hne Hl. unfold csv_fields. change (str ";") with [semicolon].
  rewrite split_join; [|done|].
  - rewrite <- (list_fmap_id l) at 2. apply list_fmap_ext. intros i t Ht.
    apply lstrip_clean. eapply Forall_forall in Hl; [done|].
    by eapply list_elem_of_lookup_2.
  - eapply Forall_impl; [done|]. intros t Ht. by apply (clean_text_free t semicolon).
Qed.

Lemma frame_row_texts (df : DataFrame) (n : nat) :
  Forall (fun p : bytes * Series =>
            length p.2 = n /\ clean_text p.1 = true
            /\ Forall (fun c => clean_text (cell_text c) = true) p.2) df ->
  Forall (fun row : list cell =>
            length row = length df
            /\ Forall (fun t => clean_text t = true) (cell_text <$> row))
         ((fun i => (fun p : bytes * Series => default VNaN (p.2 !! i)) <$> df)
            <$> seq 0 n).
Proof.
  intros Hall. apply Forall_fmap, Forall_forall. intros i Hi.
  apply elem_of_seq in Hi. cbn. split; [by rewrite length_fmap|].
  apply Forall_fmap, Forall_fmap, Forall_forall. intros p Hp. cbn.
  eapply Forall_forall in Hall as (Hlen & _ & Hcells); [|done].
  destruct (lookup_lt_is_Some_2 p.2 i) as [c Hc]; [lia|]. rewrite Hc. cbn.
  eapply Forall_forall in Hcells; [done|]. by eapply list_elem_of_lookup_2.
Qed.

(** The decoder gives back what the encoder was given, with the labels
    in upper case and every cell as its text; the first label keeps the
    prefix of the header line. *)
Lemma csv_decode_encode (hd : bytes) (df : DataFrame) :
  clean_table df = true -> semicolon ∉ hd -> nl ∉ hd ->
  csv_decode ((dollar :: hd) ++ upper (join (str ";") (columns df)) ++ [nl]
              ++ (csv_encode df).1)
  = OK (Parsed (with_prefix (dollar :: hd) (read_back df))).
Proof.
  intros Hclean Hsemi Hnl.
  destruct (clean_table_parts df Hclean) as (label & s & rest & -> & Hall).
  set (df := (label, s) :: rest) in *.
  set (rows := frame_rows df).
  assert (Forall (fun row : list cell =>
            length row = length df
            /\ Forall (fun t => clean_text t = true) (cell_text <$> row)) rows) as Hrows
    by (apply (frame_row_texts df (length s)); done).
  set (labels := ((dollar :: hd) ++ upper label) :: (upper <$> columns rest)).
  set (texts := (fun row : list cell => cell_text <$> row) <$> rows).
  assert (Forall (fun t => clean_text t = true) (upper <$> columns df)) as Hlabels.
  { apply Forall_fmap, Forall_fmap. eapply Forall_impl; [exact Hall|].
    intros p (_ & Hp & _). cbn. by rewrite clean_text_upper. }
  assert (Forall (fun t => semicolon ∉ t) labels /\ Forall (fun t => nl ∉ t) labels)
    as [Hls Hln].
  { apply Forall_cons in Hlabels as [Hl1 Hl2]. split.
    - constructor.
      + rewrite elem_of_app, elem_of_cons.
        intros [[?|?]|?]; [done|done|].
        by apply (clean_text_free (upper label) semicolon Hl1 eq_refl).
      + eapply Forall_impl; [exact Hl2|]. intros t Ht.
        by apply (clean_text_free t semicolon).
    - constructor.
      + rewrite elem_of_app, elem_of_cons.
        intros [[?|?]|?]; [done|done|].
        by apply (clean_text_free (upper label) nl Hl1 eq_refl).
      + eapply Forall_impl; [exact Hl2|]. intros t Ht.
        by apply (clean_text_free t nl). }
  assert ((dollar :: hd) ++ upper (join (str ";") (columns df)) ++ [nl]
          ++ (csv_encode df).1
          = concat ((fun t => t ++ [nl])
                      <$> (join (str ";") labels :: (join (str ";") <$> texts)))) as ->.
  { rewrite upper_join. unfold csv_encode. cbn [fst]. fold rows.
    change (upper <$> columns df) with (upper label :: (upper <$> columns rest)).
    rewrite (app_assoc (dollar :: hd)), join_prefix. cbn [fmap list_fmap concat].
    rewrite <- app_assoc. do 2 f_equal. subst texts.
    rewrite <- !list_fmap_compose. done. }
  unfold csv_decode. rewrite split_lines_terminated.
  2:{ constructor.
      - apply not_elem_of_join; [by apply contains_char_false|done].
      - subst texts. rewrite <- list_fmap_compose. apply Forall_fmap.
        eapply Forall_impl; [exact Hrows|]. intros row [_ Hrow]. cbn.
        apply not_elem_of_join; [by apply contains_char_false|].
        eapply Forall_impl; [exact Hrow|]. intros t Ht.
        by apply (clean_text_free t nl). }
  assert (csv_fields (join (str ";") labels) = labels) as ->.
  { unfold csv_fields. change (str ";") with [semicolon].
    rewrite split_join by done. subst labels. cbn [fmap list_fmap]. f_equal.
    apply Forall_cons in Hlabels as [_ Hl2].
    rewrite <- (list_fmap_id (upper <$> columns rest)) at 2.
    apply list_fmap_ext. intros i t Ht. apply lstrip_clean.
    eapply Forall_forall in Hl2; [done|]. by eapply list_elem_of_lookup_2. }
  assert (csv_fields <$> (join (str ";") <$> texts) = texts) as ->.
  { subst texts. rewrite <- !list_fmap_compose.
    apply list_fmap_ext. intros i row Hrow. cbn.
    eapply Forall_forall in Hrows as [Hlen Hclean']; [|by eapply list_elem_of_lookup_2].
    apply csv_fields_join; [|done]. destruct row; [|done]. discriminate. }
  assert (length labels = length df) as Hlen
    by (subst labels df; cbn; unfold columns; by rewrite !length_fmap).
  rewrite filter_all.
  2:{ subst texts. apply Forall_fmap. eapply Forall_impl; [exact Hrows|].
      intros row [Hl _]. change (length (cell_text <$> row) = length labels).
      rewrite length_fmap, Hlen. exact Hl. }
  do 2 f_equal.
  rewrite (imap_zip_with _ (fun (lab : bytes) (p : bytes * Series) =>
                              (lab, (fun c => VStr (cell_text c)) <$> p.2)) labels df Hlen).
  - subst labels df. cbn. f_equal. unfold read_back, columns.
    clear. induction rest as [|q rest IH]; [done|]. cbn. by rewrite IH.
  - intros j lab p _ Hp. f_equal. subst texts rows.
    change (frame_rows df) with
      ((fun i => (fun p : bytes * Series => default VNaN (p.2 !! i)) <$> df)
         <$> seq 0 (length s)).
    rewrite <- !list_fmap_compose.
    eapply Forall_forall in Hall as (Hlen' & _ & _); [|by eapply list_elem_of_lookup_2].
    rewrite <- Hlen'. rewrite <- (fmap_seq_lookup (fun c => VStr (cell_text c)) VNaN p.2).
    apply list_fmap_ext. intros _ i _. unfold compose.
    rewrite !list_lookup_fmap, Hp. done.
Qed.

(** ** Reading back what was written: claim C1 *)

Lemma split_aux_no_dollar (p cur s : bytes) :
  dollar ∉ s -> split_aux (dollar :: p) 0 cur s = [cur ++ s].
Proof.
  revert cur. induction s as [|x s IH]; intros cur Hs.
  - cbn. by rewrite app_nil_r.
  - apply not_elem_of_cons in Hs as [Hx Hs]. cbn [split_aux starts_with].
    destruct (Ascii.eqb dollar x) eqn:E.
    + apply Ascii.eqb_eq in E. congruence.
    + cbn. rewrite IH by done. by rewrite <- app_assoc.
Qed.

Lemma split_aux_skip (sep cur x s : bytes) :
  split_aux sep (length x) cur (x ++ s) = split_aux sep 0 cur s.
Proof. induction x as [|c x IH]; [done|]. cbn. apply IH. Qed.

Lemma split_last_prefix (p s : bytes) :
  dollar ∉ s -> split_last (dollar :: p) ((dollar :: p) ++ s) = s.
Proof.
  intros Hs. unfold split_last, split.
  change ((dollar :: p) ++ s) with (dollar :: (p ++ s)).
  cbn [split_aux]. change (dollar :: (p ++ s)) with ((dollar :: p) ++ s).
  rewrite starts_with_app.
  replace (length (dollar :: p) - 1) with (length p) by (cbn; lia).
  rewrite split_aux_skip.
  by rewrite split_aux_no_dollar.
Qed.

Lemma split_last_no_dollar (p s : bytes) :
  dollar ∉ s -> split_last (dollar :: p) s = s.
Proof. intros Hs. unfold split_last, split. by rewrite split_aux_no_dollar. Qed.

Lemma strip_prefix_read_back (name : bytes) (df : DataFrame) :
  clean_table df = true -> forallb name_char name = true ->
  strip_table_prefix name (with_prefix (dollar :: name ++ [colon]) (read_back df))
  = read_back df.
Proof.
  intros Hclean Hname.
  destruct (clean_table_parts df Hclean) as (label & s & rest & -> & Hall).
  unfold strip_table_prefix. rewrite (upper_name name Hname).
  assert (forall p : bytes * Series, p ∈ (label, s) :: rest -> dollar ∉ upper p.1) as Hd.
  { intros p Hp. eapply Forall_forall in Hall as (_ & Hl & _); [|done].
    apply (clean_text_free (upper p.1) dollar); [|done]. by rewrite clean_text_upper. }
  cbn [read_back with_prefix fmap list_fmap fst snd]. f_equal.
  - f_equal. apply split_last_prefix. apply (Hd (label, s)). by left.
  - assert (forall p : bytes * Series, p ∈ rest -> dollar ∉ upper p.1) as Hd'
      by (intros p Hp; apply Hd; by right).
    clear -Hd'. induction rest as [|q rest IH]; [done|]. cbn. f_equal.
    + f_equal. apply split_last_no_dollar. apply Hd'. by left.
    + apply IH. intros p Hp. apply Hd'. by right.
Qed.

(** A clean table holds nothing the sanitizer rewrites. *)
Lemma sanitize_series_clean (index : Index) (s : Series) :
  Forall (fun c => clean_text (cell_text c) = true) s -> sanitize_series index s = s.
Proof.
  intros Hs.
  assert (forall c, c ∈ s -> (dollar ∉ cell_str c) /\ (semicolon ∉ cell_str c)) as Hfree.
  { intros c Hc. eapply Forall_forall in Hs; [|done].
    destruct c as [x|t|]; cbn in *; [| |done];
      split; by apply (clean_text_free _ _ Hs). }
  assert (forall old, old = dollar \/ old = semicolon -> raises_on old s = false) as Hr.
  { intros old Hold. unfold raises_on. apply not_true_iff_false.
    rewrite existsb_exists. intros (c & Hc & Hm). apply list_elem_of_In in Hc.
    apply andb_true_iff in Hm as [Hm _]. apply contains_char in Hm.
    destruct (Hfree c Hc). destruct Hold as [->| ->]; done. }
  rewrite sanitize_series_unfold. destruct (str_at_label_0 index s); [|done].
  rewrite !Hr by tauto. rewrite <- (list_fmap_id s) at 2.
  apply list_fmap_ext. intros i c Hc. apply list_elem_of_lookup_2 in Hc.
  destruct (Hfree c Hc) as [H1 H2]. destruct c as [x|t|]; try done.
  unfold sanitize_cell. cbn [replace_dollar replace_semicolon cell_str] in *.
  rewrite (str_replace_absent dollar) by done. by rewrite str_replace_absent.
Qed.

Lemma sanitize_frame_clean (index : Index) (df : DataFrame) :
  clean_table df = true -> sanitize_frame index df = df.
Proof.
  intros Hclean.
  destruct (clean_table_parts df Hclean) as (label & s & rest & Hdf & Hall).
  rewrite sanitize_frame_spec. unfold sanitized.
  transitivity (id <$> df); [|apply list_fmap_id].
  apply list_fmap_ext. intros i p Hp.
  apply list_elem_of_lookup_2 in Hp.
  eapply Forall_forall in Hall as (_ & _ & Hcells); [|done].
  destruct (decide _); [|done]. rewrite sanitize_series_clean by done.
  by destruct p.
Qed.

(** *** Which lines of the written file match the block name *)

Lemma starts_with_elem (p s : bytes) (c : ascii) :
  starts_with p s = true -> c ∈ p -> c ∈ s.
Proof.
  revert s. induction p as [|a p IH]; intros s Hp Hc; [by apply elem_of_nil in Hc|].
  destruct s as [|x s]; [done|]. cbn in Hp. apply andb_true_iff in Hp as [Ha Hp].
  apply Ascii.eqb_eq in Ha. subst x. apply elem_of_cons in Hc as [->|Hc].
  - by left.
  - right. by apply IH.
Qed.

Lemma contains_elem (p s : bytes) (c : ascii) :
  contains p s = true -> c ∈ p -> c ∈ s.
Proof.
  induction s as [|x s IH]; cbn; intros Hp Hc.
  - rewrite orb_false_r in Hp. by apply (starts_with_elem p []).
  - apply orb_true_iff in Hp as [Hp|Hp].
    + by apply (starts_with_elem p).
    + right. by apply IH.
Qed.

Lemma contains_app (p a b : bytes) : contains p (a ++ p ++ b) = true.
Proof.
  induction a as [|x a IH].
  - cbn [app]. destruct (p ++ b) eqn:E; cbn; rewrite <- E, starts_with_app; done.
  - cbn. rewrite IH. apply orb_true_r.
Qed.

Lemma contains_after_dollar (p a b : bytes) :
  dollar ∉ a -> dollar ∉ b ->
  contains (dollar :: p) (a ++ dollar :: b) = starts_with p b.
Proof.
  intros Ha Hb. induction a as [|x a IH].
  - cbn [app contains starts_with]. rewrite Ascii.eqb_refl. cbn.
    destruct (contains (dollar :: p) b) eqn:E; [|by rewrite orb_false_r].
    destruct Hb. apply (contains_elem (dollar :: p)); [done|by left].
  - apply not_elem_of_cons in Ha as [Hx Ha]. cbn [app contains starts_with].
    destruct (Ascii.eqb dollar x) eqn:E.
    + apply Ascii.eqb_eq in E. congruence.
    + cbn. by apply IH.
Qed.

Lemma starts_with_name_colon (name pre post : bytes) :
  colon ∉ name -> colon ∉ pre ->
  starts_with (name ++ [colon]) (pre ++ colon :: post) = true -> name = pre.
Proof.
  revert pre. induction name as [|a name IH]; intros [|x pre] Hn Hp;
    cbn [starts_with app]; try done.
  - rewrite andb_true_r. intros E%Ascii.eqb_eq. subst x. destruct Hp. by left.
  - intros [E _]%andb_true_iff. apply Ascii.eqb_eq in E. subst a. destruct Hn. by left.
  - intros [E H]%andb_true_iff. apply Ascii.eqb_eq in E. subst x.
    apply not_elem_of_cons in Hn as [_ Hn]. apply not_elem_of_cons in Hp as [_ Hp].
    f_equal. by apply IH.
Qed.

Lemma name_char_free (name : bytes) (c : ascii) :
  forallb name_char name = true -> name_char c = false -> c ∉ name.
Proof.
  intros H Hc Hin. rewrite forallb_forall in H.
  apply list_elem_of_In, H in Hin. congruence.
Qed.

Lemma vision_line_matches_no_name (name : bytes) :
  header_matches name (str "$VISION" ++ [nl]) = false.
Proof.
  unfold header_matches. apply not_true_iff_false. intros H.
  apply (contains_elem _ _ colon) in H.
  - apply contains_char in H. vm_compute in H. discriminate.
  - right. apply elem_of_app. right. by left.
Qed.

Lemma version_line_matches_no_clean_name (name : bytes) :
  clean_name name = true ->
  header_matches name (str "$VERSION:VERSNR;FILETYPE;LANGUAGE;UNIT" ++ [nl]) = false.
Proof.
  unfold clean_name. intros [Hc Hv]%andb_true_iff.
  apply negb_true_iff, bool_decide_eq_false in Hv.
  unfold header_matches. apply not_true_iff_false. intros H.
  change (bytes_repr (str "$VERSION:VERSNR;FILETYPE;LANGUAGE;UNIT" ++ [nl]))
    with (str "b'" ++ dollar
            :: (str "VERSION" ++ colon :: str "VERSNR;FILETYPE;LANGUAGE;UNIT\n'")) in H.
  rewrite contains_after_dollar in H
    by (apply contains_char_false; reflexivity).
  apply starts_with_name_colon in H; [done| |].
  - by apply (name_char_free name).
  - apply contains_char_false. reflexivity.
Qed.

Lemma repr_name_char (c : ascii) :
  name_char c = true -> repr_byte squote c = [c] /\ repr_byte dquote c = [c].
Proof.
  destruct c as [[] [] [] [] [] [] [] []]; vm_compute; intros H; try discriminate H;
    split; reflexivity.
Qed.

Lemma repr_name (q : ascii) (name : bytes) :
  q = squote \/ q = dquote -> forallb name_char name = true ->
  flat_map (repr_byte q) name = name.
Proof.
  intros Hq. induction name as [|c name IH]; [done|]. cbn.
  intros [Hc Hn]%andb_true_iff. rewrite IH by done.
  destruct (repr_name_char c Hc) as [H1 H2]. by destruct Hq as [->| ->]; rewrite ?H1, ?H2.
Qed.

Lemma own_line_matches (name rest : bytes) :
  forallb name_char name = true ->
  header_matches name (dollar :: name ++ colon :: rest) = true.
Proof.
  intros Hname. unfold header_matches, bytes_repr.
  set (q := repr_quote _).
  assert (q = squote \/ q = dquote) as Hq
    by (subst q; unfold repr_quote; destruct (_ && _); tauto).
  change (dollar :: name ++ colon :: rest) with ([dollar] ++ name ++ [colon] ++ rest).
  rewrite !flat_map_app, (repr_name q name Hq Hname).
  assert (flat_map (repr_byte q) [dollar] = [dollar]
          /\ flat_map (repr_byte q) [colon] = [colon]) as [-> ->]
    by (destruct Hq as [->| ->]; split; reflexivity).
  replace ("b"%char :: q :: ([dollar] ++ name ++ [colon] ++ flat_map (repr_byte q) rest)
           ++ [q])
    with (["b"%char; q] ++ (dollar :: name ++ [colon])
          ++ (flat_map (repr_byte q) rest ++ [q]))
    by (cbn; by rewrite <- !app_assoc).
  apply contains_app.
Qed.

(** *** The steps of the scan on a file of known shape *)

Lemma find_sub_char_at (c : ascii) (mid rest : bytes) :
  c ∉ mid -> find_sub [c] (mid ++ c :: rest) = Some (length mid).
Proof.
  induction mid as [|x mid IH]; intros Hc; cbn [app find_sub starts_with length].
  - by rewrite Ascii.eqb_refl.
  - apply not_elem_of_cons in Hc as [Hx Hc]. destruct (Ascii.eqb c x) eqn:E.
    + apply Ascii.eqb_eq in E. congruence.
    + cbn. by rewrite IH.
Qed.

Lemma find_sub_char_none (c : ascii) (s : bytes) : c ∉ s -> find_sub [c] s = None.
Proof.
  induction s as [|x s IH]; intros Hc; [done|]. cbn [find_sub starts_with].
  apply not_elem_of_cons in Hc as [Hx Hc]. destruct (Ascii.eqb c x) eqn:E.
  - apply Ascii.eqb_eq in E. congruence.
  - cbn. by rewrite IH.
Qed.

Lemma mm_find_at (c : ascii) (pre mid rest : bytes) :
  c ∉ mid ->
  mm_find [c] {| mm_data := pre ++ mid ++ c :: rest; mm_pos := length pre |}
  = Some (length pre + length mid).
Proof.
  intros Hc. unfold mm_find, bytes_find. cbn [mm_data mm_pos].
  by rewrite drop_app_length, find_sub_char_at.
Qed.

Lemma mm_find_none (c : ascii) (pre suf : bytes) :
  c ∉ suf -> mm_find [c] {| mm_data := pre ++ suf; mm_pos := length pre |} = None.
Proof.
  intros Hc. unfold mm_find, bytes_find. cbn [mm_data mm_pos].
  by rewrite drop_app_length, find_sub_char_none.
Qed.

Lemma take_line_app (line rest : bytes) :
  nl ∉ line -> take_line (line ++ nl :: rest) = line ++ [nl].
Proof.
  induction line as [|x line IH]; intros Hc; cbn [app take_line].
  - by rewrite Ascii.eqb_refl.
  - apply not_elem_of_cons in Hc as [Hx Hc]. destruct (Ascii.eqb x nl) eqn:E.
    + apply Ascii.eqb_eq in E. congruence.
    + by rewrite IH.
Qed.

Lemma mm_readline_at (pre line rest : bytes) (p : nat) :
  nl ∉ line ->
  mm_readline (mm_seek (length pre)
                 {| mm_data := pre ++ line ++ nl :: rest; mm_pos := p |})
  = (line ++ [nl],
     {| mm_data := pre ++ line ++ nl :: rest;
        mm_pos := length (pre ++ line ++ [nl]) |}).
Proof.
  intros Hc. unfold mm_readline, mm_seek. cbn [mm_data mm_pos].
  rewrite drop_app_length, take_line_app by done.
  by rewrite !length_app.
Qed.

Section Steps.

Variable pd_read_csv : bytes -> result csv_reader.

(** A dollar line that the first requested name does not match is
    passed over. *)
Lemma scan_passes_line (fuel : nat) (name : bytes) (names : list bytes)
    (pre mid l rest : bytes) (found : list bool) (tables : list DataFrame) :
  false ∈ found -> dollar ∉ mid -> nl ∉ l ->
  header_matches name (dollar :: l ++ [nl]) = false ->
  scan_blocks pd_read_csv (S fuel) (name :: names)
    {| found_block := found; data := tables;
       file_map := {| mm_data := pre ++ mid ++ dollar :: l ++ nl :: rest;
                      mm_pos := length pre |} |}
  = scan_blocks pd_read_csv fuel (name :: names)
      {| found_block := found; data := tables;
         file_map := {| mm_data := pre ++ mid ++ dollar :: l ++ nl :: rest;
                        mm_pos := length (pre ++ mid ++ dollar :: l ++ [nl]) |} |}.
Proof.
  intros Hf Hmid Hl Hm. cbn [scan_blocks found_block data file_map].
  rewrite bool_decide_true by done. cbn [negb].
  rewrite mm_find_at by done.
  replace (length pre + length mid) with (length (pre ++ mid)) by apply length_app.
  replace (pre ++ mid ++ dollar :: l ++ nl :: rest)
    with ((pre ++ mid) ++ (dollar :: l) ++ nl :: rest) by (by rewrite <- app_assoc).
  rewrite mm_readline_at.
  2:{ apply not_elem_of_cons. split; [done|done]. }
  cbn [match_names]. change ((dollar :: l) ++ [nl]) with (dollar :: l ++ [nl]).
  rewrite Hm. cbn [negb]. do 3 f_equal. by rewrite <- !app_assoc.
Qed.

End Steps.

(** *** Asterisks in the rows of a clean table *)

Lemma guarded_nil : guarded [].
Proof. intros p q H. by destruct p. Qed.

Lemma guarded_of_no_star (body : bytes) : star ∉ body -> guarded body.
Proof.
  intros Hs p q ->. destruct Hs. apply elem_of_app. right. by left.
Qed.

(** A line in which a semicolon follows every asterisk, put before a
    guarded text. *)
Lemma guarded_line (line rest : bytes) :
  nl ∉ line ->
  (forall p q, line = p ++ star :: q -> semicolon ∈ q) ->
  guarded rest -> guarded (line ++ nl :: rest).
Proof.
  intros Hnl Hline Hrest p q H.
  apply app_eq_app in H as [l [[Hl Hq]|[Hp Hq]]].
  - destruct l as [|c l]; [discriminate|]. injection Hq as <- ->.
    exists l, rest. split; [done|]. split.
    + intros Hin. apply Hnl. rewrite Hl, elem_of_app, elem_of_cons. tauto.
    + by apply (Hline p l).
  - destruct l as [|c l]; [discriminate|]. injection Hq as <- ->.
    by apply (Hrest l q).
Qed.

(** In a semicolon-joined line whose last field holds no asterisk, a
    semicolon follows every asterisk. *)
Lemma join_star_followed (ts : list bytes) (p q : bytes) :
  (forall t, last ts = Some t -> star ∉ t) ->
  join (str ";") ts = p ++ star :: q -> semicolon ∈ q.
Proof.
  revert p. induction ts as [|x [|y ts] IH]; intros p Hlast H.
  - by destruct p.
  - cbn [join] in H. destruct (Hlast x eq_refl). rewrite H.
    apply elem_of_app. right. by left.
  - change (join (str ";") (x :: y :: ts))
      with (x ++ semicolon :: join (str ";") (y :: ts)) in H.
    apply app_eq_app in H as [l [[Hl Hq]|[Hp Hq]]].
    + destruct l as [|c l]; [discriminate|]. injection Hq as _ ->.
      apply elem_of_app. right. by left.
    + destruct l as [|c l]; [discriminate|]. injection Hq as _ Hq.
      by apply (IH l).
Qed.

Lemma frame_rows_last (df : DataFrame) :
  clean_table df = true ->
  Forall (fun row : list cell => forall c, last row = Some c -> star ∉ cell_text c)
         (frame_rows df).
Proof.
  intros Hclean. unfold frame_rows. destruct df as [|[label s] rest] eqn:Hdf; [done|].
  rewrite <- Hdf in *. clear Hdf. apply Forall_fmap, Forall_forall. intros i _ c.
  rewrite fmap_last. destruct (last df) as [p|] eqn:Hp; [|done].
  cbn [fmap option_fmap option_map]. intros [= <-].
  pose proof (clean_table_last df p Hclean Hp) as Hfree.
  destruct (p.2 !! i) as [c|] eqn:Hc; cbn [default]; [|apply not_elem_of_nil].
  unfold star_free in Hfree. rewrite forallb_forall in Hfree.
  apply list_elem_of_lookup_2, list_elem_of_In, Hfree, negb_true_iff in Hc.
  by apply contains_char_false.
Qed.

Lemma encoded_rows_guarded (df : DataFrame) :
  clean_table df = true -> guarded (csv_encode df).1.
Proof.
  intros Hclean.
  destruct (clean_table_parts df Hclean) as (label & s & rest & Hdf & Hall).
  pose proof (frame_row_texts df (length s) Hall) as Hrows.
  pose proof (frame_rows_last df Hclean) as Hlast.
  assert (frame_rows df
          = (fun i => (fun p : bytes * Series => default VNaN (p.2 !! i)) <$> df)
              <$> seq 0 (length s)) as Hfr by (by subst df).
  rewrite <- Hfr in Hrows. clear Hfr.
  unfold csv_encode. cbn [fst]. revert Hrows Hlast. generalize (frame_rows df).
  intros all_rows Hrows Hlast.
  induction Hrows as [|row rows [_ Hrow] _ IH]; [apply guarded_nil|].
  apply Forall_cons in Hlast as [Hl Hlast].
  cbn [fmap list_fmap concat]. rewrite <- app_assoc. apply guarded_line.
  - apply not_elem_of_join; [by apply contains_char_false|].
    eapply Forall_impl; [exact Hrow|]. intros t Ht. by apply (clean_text_free t nl).
  - intros p q. apply join_star_followed. intros t. rewrite fmap_last.
    destruct (last row) as [c|]; [|done]. intros [= <-]. by apply Hl.
  - by apply IH.
Qed.

Lemma header_line_no_newline (name : bytes) (df : DataFrame) :
  clean_table df = true -> forallb name_char name = true ->
  nl ∉ name ++ colon :: upper (join (str ";") (columns df)).
Proof.
  intros Hclean Hname.
  destruct (clean_table_parts df Hclean) as (label & s & rest & Hdf & Hall).
  rewrite elem_of_app, elem_of_cons, upper_join. intros [H|[H|H]]; [|done|].
  - by apply (name_char_free name nl Hname).
  - revert H. apply not_elem_of_join; [by apply contains_char_false|].
    unfold columns. apply Forall_fmap, Forall_fmap.
    eapply Forall_impl; [exact Hall|]. intros p (_ & Hp & _). cbn.
    apply (clean_text_free _ nl); [|done]. by rewrite clean_text_upper.
Qed.

(** * Further properties of the code *)

(** ** The reader on arbitrary files *)

Section ReaderFacts.

Variable pd_read_csv : bytes -> result csv_reader.

(** The scan from the initial state, for a request of any shape. *)
Lemma scan_from_start (names : list bytes) (content : bytes) :
  exists res,
    scan_blocks pd_read_csv (S (length content)) names
      {| found_block := replicate (length names) false;
         data := replicate (length names) empty_frame;
         file_map := {| mm_data := content; mm_pos := 0 |} |} = Some res
    /\ match res with
       | OK st' => length (data st') = length names
       | Raise e => from_decoder e
       end.
Proof.
  destruct (scan_blocks_spec pd_read_csv names (length names) content) with
    (fuel := S (length content))
    (st := {| found_block := replicate (length names) false;
              data := replicate (length names) empty_frame;
              file_map := {| mm_data := content; mm_pos := 0 |} |})
    as (res & Hres & Hpost).
  - intros name k Hn. apply lookup_lt_Some in Hn. lia.
  - done.
  - unfold mm_size. cbn. lia.
  - exists res. split; [done|]. destruct res as [st'|e]; [|tauto].
    cbn [data] in Hpost. rewrite length_replicate in Hpost. tauto.
Qed.

(** X1.  The read call comes to an end on every input.  It raises
    FileNotFoundError when the file is missing and ValueError when the
    file has no bytes; otherwise it returns one table for a single name
    and as many tables as names for a list, or raises an error that
    comes from decoding a block. *)
Theorem read_ends_with_a_table_per_name
    (fs : filesystem) (path : string) (block_names : block_names_arg) :
  match fs !! path with
  | None =>
      read_visum_file pd_read_csv fs path block_names
      = Some (Raise (FileNotFoundError path))
  | Some [] =>
      read_visum_file pd_read_csv fs path block_names
      = Some (Raise (ValueError "cannot mmap an empty file"))
  | Some (_ :: _) =>
      exists r, read_visum_file pd_read_csv fs path block_names = Some r
        /\ match r, block_names with
           | OK (Tables tables), Names names => length tables = length names
           | OK (Table _), Name _ => True
           | OK _, _ => False
           | Raise e, _ => from_decoder e
           end
  end.
Proof.
  unfold read_visum_file, _bom_aware_open, _get_encoding, open_rb.
  destruct (fs !! path) as [[|c content]|] eqn:Hfs.
  - by destruct block_names.
  - set (names := match block_names with Name s => [s] | Names l => l end).
    destruct (scan_from_start names (c :: content)) as (res & Hres & Hpost).
    destruct block_names as [s|l]; subst names; cbn [mmap_open];
      unfold mm_size; cbn [mm_data]; rewrite Hres; destruct res as [st'|e];
      (eexists; split; [reflexivity|]; first [exact Hpost | exact I]).
  - by destruct block_names.
Qed.

(** When the first name of the request matches no line, no line is
    compared with any other name: the scan leaves the tables as they
    are. *)
Lemma scan_first_name_absent (name : bytes) (rest : list bytes) (content : bytes) :
  (forall k, content !! k = Some dollar ->
             header_matches name (line_at content k) = false) ->
  forall (fuel : nat) (st : scan_state),
  mm_data (file_map st) = content ->
  mm_size (file_map st) - mm_pos (file_map st) < fuel ->
  exists st', scan_blocks pd_read_csv fuel (name :: rest) st = Some (OK st')
    /\ data st' = data st.
Proof.
  intros Habs. induction fuel as [|fuel IH]; intros st Hc Hfuel; [lia|].
  cbn [scan_blocks]. destruct (negb _); [by exists st|].
  destruct (mm_find [dollar] (file_map st)) as [k|] eqn:Hfind; [|by exists st].
  apply mm_find_char in Hfind as (Hle & Hk & Hdollar).
  destruct (readline_advances (file_map st) k Hk) as [Hpos Hdata].
  assert ((mm_readline (mm_seek k (file_map st))).1 = line_at content k) as Hline
    by (by rewrite <- Hc).
  destruct (mm_readline (mm_seek k (file_map st))) as [line m]. cbn [fst snd] in *.
  cbn [match_names]. rewrite Hline, Habs by (by rewrite <- Hc). cbn [negb].
  destruct (IH {| found_block := found_block st; data := data st; file_map := m |})
    as (st' & -> & Hd); cbn [file_map data].
  - by rewrite Hdata.
  - unfold mm_size in *. rewrite Hdata. lia.
  - by exists st'.
Qed.

(** X2.  If the first name of a request matches no dollar line of the
    file, every table of the answer is empty, whatever blocks the
    later names would have found. *)
Theorem first_name_missing_empties_answer
    (fs : filesystem) (path : string) (content : bytes)
    (name : bytes) (rest : list bytes) :
  fs !! path = Some content -> content <> [] -> block_absent name content = true ->
  read_visum_file pd_read_csv fs path (Names (name :: rest))
  = Some (OK (Tables (replicate (S (length rest)) empty_frame))).
Proof.
  intros Hfs Hne Habs.
  assert (mmap_open content = OK {| mm_data := content; mm_pos := 0 |}) as Hmap
    by (by destruct content).
  unfold read_visum_file, _bom_aware_open, _get_encoding, open_rb.
  rewrite Hfs, Hmap.
  destruct (scan_first_name_absent name rest content) with
    (fuel := S (mm_size {| mm_data := content; mm_pos := 0 |}))
    (st := {| found_block := replicate (length (name :: rest)) false;
              data := replicate (length (name :: rest)) empty_frame;
              file_map := {| mm_data := content; mm_pos := 0 |} |})
    as (st' & -> & Hd).
  - intros k Hk. by apply block_absent_spec.
  - done.
  - unfold mm_size. cbn. lia.
  - by rewrite Hd.
Qed.

End ReaderFacts.

(** The second name has a block in the file and is found when asked for
    alone; after a first name without block it is not. *)
Lemma first_name_missing_empties_answer_witness :
  read_file {[ "net.net"%string := text_of_lines ["$NODE:NO"; "1"; "2"] ]}
            "net.net" (Names [str "LINK"; str "NODE"])
  = Some (OK (Tables (replicate 2 empty_frame))).
Proof.
  apply (first_name_missing_empties_answer csv_decode
           {[ "net.net"%string := text_of_lines ["$NODE:NO"; "1"; "2"] ]}
           "net.net" (text_of_lines ["$NODE:NO"; "1"; "2"]) (str "LINK") [str "NODE"]).
  - reflexivity.
  - discriminate.
  - vm_compute. reflexivity.
Defined.

(** *** Names that no line can match *)

Lemma repr_byte_printable (c : ascii) :
  forallb printable (repr_byte squote c) = true
  /\ forallb printable (repr_byte dquote c) = true.
Proof. destruct c as [[] [] [] [] [] [] [] []]; vm_compute; split; reflexivity. Qed.

Lemma bytes_repr_printable (s : bytes) (c : ascii) :
  c ∈ bytes_repr s -> printable c = true.
Proof.
  unfold bytes_repr. set (q := repr_quote s).
  assert (q = squote \/ q = dquote) as Hq
    by (subst q; unfold repr_quote; destruct (_ && _); tauto).
  rewrite !elem_of_cons, elem_of_app, list_elem_of_singleton.
  intros [->|[->|[H| ->]]].
  - reflexivity.
  - by destruct Hq as [->| ->].
  - apply list_elem_of_In, in_flat_map in H as (x & _ & Hx).
    destruct (repr_byte_printable x) as [H1 H2].
    rewrite forallb_forall in H1, H2. destruct Hq as [->| ->]; auto.
  - by destruct Hq as [->| ->].
Qed.

Lemma unprintable_name_matches_nothing (name line : bytes) :
  forallb printable name = false -> header_matches name line = false.
Proof.
  intros Hn. apply not_true_iff_false. intros Hm.
  apply not_true_iff_false in Hn. apply Hn. apply forallb_forall.
  intros c Hc. apply (bytes_repr_printable line). unfold header_matches in Hm.
  apply (contains_elem _ _ c) in Hm; [done|].
  right. apply elem_of_app. left. by apply list_elem_of_In.
Qed.

(** X3.  The header line is compared with the name through its [repr],
    which shows printable ASCII only.  A block name holding any other
    character (a control character, or any byte of a non-ASCII letter)
    therefore matches no line, and the read yields the empty table
    whatever the file holds. *)
Theorem unprintable_name_is_never_found
    (pd_read_csv : bytes -> result csv_reader) (fs : filesystem) (path : string)
    (content name : bytes) :
  fs !! path = Some content -> content <> [] -> forallb printable name = false ->
  read_visum_file pd_read_csv fs path (Name name) = Some (OK (Table empty_frame)).
Proof.
  intros Hfs Hne Hname.
  assert (mmap_open content = OK {| mm_data := content; mm_pos := 0 |}) as Hmap
    by (by destruct content).
  unfold read_visum_file, _bom_aware_open, _get_encoding, open_rb.
  rewrite Hfs, Hmap.
  destruct (scan_first_name_absent pd_read_csv name [] content) with
    (fuel := S (mm_size {| mm_data := content; mm_pos := 0 |}))
    (st := {| found_block := replicate (length [name]) false;
              data := replicate (length [name]) empty_frame;
              file_map := {| mm_data := content; mm_pos := 0 |} |})
    as (st' & -> & Hd).
  - intros k _. by apply unprintable_name_matches_nothing.
  - done.
  - unfold mm_size. cbn. lia.
  - by rewrite Hd.
Qed.

(** The file holds the block STRASSE spelled with a sharp s (the two
    bytes 195 159); asked for under that very name it is not found. *)
Lemma unprintable_name_is_never_found_witness :
  read_file {[ "net.net"%string := text_of_lines ["$STRAßE:NO"; "1"] ]}
            "net.net" (Name (str "STRAßE"))
  = Some (OK (Table empty_frame)).
Proof.
  apply (unprintable_name_is_never_found csv_decode
           {[ "net.net"%string := text_of_lines ["$STRAßE:NO"; "1"] ]}
           "net.net" (text_of_lines ["$STRAßE:NO"; "1"]) (str "STRAßE")).
  - reflexivity.
  - discriminate.
  - vm_compute. reflexivity.
Defined.

(** *** The test applied to a candidate terminator *)

Lemma take_line_head (c : ascii) (s : bytes) :
  exists t, take_line (c :: s) = c :: t.
Proof. cbn. destruct (Ascii.eqb c nl); eauto. Qed.

Lemma find_terminator_lower_bound (fuel : nat) (m m' : mmap) (o : option nat) (j : nat) :
  find_terminator fuel m o = Some (Some j, m') -> exists i, o = Some i /\ i <= j.
Proof.
  revert m o. induction fuel as [|fuel IH]; intros m [i|] H;
    cbn [find_terminator] in H; try discriminate.
  assert (i <= mm_pos (mm_readline (mm_seek i m)).2) as Hpos
    by (unfold mm_readline, mm_seek; cbn; lia).
  destruct (mm_readline (mm_seek i m)) as [line m1]. cbn [snd] in Hpos.
  destruct (_ && _).
  - injection H as <- _. eauto.
  - apply IH in H as (i' & Hfind & Hle). exists i. split; [done|].
    apply mm_find_char in Hfind as (Hpos' & _). lia.
Qed.

Lemma find_sub_none_absent (c : ascii) (s : bytes) : find_sub [c] s = None -> c ∉ s.
Proof.
  induction s as [|x s IH]; cbn [find_sub starts_with]; intros H Hin.
  - by apply elem_of_nil in Hin.
  - destruct (Ascii.eqb c x) eqn:E; [discriminate|]. cbn in H.
    apply Ascii.eqb_neq in E. apply elem_of_cons in Hin as [->|Hin]; [done|].
    destruct (find_sub [c] s); [discriminate|]. by apply IH.
Qed.

(** X4.  Where an asterisk stands in its line plays no part: the
    candidate line is taken from the asterisk on, so its asterisk is at
    index 0 whatever came before it.  A candidate is accepted as the
    terminator exactly when no semicolon follows it up to the end of its
    line. *)
Theorem terminator_test_sees_only_what_follows
    (fuel : nat) (m : mmap) (i : nat) :
  mm_data m !! i = Some star ->
  (fst <$> find_terminator (S fuel) m (Some i) = Some (Some i)
   <-> semicolon ∉ line_at (mm_data m) i).
Proof.
  intros Hi. cbn [find_terminator]. unfold mm_readline, mm_seek.
  cbn [mm_data mm_pos]. fold (line_at (mm_data m) i).
  assert (find_sub [star] (line_at (mm_data m) i) = Some 0) as ->.
  { unfold line_at. rewrite (drop_S _ star) by done.
    destruct (take_line_head star (drop (S i) (mm_data m))) as [t ->].
    cbn [find_sub starts_with]. by rewrite Ascii.eqb_refl. }
  rewrite (bool_decide_true (Some 0 = Some 0 \/ Some 0 = Some 1)) by tauto.
  rewrite andb_true_r. case_bool_decide as Hsemi.
  - split; [|done]. intros _. by apply find_sub_none_absent.
  - split.
    + intros H. destruct (find_terminator fuel _ _) as [[r m']|] eqn:E; [|done].
      injection H as ->. apply find_terminator_lower_bound in E as (j & Hfind & Hle).
      apply mm_find_char in Hfind as (Hpos & _). cbn in Hpos.
      assert (0 < length (line_at (mm_data m) i)); [|lia].
      apply take_line_length_pos. by rewrite (drop_S _ star).
    + intros Hno. destruct Hsemi. apply find_sub_char_none. done.
Qed.

(** An asterisk in the middle of a line without semicolon, and one
    after a semicolon: both are accepted. *)
Lemma terminator_test_sees_only_what_follows_witness :
  fst <$> find_terminator 1
            {| mm_data := text_of_lines ["$T:A;B"; "1;ab*cd"]; mm_pos := 7 |} (Some 11)
  = Some (Some 11)
  <-> semicolon ∉ line_at (text_of_lines ["$T:A;B"; "1;ab*cd"]) 11.
Proof.
  apply (terminator_test_sees_only_what_follows 0
           {| mm_data := text_of_lines ["$T:A;B"; "1;ab*cd"]; mm_pos := 7 |} 11).
  reflexivity.
Defined.

(** X5.  A single name is served as the list of that one name: either
    both calls raise the same error, or the list call returns exactly
    one table and the single call returns that table. *)
Theorem single_name_is_one_element_request
    (pd_read_csv : bytes -> result csv_reader) (fs : filesystem) (path : string)
    (name : bytes) :
  (exists e, read_visum_file pd_read_csv fs path (Name name) = Some (Raise e)
             /\ read_visum_file pd_read_csv fs path (Names [name]) = Some (Raise e))
  \/ (exists t, read_visum_file pd_read_csv fs path (Name name) = Some (OK (Table t))
                /\ read_visum_file pd_read_csv fs path (Names [name])
                   = Some (OK (Tables [t]))).
Proof.
  unfold read_visum_file, _bom_aware_open, _get_encoding, open_rb.
  destruct (fs !! path) as [content|]; [|left; eauto].
  destruct (mmap_open content) as [m|e] eqn:Hmap; [|left; eauto].
  assert (m = {| mm_data := content; mm_pos := 0 |}) as ->
    by (destruct content; [discriminate|by injection Hmap]).
  destruct (scan_from_start pd_read_csv [name] content) as (res & Hres & Hpost).
  cbn [mm_size mm_data length] in *. rewrite Hres.
  destruct res as [st'|e]; [right|left; eauto].
  destruct (data st') as [|t [|t' l]] eqn:Hd; try discriminate. eauto.
Qed.

(** ** The sanitizer on arbitrary frames *)

Lemma replace_dollar_free (c : cell) : dollar ∉ cell_str c -> replace_dollar c = c.
Proof. destruct c as [x| |]; try done. cbn. intros H. by rewrite str_replace_absent. Qed.

Lemma sanitize_cell_free (c : cell) :
  dollar ∉ cell_str c -> semicolon ∉ cell_str c -> sanitize_cell c = c.
Proof.
  destruct c as [x| |]; try done. unfold sanitize_cell. cbn. intros H1 H2.
  rewrite (str_replace_absent dollar) by done. by rewrite str_replace_absent.
Qed.

Lemma sanitize_series_keeps_free (index : Index) (s : Series) (i : nat) (c : cell) :
  s !! i = Some c -> dollar ∉ cell_str c -> semicolon ∉ cell_str c ->
  sanitize_series index s !! i = Some c.
Proof.
  intros Hi H1 H2. rewrite sanitize_series_unfold.
  repeat match goal with |- context [if ?b then _ else _] => destruct b end;
    rewrite ?list_lookup_fmap, ?Hi; cbn;
    by rewrite ?replace_dollar_free, ?sanitize_cell_free.
Qed.

(** The series found in the store after the sanitizer has run, for a
    series of any frame of the store. *)
Lemma sanitizer_series_lookup (index_of : ref -> Index)
    (dataframes : list nat) (h : store) (r : nat) (df : DataFrame)
    (j : nat) (label : bytes) (s : Series) :
  h !! r = Some df -> df !! j = Some (label, s) ->
  exists df',
    (_replace_invalid_visum_chars index_of dataframes h).1 !! r = Some df'
    /\ df' !! j = Some (label, if decide (r ∈ dataframes /\ label_unique df label)
                               then sanitize_series (index_of r) s else s).
Proof.
  intros Hr Hj. rewrite sanitize_store_lookup, Hr.
  destruct (decide (r ∈ dataframes)) as [Hin|Hin]; cbn [fmap option_fmap option_map].
  - exists (sanitize_frame (index_of r) df). split; [done|].
    rewrite sanitize_frame_spec. unfold sanitized. rewrite list_lookup_fmap, Hj.
    cbn [fmap option_fmap option_map fst snd].
    destruct (decide (label_unique df label)) as [Hu|Hu].
    + by rewrite decide_True by tauto.
    + by rewrite decide_False by tauto.
  - exists df. split; [done|]. by rewrite decide_False by tauto.
Qed.

(** X6.  The sanitizer never alters a cell whose text holds neither a
    dollar sign nor a semicolon: whatever frame and series it stands
    in, and whether or not a replacement raised in that series, the
    cell is found unchanged at its place. *)
Theorem sanitizer_keeps_cells_free_of_both
    (index_of : ref -> Index)
    (dataframes : list nat) (h : store) (r : nat) (df : DataFrame)
    (j : nat) (label : bytes) (s : Series) (i : nat) (c : cell) :
  h !! r = Some df -> df !! j = Some (label, s) -> s !! i = Some c ->
  dollar ∉ cell_str c -> semicolon ∉ cell_str c ->
  exists df' s',
    (_replace_invalid_visum_chars index_of dataframes h).1 !! r = Some df'
    /\ df' !! j = Some (label, s')
    /\ s' !! i = Some c.
Proof.
  intros Hr Hj Hi H1 H2.
  destruct (sanitizer_series_lookup index_of dataframes h r df j label s Hr Hj)
    as (df' & Hdf' & Hs').
  eexists df', _. split; [done|]. split; [done|].
  destruct (decide _); [|done]. by apply sanitize_series_keeps_free.
Qed.

Lemma sanitizer_keeps_cells_free_of_both_witness :
  exists df' s',
    (_replace_invalid_visum_chars (fun _ => RangeIndex 3) [0]
       {[0 := [(str "NAME", [VStr (str "a$b"); VStr (str "plain"); VOther (str "x;y")])]]}).1
      !! 0 = Some df'
    /\ df' !! 0 = Some (str "NAME", s')
    /\ s' !! 1 = Some (VStr (str "plain")).
Proof.
  apply (sanitizer_keeps_cells_free_of_both (fun _ => RangeIndex 3) [0]
           {[0 := [(str "NAME", [VStr (str "a$b"); VStr (str "plain"); VOther (str "x;y")])]]}
           0 [(str "NAME", [VStr (str "a$b"); VStr (str "plain"); VOther (str "x;y")])]
           0 (str "NAME") [VStr (str "a$b"); VStr (str "plain"); VOther (str "x;y")]
           1 (VStr (str "plain"))).
  - reflexivity.
  - reflexivity.
  - reflexivity.
  - apply contains_char_false. vm_compute. reflexivity.
  - apply contains_char_false. vm_compute. reflexivity.
Defined.

(** X7.  The ways a series whose label occurs once comes out of the
    sanitizer.  If its row labelled 0 does not hold a [str], or it has
    no or several rows labelled 0, it is unchanged.  Otherwise, if some
    cell that is not a [str] has a dollar sign in its text, the first
    replacement raises and the series is unchanged.  Otherwise the
    dollar signs of all [str] cells are replaced; if then some cell
    that is not a [str] has a semicolon in its text, the second
    replacement raises and every semicolon of the series stays.
    Otherwise the semicolons of all [str] cells are replaced too. *)
Theorem sanitizer_stops_at_first_exception
    (index_of : ref -> Index)
    (dataframes : list nat) (h : store) (r : nat) (df : DataFrame)
    (j : nat) (label : bytes) (s : Series) :
  r ∈ dataframes -> h !! r = Some df -> df !! j = Some (label, s) ->
  label_unique df label ->
  exists df',
    (_replace_invalid_visum_chars index_of dataframes h).1 !! r = Some df'
    /\ df' !! j = Some (label,
                       if negb (str_at_label_0 (index_of r) s) then s
                       else if raises_on dollar s then s
                       else if raises_on semicolon s then replace_dollar <$> s
                       else sanitize_cell <$> s).
Proof.
  intros Hin Hr Hj Hu.
  destruct (sanitizer_series_lookup index_of dataframes h r df j label s Hr Hj)
    as (df' & Hdf' & Hs').
  exists df'. split; [done|]. rewrite Hs', decide_True by tauto.
  rewrite sanitize_series_unfold. by destruct (str_at_label_0 _ _).
Qed.

(** A list among the cells has a semicolon in its text: the dollar sign
    of the string cell is replaced, its semicolon is not.  The frame
    has the default row index. *)
Lemma sanitizer_stops_at_first_exception_witness :
  exists df',
    (_replace_invalid_visum_chars (fun _ => RangeIndex 2) [0]
       {[0 := [(str "NAME", [VStr (str "a$b;c"); VOther (str "['x;y']")])]]}).1 !! 0
    = Some df'
    /\ df' !! 0 = Some (str "NAME", [VStr (str "aยงb;c"); VOther (str "['x;y']")]).
Proof.
  apply (sanitizer_stops_at_first_exception (fun _ => RangeIndex 2) [0]
           {[0 := [(str "NAME", [VStr (str "a$b;c"); VOther (str "['x;y']")])]]}
           0 [(str "NAME", [VStr (str "a$b;c"); VOther (str "['x;y']")])]
           0 (str "NAME") [VStr (str "a$b;c"); VOther (str "['x;y']")]).
  - by left.
  - reflexivity.
  - reflexivity.
  - vm_compute. reflexivity.
Defined.

(** X8.  A series whose label occurs more than once in its frame is
    never sanitized: selecting the label gives a frame, not a series,
    and the iteration ends in the exception handler. *)
Theorem sanitizer_skips_repeated_labels
    (index_of : ref -> Index)
    (dataframes : list nat) (h : store) (r : nat) (df : DataFrame)
    (j : nat) (label : bytes) (s : Series) :
  h !! r = Some df -> df !! j = Some (label, s) -> ~ label_unique df label ->
  exists df',
    (_replace_invalid_visum_chars index_of dataframes h).1 !! r = Some df'
    /\ df' !! j = Some (label, s).
Proof.
  intros Hr Hj Hu.
  destruct (sanitizer_series_lookup index_of dataframes h r df j label s Hr Hj)
    as (df' & Hdf' & Hs').
  exists df'. split; [done|]. by rewrite Hs', decide_False by tauto.
Qed.

Lemma sanitizer_skips_repeated_labels_witness :
  exists df',
    (_replace_invalid_visum_chars (fun _ => RangeIndex 1) [0]
       {[0 := [(str "NAME", [VStr (str "a$b")]); (str "NAME", [VStr (str "c;d")])]]}).1 !! 0
    = Some df'
    /\ df' !! 1 = Some (str "NAME", [VStr (str "c;d")]).
Proof.
  apply (sanitizer_skips_repeated_labels (fun _ => RangeIndex 1) [0]
           {[0 := [(str "NAME", [VStr (str "a$b")]); (str "NAME", [VStr (str "c;d")])]]}
           0 [(str "NAME", [VStr (str "a$b")]); (str "NAME", [VStr (str "c;d")])]
           1 (str "NAME") [VStr (str "c;d")]).
  - reflexivity.
  - reflexivity.
  - vm_compute. discriminate.
Defined.

(** The lookup of the label 0 fails when no row carries it. *)
Lemma no_row_labelled_0 (index : Index) (s : Series) :
  0%Z ∉ index -> series_getitem_0 index s = KeyError.
Proof.
  intros H0. unfold series_getitem_0.
  assert (filter (fun p : Z * cell => p.1 = 0%Z) (zip index s) = []) as ->; [|done].
  revert s. induction index as [|z index IH]; intros [|c s]; try done.
  apply not_elem_of_cons in H0 as [Hz H0].
  cbn [zip zip_with]. rewrite filter_cons. cbn [fst].
  rewrite decide_False by done. by apply IH.
Qed.

(** X16.  The guard of the sanitizer looks a cell up by the row label
    0, not by position: a frame none of whose rows has the label 0 (a
    frame cut from a larger one and not re-indexed, say) leaves the
    sanitizer as it came, whatever its cells hold. *)
Theorem frame_without_row_label_0_is_not_sanitized
    (index_of : ref -> Index) (dataframes : list nat) (h : store) (r : nat) :
  0%Z ∉ index_of r ->
  (_replace_invalid_visum_chars index_of dataframes h).1 !! r = h !! r.
Proof.
  intros H0. rewrite sanitize_store_lookup. destruct (decide _); [|done].
  destruct (h !! r) as [df|]; [|done]. cbn [fmap option_fmap option_map]. f_equal.
  rewrite sanitize_frame_spec. unfold sanitized.
  transitivity (id <$> df); [|apply list_fmap_id].
  apply list_fmap_ext. intros i [label s] _. destruct (decide _); [|done].
  cbn [fst snd id]. f_equal. apply sanitize_series_unguarded.
  unfold str_at_label_0. rewrite no_row_labelled_0 by done. apply andb_false_r.
Qed.

(** Two string cells with a dollar sign and a semicolon, in rows
    labelled 1 and 2. *)
Lemma frame_without_row_label_0_is_not_sanitized_witness :
  (_replace_invalid_visum_chars (fun _ => [1%Z; 2%Z]) [0]
     {[0 := [(str "NAME", [VStr (str "a$b"); VStr (str "c;d")])]]}).1 !! 0
  = Some [(str "NAME", [VStr (str "a$b"); VStr (str "c;d")])].
Proof.
  rewrite (frame_without_row_label_0_is_not_sanitized (fun _ => [1%Z; 2%Z]) [0]
             {[0 := [(str "NAME", [VStr (str "a$b"); VStr (str "c;d")])]]} 0).
  - reflexivity.
  - apply (bool_decide_unpack (0%Z ∉ [1%Z; 2%Z])). vm_compute. reflexivity.
Defined.

(** ** The writer on arbitrary inputs *)

Section WriterFacts.

Variable to_csv : DataFrame -> bytes * option error.
Variable os_path_split : string -> string * string.
Variable index_of : ref -> Index.

Lemma write_blocks_ext (h h' : store) (pairs : list (nat * bytes)) :
  (forall r name, (r, name) ∈ pairs -> h !! r = h' !! r) ->
  write_blocks to_csv h pairs = write_blocks to_csv h' pairs.
Proof.
  induction pairs as [|[r name] pairs IH]; intros Hh; [done|].
  cbn [write_blocks]. rewrite (Hh r name) by (by left).
  rewrite IH; [done|]. intros r' name' Hin. apply (Hh r' name'). by right.
Qed.

Lemma write_blocks_app (h : store) (pairs1 pairs2 : list (nat * bytes)) :
  (write_blocks to_csv h pairs1).2 = None ->
  write_blocks to_csv h (pairs1 ++ pairs2)
  = ((write_blocks to_csv h pairs1).1 ++ (write_blocks to_csv h pairs2).1,
     (write_blocks to_csv h pairs2).2).
Proof.
  induction pairs1 as [|[r name] pairs1 IH]; cbn [app write_blocks fst snd].
  - intros _. by destruct (write_blocks to_csv h pairs2).
  - destruct (to_csv _) as [rows [e|]]; [done|].
    destruct (write_blocks to_csv h pairs1) as [more status] eqn:E.
    cbn [fst snd]. intros ->. rewrite IH by done. cbn [fst snd].
    by rewrite <- !app_assoc.
Qed.

(** A call that ends without error had a path with a directory part. *)
Lemma no_error_has_directory (input : export_input) (path_out : string)
    (file_type : bytes) (mode : string) (datetime_string : bytes)
    (h : store) (fs : filesystem) :
  (export_visum_file to_csv os_path_split index_of input path_out file_type mode
                     datetime_string h fs).2 = None ->
  has_directory os_path_split path_out.
Proof.
  rewrite export_result. cbn zeta. unfold has_directory, makedirs_if_missing.
  intros Hok Hempty. rewrite Hempty, bool_decide_true in Hok by done. discriminate.
Qed.

(** X9.  A file written in mode "w" to a path with a directory part
    begins with the byte-order mark, whatever tables are written and
    even if writing a table fails: the encoding detector answers
    "utf-8-sig" for it. *)
Theorem written_file_is_detected_as_utf8
    (input : export_input) (path_out : string) (file_type datetime_string : bytes)
    (h : store) (fs : filesystem) :
  has_directory os_path_split path_out ->
  _get_encoding
    (export_visum_file to_csv os_path_split index_of input path_out file_type "w"
                       datetime_string h fs).1.2
    path_out
  = OK "utf-8-sig"%string.
Proof.
  intros Hdir. rewrite export_mode_w by done. cbn zeta. cbn [fst snd].
  unfold _get_encoding, open_rb. by rewrite lookup_insert_eq.
Qed.

(** X10.  Appending to a file of at least three bytes leaves its first
    three bytes alone, so the encoding detector answers after the call
    what it answered before: text appended to a file without
    byte-order mark is still read as "ansi". *)
Theorem append_keeps_detected_encoding
    (input : export_input) (path_out : string) (file_type datetime_string : bytes)
    (mode : string) (h : store) (fs : filesystem) (existing : bytes) :
  mode = "a+"%string \/ mode = "a"%string ->
  fs !! path_out = Some existing -> 3 <= length existing ->
  _get_encoding
    (export_visum_file to_csv os_path_split index_of input path_out file_type mode
                       datetime_string h fs).1.2
    path_out
  = _get_encoding fs path_out.
Proof.
  intros Hmode Hfs Hlen. rewrite export_result. cbn zeta.
  destruct (makedirs_if_missing _); [done|].
  rewrite open_mode_a by tauto.
  cbn [stream_writable close_stream stream_at_end stream_content].
  rewrite Hfs. cbn [default fst snd]. unfold _get_encoding, open_rb.
  rewrite lookup_insert_eq, Hfs.
  assert (forall text, write_utf8_sig existing text = existing ++ text) as ->
    by (intros text; destruct existing; [cbn in Hlen; lia|done]).
  by rewrite take_app_le by lia.
Qed.

Lemma sanitized_twice_lookup (dfs1 dfs2 : list nat) (h : store) (r : nat) :
  r ∈ dfs1 ->
  (_replace_invalid_visum_chars index_of dfs2
     (_replace_invalid_visum_chars index_of dfs1 h).1).1 !! r
  = (_replace_invalid_visum_chars index_of dfs1 h).1 !! r.
Proof.
  intros Hin. rewrite !sanitize_store_lookup.
  rewrite !(decide_True (P := r ∈ dfs1)) by done.
  destruct (decide (r ∈ dfs2)); [|done].
  destruct (h !! r); cbn; [|done]. by rewrite sanitize_frame_idem.
Qed.

Lemma elem_of_zip_l (l : list nat) (k : list bytes) (r : nat) (name : bytes) :
  (r, name) ∈ zip l k -> r ∈ l.
Proof.
  revert k. induction l as [|x l IH]; intros [|y k] H; cbn in H;
    try (by apply elem_of_nil in H).
  apply elem_of_cons in H as [[= -> ->]|H]; [by left|]. right. by eapply IH.
Qed.

Lemma append_after_header (datetime_string file_type blocks1 blocks2 : bytes) :
  write_utf8_sig (write_utf8_sig [] (file_header datetime_string file_type ++ blocks1))
                 blocks2
  = write_utf8_sig [] (file_header datetime_string file_type ++ blocks1 ++ blocks2).
Proof. unfold file_header. cbn. by rewrite <- !app_assoc. Qed.

(** Tables written in mode "w" and further tables appended: the result
    is that of one call in mode "w" with all of them. *)
Lemma write_then_append
    (dfs1 dfs2 : list nat) (names1 names2 : list bytes) (path_out : string)
    (file_type datetime_string : bytes) (mode : string) (h : store) (fs : filesystem) :
  has_directory os_path_split path_out ->
  mode = "a"%string \/ mode = "a+"%string ->
  length dfs1 = length names1 ->
  (export_visum_file to_csv os_path_split index_of (FrameList dfs1 names1) path_out
                     file_type "w" datetime_string h fs).2 = None ->
  export_visum_file to_csv os_path_split index_of (FrameList dfs2 names2) path_out
    file_type mode datetime_string
    (export_visum_file to_csv os_path_split index_of (FrameList dfs1 names1) path_out
                       file_type "w" datetime_string h fs).1.1
    (export_visum_file to_csv os_path_split index_of (FrameList dfs1 names1) path_out
                       file_type "w" datetime_string h fs).1.2
  = export_visum_file to_csv os_path_split index_of
      (FrameList (dfs1 ++ dfs2) (names1 ++ names2)) path_out
      file_type "w" datetime_string h fs.
Proof.
  intros Hdir Hmode Hlen. rewrite !export_mode_w, export_mode_a by done.
  cbn zeta. cbn [input_frames input_names fst snd].
  set (h1 := (_replace_invalid_visum_chars index_of dfs1 h).1).
  set (h2 := (_replace_invalid_visum_chars index_of dfs2 h1).1).
  assert ((_replace_invalid_visum_chars index_of (dfs1 ++ dfs2) h).1 = h2) as ->
    by (subst h1 h2; unfold _replace_invalid_visum_chars; cbn [fst];
        by rewrite foldl_app).
  assert (write_blocks to_csv h2 (zip dfs1 names1) = write_blocks to_csv h1 (zip dfs1 names1))
    as Hsame.
  { apply write_blocks_ext. intros r name Hin. apply elem_of_zip_l in Hin.
    by apply sanitized_twice_lookup. }
  intros Hok.
  rewrite lookup_insert_eq. cbn [default].
  rewrite zip_with_app by done.
  rewrite write_blocks_app by (by rewrite Hsame).
  rewrite Hsame. cbn [fst snd].
  rewrite insert_insert_eq. unfold id. by rewrite append_after_header.
Qed.

(** X11.  Writing tables in mode "w" and then appending further tables
    to the file in mode "a+" leaves the store, the file and the outcome
    of one call that writes all the tables together, provided the first
    call wrote its tables without error. *)
Theorem append_completes_what_write_began
    (dfs1 dfs2 : list nat) (names1 names2 : list bytes) (path_out : string)
    (file_type datetime_string : bytes) (h : store) (fs : filesystem) :
  length dfs1 = length names1 ->
  (export_visum_file to_csv os_path_split index_of (FrameList dfs1 names1) path_out
                     file_type "w" datetime_string h fs).2 = None ->
  export_visum_file to_csv os_path_split index_of (FrameList dfs2 names2) path_out
    file_type "a+" datetime_string
    (export_visum_file to_csv os_path_split index_of (FrameList dfs1 names1) path_out
                       file_type "w" datetime_string h fs).1.1
    (export_visum_file to_csv os_path_split index_of (FrameList dfs1 names1) path_out
                       file_type "w" datetime_string h fs).1.2
  = export_visum_file to_csv os_path_split index_of
      (FrameList (dfs1 ++ dfs2) (names1 ++ names2)) path_out
      file_type "w" datetime_string h fs.
Proof.
  intros Hlen Hok. apply write_then_append; try done.
  - by eapply no_error_has_directory.
  - by right.
Qed.

(** X12.  Frames beyond the number of names are passed to the sanitizer
    and mutated like the others, but no block is written for them: the
    file and the outcome are those of the call without them. *)
Theorem surplus_frames_are_sanitized_not_written
    (dfs extra : list nat) (names : list bytes) (path_out : string)
    (file_type datetime_string : bytes) (mode : string) (h : store) (fs : filesystem) :
  length dfs = length names ->
  let out := export_visum_file to_csv os_path_split index_of
               (FrameList (dfs ++ extra) names) path_out
               file_type mode datetime_string h fs in
  let out0 := export_visum_file to_csv os_path_split index_of
                (FrameList dfs names) path_out
                file_type mode datetime_string h fs in
  out.1.2 = out0.1.2 /\ out.2 = out0.2
  /\ forall r, r ∈ extra -> out.1.1 !! r = sanitize_frame (index_of r) <$> h !! r.
Proof.
  intros Hlen. cbn zeta.
  assert (let out := export_visum_file to_csv os_path_split index_of
                       (FrameList (dfs ++ extra) names) path_out
                       file_type mode datetime_string h fs in
          let out0 := export_visum_file to_csv os_path_split index_of
                        (FrameList dfs names) path_out
                        file_type mode datetime_string h fs in
          out.1.2 = out0.1.2 /\ out.2 = out0.2) as [Hfile Hstatus].
  { cbn zeta. rewrite !export_result. cbn zeta.
    cbn [input_frames input_names]. unfold export_text.
    assert (zip (dfs ++ extra) names = zip dfs names) as ->.
    { replace (zip (dfs ++ extra) names) with (zip (dfs ++ extra) (names ++ []))
        by (by rewrite app_nil_r).
      rewrite zip_with_app by done. rewrite zip_with_nil_r. apply app_nil_r. }
    assert (write_blocks to_csv
              (_replace_invalid_visum_chars index_of (dfs ++ extra) h).1 (zip dfs names)
            = write_blocks to_csv (_replace_invalid_visum_chars index_of dfs h).1
                (zip dfs names))
      as ->.
    { apply write_blocks_ext. intros r name Hin. apply elem_of_zip_l in Hin.
      rewrite !sanitize_store_lookup, !decide_True; [done|done|].
      apply elem_of_app. by left. }
    destruct (write_blocks to_csv _ (zip dfs names)) as [blocks status].
    destruct (makedirs_if_missing _); [done|].
    destruct (open_for_write fs path_out mode) as [file|e]; [|done].
    by destruct (stream_writable file). }
  split; [done|]. split; [done|].
  intros r Hr. rewrite export_store. cbn [input_frames].
  rewrite sanitize_store_lookup, decide_True; [done|]. apply elem_of_app. by right.
Qed.

(** X17.  For a path without directory part the call raises
    FileNotFoundError in every mode and for every input: the directory
    step comes before the file is opened, so the file system is left as
    it was, while the frames have already been sanitized. *)
Theorem bare_file_name_is_refused
    (input : export_input) (path_out : string) (file_type datetime_string : bytes)
    (mode : string) (h : store) (fs : filesystem) :
  (os_path_split path_out).1 = EmptyString ->
  export_visum_file to_csv os_path_split index_of input path_out file_type mode
                    datetime_string h fs
  = ((_replace_invalid_visum_chars index_of (input_frames input) h).1, fs,
     Some (FileNotFoundError EmptyString)).
Proof.
  intros Hbare. rewrite export_result. cbn zeta. unfold makedirs_if_missing.
  by rewrite Hbare, bool_decide_true.
Qed.

(** X18.  The header block is written for the mode string "w" and for
    no other.  For a path with a directory part, in every other mode
    that opens a writable stream (w+, wt, x, r+, the append modes) the
    text written consists of the table blocks alone: the blocks that
    mode "w" writes after its header, which are empty or begin with
    the table banner. *)
Theorem header_only_for_mode_w
    (input : export_input) (path_out : string) (file_type datetime_string : bytes)
    (mode : string) (h : store) (fs : filesystem) (file : text_stream) :
  has_directory os_path_split path_out ->
  mode <> "w"%string ->
  open_for_write fs path_out mode = OK file -> stream_writable file = true ->
  exists blocks : bytes,
    (export_visum_file to_csv os_path_split index_of input path_out file_type mode
                       datetime_string h fs).1.2 !! path_out
    = Some (close_stream file blocks)
    /\ (export_visum_file to_csv os_path_split index_of input path_out file_type "w"
                          datetime_string h fs).1.2 !! path_out
       = Some (BOM_UTF8 ++ file_header datetime_string file_type ++ blocks)
    /\ (blocks = [] \/ starts_with table_banner blocks = true).
Proof.
  intros Hdir Hmode Hopen Hw.
  exists (write_blocks to_csv
            (_replace_invalid_visum_chars index_of (input_frames input) h).1
            (zip (input_frames input) (input_names input))).1.
  rewrite export_mode_w by done. rewrite export_result. cbn zeta.
  rewrite makedirs_of_directory, Hopen, Hw by done.
  unfold export_text. rewrite bool_decide_false by done.
  pose proof (write_blocks_banner to_csv
                (_replace_invalid_visum_chars index_of (input_frames input) h).1
                (zip (input_frames input) (input_names input))) as Hbanner.
  destruct (write_blocks _ _ _) as [blocks status]. cbn [fst snd app] in *.
  by rewrite !lookup_insert_eq.
Qed.

End WriterFacts.

(** One table written to a path with a directory part. *)
Lemma written_file_is_detected_as_utf8_witness :
  _get_encoding
    (write_file posix_split (fun _ => RangeIndex 1) (OneFrame 0 (str "T"))
                "out/model.net" (str "Net") "w" (str "03/11/2026")
                {[0 := [(str "A", [VStr (str "x")])]]} ∅).1.2
    "out/model.net"
  = OK "utf-8-sig"%string.
Proof.
  apply (written_file_is_detected_as_utf8 csv_encode posix_split (fun _ => RangeIndex 1)
           (OneFrame 0 (str "T")) "out/model.net" (str "Net") (str "03/11/2026")
           {[0 := [(str "A", [VStr (str "x")])]]} ∅).
  vm_compute. discriminate.
Defined.

(** A table is appended to a file of plain bytes: the file is still
    taken for "ansi". *)
Lemma append_keeps_detected_encoding_witness :
  _get_encoding
    (write_file posix_split (fun _ => RangeIndex 1) (OneFrame 0 (str "T"))
                "out/old.net" (str "Net") "a+" (str "03/11/2026")
                {[0 := [(str "A", [VStr (str "x")])]]}
                {[ "out/old.net"%string := text_of_lines ["* old"] ]}).1.2
    "out/old.net"
  = _get_encoding {[ "out/old.net"%string := text_of_lines ["* old"] ]} "out/old.net".
Proof.
  apply (append_keeps_detected_encoding csv_encode posix_split (fun _ => RangeIndex 1)
           (OneFrame 0 (str "T")) "out/old.net"
           (str "Net") (str "03/11/2026") "a+" {[0 := [(str "A", [VStr (str "x")])]]}
           {[ "out/old.net"%string := text_of_lines ["* old"] ]}
           (text_of_lines ["* old"])).
  - by left.
  - reflexivity.
  - vm_compute. lia.
Defined.

(** Two tables written together, and one written and one appended. *)
Lemma append_completes_what_write_began_witness :
  let h : store := {[0 := [(str "A", [VStr (str "x")])]; 1 := [(str "B", [VStr (str "y")])]]} in
  write_file posix_split (fun _ => RangeIndex 1) (FrameList [1] [str "LINK"])
    "out/model.net" (str "Net") "a+" (str "03/11/2026")
    (write_file posix_split (fun _ => RangeIndex 1) (FrameList [0] [str "NODE"])
                "out/model.net" (str "Net") "w" (str "03/11/2026") h ∅).1.1
    (write_file posix_split (fun _ => RangeIndex 1) (FrameList [0] [str "NODE"])
                "out/model.net" (str "Net") "w" (str "03/11/2026") h ∅).1.2
  = write_file posix_split (fun _ => RangeIndex 1)
      (FrameList ([0] ++ [1]) ([str "NODE"] ++ [str "LINK"])) "out/model.net"
      (str "Net") "w" (str "03/11/2026") h ∅.
Proof.
  apply (append_completes_what_write_began csv_encode posix_split
           (fun _ => RangeIndex 1) [0] [1] [str "NODE"] [str "LINK"]
           "out/model.net" (str "Net") (str "03/11/2026")
           {[0 := [(str "A", [VStr (str "x")])]; 1 := [(str "B", [VStr (str "y")])]]} ∅).
  - reflexivity.
  - vm_compute. reflexivity.
Defined.

(** Two frames and one name: the second frame is sanitized, and the
    file is that of the first frame alone. *)
Lemma surplus_frames_are_sanitized_not_written_witness :
  let h : store := {[0 := [(str "A", [VStr (str "x")])]; 1 := [(str "B", [VStr (str "y$")])]]} in
  let out := write_file posix_split (fun _ => RangeIndex 1)
                        (FrameList ([0] ++ [1]) [str "NODE"]) "out/model.net"
                        (str "Net") "w" (str "03/11/2026") h ∅ in
  let out0 := write_file posix_split (fun _ => RangeIndex 1)
                         (FrameList [0] [str "NODE"]) "out/model.net"
                         (str "Net") "w" (str "03/11/2026") h ∅ in
  out.1.2 = out0.1.2 /\ out.2 = out0.2
  /\ forall r, r ∈ [1] -> out.1.1 !! r = sanitize_frame (RangeIndex 1) <$> h !! r.
Proof.
  apply (surplus_frames_are_sanitized_not_written csv_encode posix_split
           (fun _ => RangeIndex 1) [0] [1] [str "NODE"]
           "out/model.net" (str "Net") (str "03/11/2026") "w"
           {[0 := [(str "A", [VStr (str "x")])]; 1 := [(str "B", [VStr (str "y$")])]]} ∅).
  reflexivity.
Defined.

(** A write to the bare name out.net in mode "a+". *)
Lemma bare_file_name_is_refused_witness :
  write_file posix_split (fun _ => RangeIndex 1) (OneFrame 0 (str "T")) "out.net"
             (str "Net") "a+" (str "03/11/2026")
             {[0 := [(str "A", [VStr (str "x;y")])]]} ∅
  = ((_replace_invalid_visum_chars (fun _ => RangeIndex 1)
        (input_frames (OneFrame 0 (str "T")))
        {[0 := [(str "A", [VStr (str "x;y")])]]}).1,
     ∅, Some (FileNotFoundError EmptyString)).
Proof.
  apply (bare_file_name_is_refused csv_encode posix_split (fun _ => RangeIndex 1)
           (OneFrame 0 (str "T")) "out.net" (str "Net") (str "03/11/2026") "a+"
           {[0 := [(str "A", [VStr (str "x;y")])]]} ∅).
  vm_compute. reflexivity.
Defined.

(** Mode "w+" truncates the file like "w" and writes no header. *)
Lemma header_only_for_mode_w_witness :
  let h : store := {[0 := [(str "A", [VStr (str "x")])]]} in
  let fs : filesystem := {[ "out/model.net"%string := text_of_lines ["* old"] ]} in
  exists blocks : bytes,
    (write_file posix_split (fun _ => RangeIndex 1) (OneFrame 0 (str "T"))
                "out/model.net" (str "Net") "w+" (str "03/11/2026") h fs).1.2
      !! "out/model.net"%string
    = Some (close_stream {| stream_content := []; stream_at_end := true;
                            stream_writable := true |} blocks)
    /\ (write_file posix_split (fun _ => RangeIndex 1) (OneFrame 0 (str "T"))
                   "out/model.net" (str "Net") "w" (str "03/11/2026") h fs).1.2
         !! "out/model.net"%string
       = Some (BOM_UTF8 ++ file_header (str "03/11/2026") (str "Net") ++ blocks)
    /\ (blocks = [] \/ starts_with table_banner blocks = true).
Proof.
  apply (header_only_for_mode_w csv_encode posix_split (fun _ => RangeIndex 1)
           (OneFrame 0 (str "T")) "out/model.net" (str "Net") (str "03/11/2026") "w+"
           {[0 := [(str "A", [VStr (str "x")])]]}
           {[ "out/model.net"%string := text_of_lines ["* old"] ]}
           {| stream_content := []; stream_at_end := true; stream_writable := true |}).
  - vm_compute. discriminate.
  - discriminate.
  - reflexivity.
  - reflexivity.
Defined.

(** ** Written files with several tables *)

(** Both sides of an equation between texts, with the appends
    associated to the right. *)
Ltac app_norm := repeat (progress (rewrite <- ?app_assoc; cbn [app])).

Section ScanGeneral.

Variable pd_read_csv : bytes -> result csv_reader.

(** [scan_passes_line] for a map given by an equation, with the fuel
    that is left. *)
Lemma scan_passes_line_fuel (fuel : nat) (name : bytes) (names : list bytes)
    (content pre mid l rest : bytes) (found : list bool) (tables : list DataFrame) :
  content = pre ++ mid ++ dollar :: l ++ nl :: rest ->
  false ∈ found -> dollar ∉ mid -> nl ∉ l ->
  header_matches name (dollar :: l ++ [nl]) = false ->
  length content - length pre < fuel ->
  exists fuel',
    scan_blocks pd_read_csv fuel (name :: names)
      {| found_block := found; data := tables;
         file_map := {| mm_data := content; mm_pos := length pre |} |}
    = scan_blocks pd_read_csv fuel' (name :: names)
        {| found_block := found; data := tables;
           file_map := {| mm_data := content;
                          mm_pos := length (pre ++ mid ++ dollar :: l ++ [nl]) |} |}
    /\ length content - length (pre ++ mid ++ dollar :: l ++ [nl]) < fuel'.
Proof.
  intros -> Hf Hmid Hl Hm Hfuel. destruct fuel as [|fuel]; [lia|].
  exists fuel. split; [by apply scan_passes_line|].
  revert Hfuel. rewrite !length_app. cbn [length]. rewrite !length_app. cbn [length]. lia.
Qed.

(** The scan passes over any number of blocks that the name does not
    match and that hold no dollar sign outside their header lines. *)
Lemma scan_passes_blocks (name : bytes) (blocks : list (bytes * bytes * bytes))
    (found : list bool) (tables : list DataFrame) (content rest : bytes) :
  false ∈ found ->
  Forall (fun b : bytes * bytes * bytes =>
            (dollar ∉ b.1.1) /\ (dollar ∉ b.2) /\ (nl ∉ b.1.2)
            /\ header_matches name (dollar :: b.1.2 ++ [nl]) = false) blocks ->
  forall (fuel : nat) (pre mid : bytes),
  content = pre ++ mid ++ passed_text blocks ++ rest ->
  dollar ∉ mid -> length content - length pre < fuel ->
  exists fuel' pre' mid',
    scan_blocks pd_read_csv fuel [name]
      {| found_block := found; data := tables;
         file_map := {| mm_data := content; mm_pos := length pre |} |}
    = scan_blocks pd_read_csv fuel' [name]
        {| found_block := found; data := tables;
           file_map := {| mm_data := content; mm_pos := length pre' |} |}
    /\ content = pre' ++ mid' ++ rest
    /\ (dollar ∉ mid')
    /\ length content - length pre' < fuel'.
Proof.
  intros Hf Hall. induction Hall as [|[[banner l] rows] blocks (Hb & Hr & Hl & Hm) _ IH];
    intros fuel pre mid Hc Hmid Hfuel.
  - exists fuel, pre, mid. by repeat split.
  - cbn [fst snd] in *.
    destruct (scan_passes_line_fuel fuel name [] content pre (mid ++ banner) l
                (rows ++ passed_text blocks ++ rest) found tables)
      as (fuel1 & -> & Hfuel1); try done.
    + rewrite Hc. unfold passed_text. cbn [fmap list_fmap concat fst snd].
      by app_norm.
    + rewrite elem_of_app. tauto.
    + destruct (IH fuel1 (pre ++ (mid ++ banner) ++ dollar :: l ++ [nl]) rows)
        as (fuel' & pre' & mid' & -> & Hc' & Hmid' & Hfuel'); try done.
      * rewrite Hc. unfold passed_text. cbn [fmap list_fmap concat fst snd].
        by app_norm.
      * by exists fuel', pre', mid'.
Qed.

(** The terminator search over rows in which a semicolon follows
    every asterisk, the rows being followed by the end of the file or
    by a line that begins with an asterisk and has no semicolon: the
    search passes over the asterisks of the rows and stops where the
    rows end. *)
Lemma find_terminator_guarded (fuel : nat) (pre body tail : bytes) :
  guarded body ->
  (tail = [] \/ exists t rest, tail = star :: t ++ nl :: rest
                               /\ (semicolon ∉ t) /\ (nl ∉ t)) ->
  length body < fuel ->
  exists o m1,
    find_terminator fuel {| mm_data := pre ++ body ++ tail; mm_pos := length pre |}
      (mm_find [star] {| mm_data := pre ++ body ++ tail; mm_pos := length pre |})
    = Some (o, m1)
    /\ mm_data m1 = pre ++ body ++ tail
    /\ default (mm_size m1) o = length (pre ++ body).
Proof.
  revert pre body. induction fuel as [|fuel IH]; intros pre body Hg Htail Hfuel; [lia|].
  destruct (decide (star ∈ body)) as [Hin|Hin].
  - apply list_elem_of_split_l in Hin as (b1 & q & -> & Hb1).
    destruct (Hg b1 q eq_refl) as (t & rest & -> & Hnl & Hsemi).
    replace (pre ++ (b1 ++ star :: t ++ nl :: rest) ++ tail)
      with (pre ++ b1 ++ star :: (t ++ nl :: rest ++ tail)) by (by app_norm).
    rewrite mm_find_at by done. cbn [find_terminator].
    replace (length pre + length b1) with (length (pre ++ b1)) by apply length_app.
    replace (pre ++ b1 ++ star :: (t ++ nl :: rest ++ tail))
      with ((pre ++ b1) ++ (star :: t) ++ nl :: (rest ++ tail)) by (by app_norm).
    rewrite mm_readline_at by (apply not_elem_of_cons; done).
    change ((star :: t) ++ [nl]) with (star :: t ++ [nl]).
    destruct (find_sub [semicolon] (star :: t ++ [nl])) as [k|] eqn:Hk.
    2:{ apply find_sub_none_absent in Hk. destruct Hk.
        rewrite elem_of_cons, elem_of_app. tauto. }
    rewrite bool_decide_false by done. cbn [andb].
    set (pre2 := (pre ++ b1) ++ star :: t ++ [nl]).
    replace ((pre ++ b1) ++ (star :: t) ++ nl :: (rest ++ tail))
      with (pre2 ++ rest ++ tail) by (subst pre2; by app_norm).
    change (length ((pre ++ b1) ++ star :: t ++ [nl])) with (length pre2).
    destruct (IH pre2 rest) as (o & m1 & -> & Hd & Ho).
    + intros p q Hq. apply (Hg (b1 ++ star :: t ++ nl :: p) q).
      rewrite Hq. by app_norm.
    + done.
    + revert Hfuel. rewrite !length_app. cbn [length]. rewrite !length_app.
      cbn [length]. lia.
    + exists o, m1. split; [done|]. split; [done|]. rewrite Ho. subst pre2.
      rewrite !length_app. cbn [length]. rewrite !length_app. cbn [length]. lia.
  - destruct Htail as [->|(t & rest & -> & Hsemi & Hnl)].
    + eexists _, _. split.
      * rewrite mm_find_none by (rewrite app_nil_r; done). reflexivity.
      * cbn [mm_data default]. unfold mm_size. cbn [mm_data].
        by rewrite app_nil_r.
    + eexists _, _. split.
      * rewrite mm_find_at by done. cbn [find_terminator].
        replace (length pre + length body) with (length (pre ++ body))
          by apply length_app.
        replace (pre ++ body ++ star :: t ++ nl :: rest)
          with ((pre ++ body) ++ (star :: t) ++ nl :: rest) by (by app_norm).
        rewrite mm_readline_at by (apply not_elem_of_cons; done).
        change ((star :: t) ++ [nl]) with (star :: t ++ [nl]).
        assert (find_sub [star] (star :: t ++ [nl]) = Some 0) as ->
          by (cbn [find_sub starts_with]; by rewrite Ascii.eqb_refl).
        assert (find_sub [semicolon] (star :: t ++ [nl]) = None) as ->.
        { apply find_sub_char_none.
          rewrite elem_of_cons, elem_of_app, list_elem_of_singleton.
          intros [?|[?|?]]; done. }
        rewrite bool_decide_true by done. rewrite bool_decide_true by tauto.
        cbn [andb]. reflexivity.
      * cbn [mm_data default]. split; [|done]. by app_norm.
Qed.

(** The block of the only requested name, in its rows a semicolon
    after every asterisk, followed by the end of the file or by a line
    that begins with an asterisk and has no semicolon: the decoder is
    given the bytes from the dollar sign to the end of the rows, and
    its answer is the answer of the scan. *)
Lemma scan_reads_block (fuel : nat) (name content pre mid l body tail : bytes) :
  content = pre ++ mid ++ dollar :: l ++ nl :: body ++ tail ->
  dollar ∉ mid -> nl ∉ l -> guarded body ->
  (tail = [] \/ exists t rest, tail = star :: t ++ nl :: rest
                               /\ (semicolon ∉ t) /\ (nl ∉ t)) ->
  header_matches name (dollar :: l ++ [nl]) = true ->
  length content - length pre < fuel ->
  match scan_blocks pd_read_csv fuel [name]
          {| found_block := [false]; data := [empty_frame];
             file_map := {| mm_data := content; mm_pos := length pre |} |}
  with
  | Some (OK st') => Some (OK (Table (default empty_frame (data st' !! 0))))
  | Some (Raise e) => Some (Raise e)
  | None => None
  end = block_outcome pd_read_csv name (dollar :: l ++ nl :: body).
Proof.
  intros -> Hmid Hl Hbody Htail Hm Hfuel. destruct fuel as [|fuel]; [lia|]. clear Hfuel.
  cbn [scan_blocks found_block data file_map].
  rewrite bool_decide_true by (by left). cbn [negb].
  rewrite mm_find_at by done.
  replace (length pre + length mid) with (length (pre ++ mid)) by apply length_app.
  replace (pre ++ mid ++ dollar :: l ++ nl :: body ++ tail)
    with ((pre ++ mid) ++ (dollar :: l) ++ nl :: body ++ tail)
    by (by rewrite <- app_assoc).
  rewrite mm_readline_at by (apply not_elem_of_cons; done).
  cbn [match_names]. change ((dollar :: l) ++ [nl]) with (dollar :: l ++ [nl]).
  rewrite Hm. cbn [negb]. unfold read_block. cbn [file_map found_block data].
  set (head := (pre ++ mid) ++ (dollar :: l) ++ [nl]).
  set (span := dollar :: l ++ nl :: body).
  assert ((pre ++ mid) ++ (dollar :: l) ++ nl :: body ++ tail = head ++ body ++ tail)
    as Hshape by (subst head; by rewrite <- !app_assoc).
  assert (head ++ body ++ tail = (pre ++ mid) ++ span ++ tail) as Hshape2
    by (subst head span; rewrite <- !app_assoc; cbn; by rewrite <- !app_assoc).
  assert (forall m, mm_data m = head ++ body ++ tail ->
    (mm_read (length (head ++ body) - length (pre ++ mid))
             (mm_seek (length (pre ++ mid)) m)).1 = span) as Hread.
  { intros m Hd. unfold mm_read, mm_seek. cbn [fst mm_data mm_pos].
    rewrite Hd, Hshape2, drop_app_length.
    replace (length (head ++ body) - length (pre ++ mid)) with (length span)
      by (subst head span; rewrite !length_app; cbn [length];
          rewrite !length_app; cbn [length]; lia).
    by rewrite take_app_length. }
  rewrite Hshape.
  change (length ((pre ++ mid) ++ dollar :: l ++ [nl])) with (length head).
  destruct (find_terminator_guarded
              (S (mm_size {| mm_data := head ++ body ++ tail; mm_pos := length head |}))
              head body tail Hbody Htail) as (o & m1 & -> & Hd1 & Ho).
  { unfold mm_size. cbn [mm_data]. rewrite !length_app. lia. }
  rewrite Ho. pose proof (Hread m1 Hd1) as Hs.
  destruct (mm_read _ (mm_seek (length (pre ++ mid)) m1)) as [span' m2] eqn:Hrd.
  cbn [fst] in Hs. subst span'.
  unfold block_outcome, _read_csv_file.
  assert (forall f (st : scan_state), found_block st = [true] ->
    scan_blocks pd_read_csv f [name] st = Some (OK st)) as Hdone.
  { intros f st Hst. destruct f; cbn [scan_blocks]; rewrite Hst;
      rewrite bool_decide_false by (by intros [=]%list_elem_of_singleton); done. }
  destruct (pd_read_csv span) as [[df_block|chunks]|e]; [| |done].
  - rewrite Hdone by done. done.
  - destruct (pd_concat chunks) as [df_block|e]; [|done].
    rewrite Hdone by done. done.
Qed.

End ScanGeneral.

Lemma repr_byte_no_dollar (c : ascii) :
  Ascii.eqb c dollar = false ->
  contains [dollar] (repr_byte squote c) = false
  /\ contains [dollar] (repr_byte dquote c) = false.
Proof.
  destruct c as [[] [] [] [] [] [] [] []]; vm_compute; intros H; try discriminate H;
    split; reflexivity.
Qed.

Lemma repr_no_dollar (q : ascii) (s : bytes) :
  q = squote \/ q = dquote -> dollar ∉ s -> dollar ∉ flat_map (repr_byte q) s.
Proof.
  intros Hq Hs Hin. apply list_elem_of_In, in_flat_map in Hin as (c & Hc & Hin).
  apply list_elem_of_In in Hc, Hin.
  assert (Ascii.eqb c dollar = false) as E
    by (apply Ascii.eqb_neq; intros ->; done).
  destruct (repr_byte_no_dollar c E) as [H1 H2].
  apply contains_char in Hin. destruct Hq as [->| ->]; congruence.
Qed.

(** The header line of a block written under another name does not
    match. *)
Lemma other_line_matches_not (name name' rest : bytes) :
  forallb name_char name = true -> forallb name_char name' = true ->
  name <> name' -> dollar ∉ rest ->
  header_matches name (dollar :: name' ++ colon :: rest) = false.
Proof.
  intros Hn Hn' Hne Hrest. unfold header_matches, bytes_repr.
  set (q := repr_quote _).
  assert (q = squote \/ q = dquote) as Hq
    by (subst q; unfold repr_quote; destruct (_ && _); tauto).
  change (dollar :: name' ++ colon :: rest) with ([dollar] ++ name' ++ [colon] ++ rest).
  rewrite !flat_map_app, (repr_name q name' Hq Hn').
  assert (flat_map (repr_byte q) [dollar] = [dollar]
          /\ flat_map (repr_byte q) [colon] = [colon]) as [-> ->]
    by (destruct Hq as [->| ->]; split; reflexivity).
  replace ("b"%char :: q :: ([dollar] ++ name' ++ [colon] ++ flat_map (repr_byte q) rest)
           ++ [q])
    with (["b"%char; q] ++ dollar :: (name' ++ colon :: (flat_map (repr_byte q) rest ++ [q])))
    by (cbn; by rewrite <- !app_assoc).
  apply not_true_iff_false. intros H.
  rewrite contains_after_dollar in H.
  - apply starts_with_name_colon in H; [done| |].
    + by apply (name_char_free name).
    + by apply (name_char_free name').
  - rewrite !elem_of_cons. intros [?|[?|H']]; [done| |by apply elem_of_nil in H'].
    destruct Hq as [->| ->]; done.
  - rewrite elem_of_app, elem_of_cons, elem_of_app, list_elem_of_singleton.
    pose proof (name_char_free name' dollar Hn' eq_refl).
    pose proof (repr_no_dollar q rest Hq Hrest).
    intros [?|[?|[?|?]]]; try done. destruct Hq as [->| ->]; done.
Qed.

Lemma encoded_rows_no_dollar (df : DataFrame) :
  clean_table df = true -> dollar ∉ (csv_encode df).1.
Proof.
  intros Hclean.
  destruct (clean_table_parts df Hclean) as (label & s & rest & Hdf & Hall).
  pose proof (frame_row_texts df (length s) Hall) as Hrows.
  unfold csv_encode. cbn [fst]. subst df.
  change (frame_rows ((label, s) :: rest)) with
    ((fun i => (fun p : bytes * Series => default VNaN (p.2 !! i)) <$> (label, s) :: rest)
       <$> seq 0 (length s)).
  revert Hrows. generalize
    ((fun i => (fun p : bytes * Series => default VNaN (p.2 !! i)) <$> (label, s) :: rest)
       <$> seq 0 (length s)).
  intros rows Hrows. induction Hrows as [|row rows [_ Hrow] _ IH];
    [apply not_elem_of_nil|].
  cbn [fmap list_fmap concat]. rewrite !elem_of_app, list_elem_of_singleton.
  intros [[H|H]|H]; [|done|done]. revert H.
  apply not_elem_of_join; [by apply contains_char_false|].
  eapply Forall_impl; [exact Hrow|]. intros t Ht. by apply (clean_text_free t dollar).
Qed.

Lemma block_text_as_passed (p : DataFrame * bytes) :
  block_text p = (as_passed p).1.1 ++ dollar :: (as_passed p).1.2 ++ nl :: (as_passed p).2.
Proof.
  unfold block_text, as_passed, block_header, table_banner. cbn [fst snd].
  by app_norm.
Qed.

Lemma blocks_as_passed (l : list (DataFrame * bytes)) :
  concat (block_text <$> l) = passed_text (as_passed <$> l).
Proof.
  unfold passed_text. rewrite <- list_fmap_compose. f_equal.
  apply list_fmap_ext. intros _ p _. apply block_text_as_passed.
Qed.

(** What the writer emits for clean tables held by the store. *)
Lemma write_blocks_clean (h : store) (refs : list nat) (dfs : list DataFrame)
    (names : list bytes) :
  Forall2 (fun r df => h !! r = Some df) refs dfs ->
  write_blocks csv_encode h (zip refs names)
  = (concat (block_text <$> zip dfs names), None).
Proof.
  intros Hlook. revert names. induction Hlook as [|r df refs dfs Hr _ IH];
    intros [|name names]; try done.
  cbn [zip zip_with write_blocks fmap list_fmap concat]. rewrite Hr. cbn [default].
  unfold id. change (csv_encode df) with ((csv_encode df).1, @None error) at 1.
  cbn beta iota. rewrite IH.
  unfold block_text. cbn [fst snd]. by rewrite <- ?app_assoc.
Qed.

Lemma sanitized_clean_lookup (index_of : ref -> Index) (refs : list nat)
    (dfs : list DataFrame) (h : store) :
  Forall2 (fun r df => h !! r = Some df) refs dfs ->
  Forall (fun df => clean_table df = true) dfs ->
  Forall2 (fun r df => (_replace_invalid_visum_chars index_of refs h).1 !! r = Some df)
          refs dfs.
Proof.
  intros Hlook Hclean.
  assert (forall r df, h !! r = Some df -> clean_table df = true ->
            (_replace_invalid_visum_chars index_of refs h).1 !! r = Some df) as Hone.
  { intros r df Hr Hc. rewrite sanitize_store_lookup, Hr.
    destruct (decide _); [|done]. cbn. by rewrite sanitize_frame_clean. }
  revert Hone. generalize (_replace_invalid_visum_chars index_of refs h).1.
  intros h' Hone.
  induction Hlook as [|r df refs' dfs Hr _ IH]; [constructor|].
  apply Forall_cons in Hclean as [Hc Hclean]. constructor; [by apply Hone|by apply IH].
Qed.

Lemma written_tables_shape (datetime_string file_type blocks : bytes) :
  write_utf8_sig [] (file_header datetime_string file_type ++ blocks)
  = [] ++ BOM_UTF8 ++ dollar :: str "VISION"
       ++ nl :: ((str "* " ++ datetime_string ++ [nl])
                 ++ dollar :: str "VERSION:VERSNR;FILETYPE;LANGUAGE;UNIT"
                 ++ nl :: (nl :: str "10.000;" ++ file_type ++ str ";ENG;KM" ++ [nl; nl])
                 ++ blocks).
Proof.
  unfold file_header. cbn. app_norm. reflexivity.
Qed.

(** Reading one table of a file written with several clean tables
    under distinct clean names: the decoder is given the bytes of that
    block and nothing else. *)
Lemma read_block_of_written_file
    (pd_read_csv : bytes -> result csv_reader)
    (os_path_split : string -> string * string) (index_of : ref -> Index)
    (h : store) (fs : filesystem) (refs : list nat) (dfs : list DataFrame)
    (names : list bytes) (file_type datetime_string : bytes) (path : string)
    (i : nat) (df : DataFrame) (name : bytes) :
  has_directory os_path_split path ->
  Forall2 (fun r df => h !! r = Some df) refs dfs ->
  Forall (fun df => clean_table df = true) dfs ->
  Forall (fun n => clean_name n = true) names -> NoDup names ->
  dollar ∉ file_type -> dollar ∉ datetime_string ->
  dfs !! i = Some df -> names !! i = Some name ->
  read_visum_file pd_read_csv
    (write_file os_path_split index_of (FrameList refs names) path file_type "w"
                datetime_string h fs).1.2
    path (Name name)
  = block_outcome pd_read_csv name (block_span df name).
Proof.
  intros Hdir Hlook Hclean Hnames Hdup Hft Hdt Hdf Hname.
  unfold write_file. rewrite export_mode_w by done. cbn zeta.
  cbn [input_frames input_names].
  rewrite (write_blocks_clean _ refs dfs names)
    by (by apply sanitized_clean_lookup).
  cbn [fst snd].
  (* the tables before the block, the block and the tables after it *)
  assert (zip dfs names !! i = Some (df, name)) as Hi
    by (apply lookup_zip_with_Some; eauto).
  rewrite <- (take_drop_middle (zip dfs names) i (df, name) Hi).
  set (before := take i (zip dfs names)).
  set (after := drop (S i) (zip dfs names)).
  assert (forall p, p ∈ zip dfs names ->
            clean_table p.1 = true /\ clean_name p.2 = true) as Hpairs.
  { intros [d n] Hp. apply list_elem_of_lookup in Hp as [j Hj].
    apply lookup_zip_with_Some in Hj as (d' & n' & [= -> ->] & Hd & Hn).
    split.
    - eapply Forall_forall in Hclean; [done|]. by eapply list_elem_of_lookup_2.
    - eapply Forall_forall in Hnames; [done|]. by eapply list_elem_of_lookup_2. }
  destruct (Hpairs (df, name)) as [Hcdf Hcname];
    [by eapply list_elem_of_lookup_2|]. cbn [fst snd] in Hcdf, Hcname.
  pose proof Hcname as Hchars. unfold clean_name in Hchars.
  apply andb_true_iff in Hchars as [Hchars _].
  assert (Forall (fun b : bytes * bytes * bytes =>
            (dollar ∉ b.1.1) /\ (dollar ∉ b.2) /\ (nl ∉ b.1.2)
            /\ header_matches name (dollar :: b.1.2 ++ [nl]) = false)
            (as_passed <$> before)) as Hbefore.
  { apply Forall_fmap, Forall_forall. intros [d n] Hp. unfold compose, as_passed. cbn [fst snd].
    assert (exists j, j < i /\ zip dfs names !! j = Some (d, n)) as (j & Hj & Hjz).
    { subst before. apply list_elem_of_lookup in Hp as [j Hp].
      apply lookup_take_Some in Hp as [Hp Hj]. eauto. }
    destruct (Hpairs (d, n)) as [Hcd Hcn]; [by eapply list_elem_of_lookup_2|].
    cbn [fst snd] in Hcd, Hcn.
    pose proof Hcn as Hnc. unfold clean_name in Hnc.
    apply andb_true_iff in Hnc as [Hnc _].
    pose proof (name_char_free n dollar Hnc eq_refl) as Hnd.
    split; [|split; [|split]].
    - unfold table_banner. rewrite !elem_of_app.
      intros H. repeat match goal with H : _ \/ _ |- _ => destruct H as [H|H] end;
        try done; apply contains_char in H; discriminate H.
    - by apply encoded_rows_no_dollar.
    - by apply header_line_no_newline.
    - rewrite <- app_assoc. apply other_line_matches_not; try done.
      + intros ->.
        apply lookup_zip_with_Some in Hjz as (d' & n' & [= -> ->] & _ & Hn).
        pose proof (NoDup_lookup names j i _ Hdup Hn Hname). lia.
      + rewrite elem_of_app, list_elem_of_singleton. intros [H|H]; [|done].
        revert H. rewrite upper_join. apply not_elem_of_join;
          [by apply contains_char_false|].
        destruct (clean_table_parts d Hcd) as (label & s & rest & _ & Hall).
        unfold columns. apply Forall_fmap, Forall_fmap.
        eapply Forall_impl; [exact Hall|]. intros p (_ & Hp' & _). cbn.
        apply (clean_text_free _ dollar); [|done]. by rewrite clean_text_upper. }
  assert (concat (block_text <$> after) = []
          \/ exists t rest, concat (block_text <$> after) = star :: t ++ nl :: rest
                            /\ (semicolon ∉ t) /\ (nl ∉ t)) as Htail.
  { destruct after as [|p after']; [by left|right].
    exists [], (str "* Table: " ++ p.2 ++ [nl] ++ str "*" ++ [nl]
                ++ [dollar] ++ p.2 ++ [colon] ++ upper (join (str ";") (columns p.1))
                ++ [nl] ++ (csv_encode p.1).1 ++ concat (block_text <$> after')).
    split; [|split; apply not_elem_of_nil].
    cbn [fmap list_fmap concat]. unfold block_text at 1, block_header.
    app_norm. reflexivity. }
  rewrite fmap_app, concat_app, fmap_cons. cbn [concat].
  rewrite blocks_as_passed, block_text_as_passed. unfold as_passed at 2 3 4. cbn [fst snd].
  set (banner := table_banner ++ name ++ [nl] ++ str "*" ++ [nl]).
  set (l := name ++ colon :: upper (join (str ";") (columns df))).
  set (rows := (csv_encode df).1).
  set (tail := concat (block_text <$> after)) in *.
  rewrite written_tables_shape.
  set (mid3 := nl :: str "10.000;" ++ file_type ++ str ";ENG;KM" ++ [nl; nl]).
  set (l2 := str "VERSION:VERSNR;FILETYPE;LANGUAGE;UNIT").
  set (mid2 := str "* " ++ datetime_string ++ [nl]).
  set (target := (banner ++ dollar :: l ++ nl :: rows) ++ tail).
  remember ([] ++ BOM_UTF8 ++ dollar :: str "VISION"
               ++ nl :: mid2 ++ dollar :: l2 ++ nl :: mid3
               ++ passed_text (as_passed <$> before) ++ target)
    as content eqn:Hcontent.
  unfold read_visum_file, _bom_aware_open, _get_encoding, open_rb.
  rewrite lookup_insert_eq.
  replace (mmap_open content) with (OK {| mm_data := content; mm_pos := 0 |})
    by (subst content; done).
  cbn [replicate length].
  change {| mm_data := content; mm_pos := 0 |}
    with {| mm_data := content; mm_pos := length (@nil ascii) |}.
  (* the two dollar lines of the file header *)
  destruct (scan_passes_line_fuel pd_read_csv
              (S (mm_size {| mm_data := content; mm_pos := length (@nil ascii) |}))
              name [] content [] BOM_UTF8 (str "VISION")
              (mid2 ++ dollar :: l2 ++ nl :: mid3
               ++ passed_text (as_passed <$> before) ++ target)
              [false] [empty_frame]) as (fuel1 & -> & Hfuel1).
  { exact Hcontent. }
  { by left. }
  { apply contains_char_false. reflexivity. }
  { apply contains_char_false. reflexivity. }
  { apply vision_line_matches_no_name. }
  { unfold mm_size. cbn. lia. }
  set (P1 := [] ++ BOM_UTF8 ++ dollar :: str "VISION" ++ [nl]) in *.
  destruct (scan_passes_line_fuel pd_read_csv fuel1 name [] content P1 mid2 l2
              (mid3 ++ passed_text (as_passed <$> before) ++ target)
              [false] [empty_frame]) as (fuel2 & -> & Hfuel2).
  { rewrite Hcontent. subst P1. by app_norm. }
  { by left. }
  { subst mid2. rewrite !elem_of_app, list_elem_of_singleton.
    intros [H|[H|H]]; [|done|done]. apply contains_char in H. discriminate. }
  { apply contains_char_false. reflexivity. }
  { by apply version_line_matches_no_clean_name. }
  { exact Hfuel1. }
  set (P2 := P1 ++ mid2 ++ dollar :: l2 ++ [nl]) in *.
  (* the tables before the block *)
  destruct (scan_passes_blocks pd_read_csv name (as_passed <$> before)
              [false] [empty_frame] content target) with
    (fuel := fuel2) (pre := P2) (mid := mid3)
    as (fuel3 & pre' & mid' & -> & Hc' & Hmid' & Hfuel3).
  { by left. }
  { exact Hbefore. }
  { rewrite Hcontent. subst P2 P1. by app_norm. }
  { subst mid3. rewrite elem_of_cons, !elem_of_app.
    intros H. repeat match goal with H : _ \/ _ |- _ => destruct H as [H|H] end;
      try done; try discriminate H; apply contains_char in H; discriminate H. }
  { exact Hfuel2. }
  (* the block itself *)
  apply (scan_reads_block pd_read_csv fuel3 name content pre' (mid' ++ banner)
           l rows tail).
  - rewrite Hc'. subst target. by app_norm.
  - rewrite elem_of_app. intros [H|H]; [done|]. revert H. subst banner.
    unfold table_banner. rewrite !elem_of_app.
    pose proof (name_char_free name dollar Hchars eq_refl) as Hnd.
    intros H. repeat match goal with H : _ \/ _ |- _ => destruct H as [H|H] end;
      try done; apply contains_char in H; discriminate H.
  - by apply header_line_no_newline.
  - by apply encoded_rows_guarded.
  - done.
  - subst l. rewrite <- app_assoc. by apply own_line_matches.
  - done.
Qed.

(** The decoder of the model on the bytes of a written block. *)
Lemma decode_written_block (df : DataFrame) (name : bytes) :
  clean_table df = true -> forallb name_char name = true ->
  block_outcome csv_decode name (block_span df name)
  = Some (OK (Table (read_back df))).
Proof.
  intros Hc Hchars. unfold block_outcome, block_span.
  replace (dollar :: (name ++ colon :: upper (join (str ";") (columns df)))
           ++ nl :: (csv_encode df).1)
    with ((dollar :: name ++ [colon]) ++ upper (join (str ";") (columns df)) ++ [nl]
          ++ (csv_encode df).1) by (by app_norm).
  rewrite csv_decode_encode.
  - by rewrite strip_prefix_read_back.
  - done.
  - rewrite elem_of_app, list_elem_of_singleton. intros [H|H]; [|done].
    by apply (name_char_free name semicolon Hchars).
  - rewrite elem_of_app, list_elem_of_singleton. intros [H|H]; [|done].
    by apply (name_char_free name nl Hchars).
Qed.

(** A call that writes clean tables held by the store ends without
    error and leaves every clean table of the store as it was. *)
Lemma clean_tables_written
    (os_path_split : string -> string * string) (index_of : ref -> Index)
    (h : store) (fs : filesystem) (input : export_input) (dfs : list DataFrame)
    (file_type datetime_string : bytes) (mode path : string) :
  has_directory os_path_split path ->
  mode = "w"%string \/ mode = "a"%string \/ mode = "a+"%string ->
  Forall2 (fun r df => h !! r = Some df) (input_frames input) dfs ->
  Forall (fun df => clean_table df = true) dfs ->
  let out := write_file os_path_split index_of input path file_type mode
                        datetime_string h fs in
  out.2 = None
  /\ forall r df, h !! r = Some df -> clean_table df = true -> out.1.1 !! r = Some df.
Proof.
  intros Hdir Hmode Hlook Hclean. cbn zeta. unfold write_file. split.
  - destruct Hmode as [->|Hmode].
    + rewrite export_mode_w by done. cbn zeta. cbn [snd].
      by rewrite (write_blocks_clean _ (input_frames input) dfs)
        by (by apply sanitized_clean_lookup).
    + rewrite export_mode_a by done. cbn zeta. cbn [snd].
      by rewrite (write_blocks_clean _ (input_frames input) dfs)
        by (by apply sanitized_clean_lookup).
  - intros r df Hr Hc. rewrite export_store, sanitize_store_lookup, Hr.
    destruct (decide _); [|done]. cbn. by rewrite sanitize_frame_clean.
Qed.

(** A single frame is written as the list of that one frame. *)
Lemma one_frame_is_list
    (to_csv : DataFrame -> bytes * option error)
    (os_path_split : string -> string * string) (index_of : ref -> Index)
    (r : nat) (name file_type datetime_string : bytes) (mode path : string)
    (h : store) (fs : filesystem) :
  export_visum_file to_csv os_path_split index_of (OneFrame r name) path file_type
                    mode datetime_string h fs
  = export_visum_file to_csv os_path_split index_of (FrameList [r] [name]) path
                      file_type mode datetime_string h fs.
Proof. by rewrite !export_result. Qed.

(** Reading the one table of a file that an append mode began: the
    file holds the byte-order mark and the block, without header. *)
Lemma read_block_of_begun_file
    (os_path_split : string -> string * string) (index_of : ref -> Index)
    (h : store) (fs : filesystem) (r : nat) (df : DataFrame)
    (name file_type datetime_string : bytes) (mode path : string) :
  has_directory os_path_split path ->
  mode = "a"%string \/ mode = "a+"%string ->
  default [] (fs !! path) = [] ->
  h !! r = Some df -> clean_table df = true -> clean_name name = true ->
  read_file
    (write_file os_path_split index_of (OneFrame r name) path file_type mode
                datetime_string h fs).1.2
    path (Name name)
  = Some (OK (Table (read_back df))).
Proof.
  intros Hdir Hmode Hfs Hr Hclean Hname.
  pose proof Hname as Hchars. unfold clean_name in Hchars.
  apply andb_true_iff in Hchars as [Hchars _].
  unfold write_file. rewrite export_mode_a by done. cbn zeta.
  cbn [input_frames input_names fst snd]. rewrite Hfs.
  rewrite (write_blocks_clean _ [r] [df] [name]).
  2:{ apply sanitized_clean_lookup; (constructor; [done|constructor]). }
  cbn [zip zip_with fmap list_fmap concat fst]. rewrite app_nil_r.
  rewrite block_text_as_passed. unfold as_passed. cbn [fst snd].
  set (banner := table_banner ++ name ++ [nl] ++ str "*" ++ [nl]).
  set (l := name ++ colon :: upper (join (str ";") (columns df))).
  set (rows := (csv_encode df).1).
  remember ([] ++ (BOM_UTF8 ++ banner) ++ dollar :: l ++ nl :: rows ++ [])
    as content eqn:Hcontent.
  assert (write_utf8_sig [] (banner ++ dollar :: l ++ nl :: rows) = content) as ->.
  { rewrite Hcontent. subst banner. unfold table_banner, write_utf8_sig.
    change (str "*") with [star]. cbn [app]. rewrite app_nil_r. by app_norm. }
  unfold read_file, read_visum_file, _bom_aware_open, _get_encoding, open_rb.
  rewrite lookup_insert_eq.
  replace (mmap_open content) with (OK {| mm_data := content; mm_pos := 0 |})
    by (subst content; done).
  cbn [replicate length].
  change {| mm_data := content; mm_pos := 0 |}
    with {| mm_data := content; mm_pos := length (@nil ascii) |}.
  rewrite <- (decode_written_block df name Hclean Hchars).
  apply (scan_reads_block csv_decode _ name content [] (BOM_UTF8 ++ banner) l rows []).
  - exact Hcontent.
  - subst banner. unfold table_banner. rewrite !elem_of_app.
    pose proof (name_char_free name dollar Hchars eq_refl) as Hnd.
    intros H. repeat match goal with H : _ \/ _ |- _ => destruct H as [H|H] end;
      try done; apply contains_char in H; discriminate H.
  - by apply header_line_no_newline.
  - by apply encoded_rows_guarded.
  - by left.
  - subst l. rewrite <- app_assoc. by apply own_line_matches.
  - unfold mm_size. cbn. lia.
Qed.

(** ** Files of several tables *)

(** X13.  Write several tables in one call in mode "w" to a path with
    a directory part: clean tables (labels of ASCII characters, no
    asterisk in the last column), under clean block names that differ
    from one another, with a file type and a date without dollar sign.
    Reading the file under the name of any one of them yields that
    table as it was written, labels in upper case and cells as their
    texts: the blocks before it are passed over and the banner of the
    block after it ends it. *)
Theorem each_written_table_reads_back
    (os_path_split : string -> string * string) (index_of : ref -> Index)
    (h : store) (fs : filesystem) (refs : list nat) (dfs : list DataFrame)
    (names : list bytes) (file_type datetime_string : bytes) (path : string)
    (i : nat) (df : DataFrame) (name : bytes) :
  has_directory os_path_split path ->
  Forall2 (fun r df => h !! r = Some df) refs dfs ->
  Forall (fun df => clean_table df = true) dfs ->
  Forall (fun n => clean_name n = true) names -> NoDup names ->
  dollar ∉ file_type -> dollar ∉ datetime_string ->
  dfs !! i = Some df -> names !! i = Some name ->
  read_file
    (write_file os_path_split index_of (FrameList refs names) path file_type "w"
                datetime_string h fs).1.2
    path (Name name)
  = Some (OK (Table (read_back df))).
Proof.
  intros Hdir Hlook Hclean Hnames Hdup Hft Hdt Hdf Hname. unfold read_file.
  rewrite (read_block_of_written_file csv_decode os_path_split index_of h fs refs dfs
             names file_type datetime_string path i df name) by done.
  apply decode_written_block.
  - eapply Forall_forall in Hclean; [done|]. by eapply list_elem_of_lookup_2.
  - eapply Forall_forall in Hnames; [|by eapply list_elem_of_lookup_2].
    unfold clean_name in Hnames. by apply andb_true_iff in Hnames as [? _].
Qed.

(** Three tables written under LINK, NODE and ZONE; NODE, which has an
    asterisk in its first column, is read back. *)
Lemma each_written_table_reads_back_witness :
  let links : DataFrame := [(str "no", [VStr (str "1"); VOther (str "2")])] in
  let nodes : DataFrame := [(str "id", [VOther (str "7*")]);
                            (str "name", [VStr (str "Main St")])] in
  let zones : DataFrame := [(str "code", [VStr (str "Z1")])] in
  read_file
    (write_file posix_split (fun _ => RangeIndex 2)
                (FrameList [0; 1; 2] [str "LINK"; str "NODE"; str "ZONE"])
                "out/model.net" (str "Net") "w" (str "03/11/2026")
                {[0 := links; 1 := nodes; 2 := zones]} ∅).1.2
    "out/model.net" (Name (str "NODE"))
  = Some (OK (Table (read_back nodes))).
Proof.
  apply (each_written_table_reads_back posix_split (fun _ => RangeIndex 2)
           {[0 := [(str "no", [VStr (str "1"); VOther (str "2")])];
             1 := [(str "id", [VOther (str "7*")]); (str "name", [VStr (str "Main St")])];
             2 := [(str "code", [VStr (str "Z1")])]]}
           ∅ [0; 1; 2]
           [[(str "no", [VStr (str "1"); VOther (str "2")])];
            [(str "id", [VOther (str "7*")]); (str "name", [VStr (str "Main St")])];
            [(str "code", [VStr (str "Z1")])]]
           [str "LINK"; str "NODE"; str "ZONE"]
           (str "Net") (str "03/11/2026") "out/model.net" 1
           [(str "id", [VOther (str "7*")]); (str "name", [VStr (str "Main St")])]
           (str "NODE")).
  - vm_compute. discriminate.
  - repeat constructor.
  - repeat constructor.
  - repeat constructor.
  - apply (bool_decide_unpack (NoDup [str "LINK"; str "NODE"; str "ZONE"])).
    vm_compute. reflexivity.
  - apply contains_char_false. vm_compute. reflexivity.
  - apply contains_char_false. vm_compute. reflexivity.
  - reflexivity.
  - reflexivity.
Defined.

(** X14.  Whatever [pd.read_csv] does with its input: for a file of
    several clean tables written in one call in mode "w", to a path
    with a directory part and under clean names that differ from one
    another, the read of one table hands
    the decoder the bytes of that block alone, from the dollar sign of
    its header line to the last of its rows, and answers with what
    comes of them: the decoded frame with the prefix of the name taken
    off its labels, or the error of the decoder wrapped with those
    bytes. *)
Theorem decoder_is_given_the_block_alone
    (pd_read_csv : bytes -> result csv_reader)
    (os_path_split : string -> string * string) (index_of : ref -> Index)
    (h : store) (fs : filesystem) (refs : list nat) (dfs : list DataFrame)
    (names : list bytes) (file_type datetime_string : bytes) (path : string)
    (i : nat) (df : DataFrame) (name : bytes) :
  has_directory os_path_split path ->
  Forall2 (fun r df => h !! r = Some df) refs dfs ->
  Forall (fun df => clean_table df = true) dfs ->
  Forall (fun n => clean_name n = true) names -> NoDup names ->
  dollar ∉ file_type -> dollar ∉ datetime_string ->
  dfs !! i = Some df -> names !! i = Some name ->
  read_visum_file pd_read_csv
    (write_file os_path_split index_of (FrameList refs names) path file_type "w"
                datetime_string h fs).1.2
    path (Name name)
  = match pd_read_csv (block_span df name) with
    | OK (Parsed df_block) => Some (OK (Table (strip_table_prefix name df_block)))
    | OK (TextFileReader chunks) =>
        match pd_concat chunks with
        | OK df_block => Some (OK (Table (strip_table_prefix name df_block)))
        | Raise e => Some (Raise e)
        end
    | Raise e => Some (Raise (ReadCsvException (block_span df name) e))
    end.
Proof.
  intros Hdir Hlook Hclean Hnames Hdup Hft Hdt Hdf Hname.
  by rewrite (read_block_of_written_file pd_read_csv os_path_split index_of h fs refs
                dfs names file_type datetime_string path i df name).
Qed.

(** Two tables written under LINK and NODE, read with a decoder that
    refuses every input: the error names the bytes of the block NODE. *)
Lemma decoder_is_given_the_block_alone_witness :
  let links : DataFrame := [(str "no", [VStr (str "1"); VOther (str "2")])] in
  let nodes : DataFrame := [(str "id", [VOther (str "7")])] in
  read_visum_file (fun _ => Raise (CsvError "refused"))
    (write_file posix_split (fun _ => RangeIndex 2)
                (FrameList [0; 1] [str "LINK"; str "NODE"])
                "out/model.net" (str "Net") "w" (str "03/11/2026")
                {[0 := links; 1 := nodes]} ∅).1.2
    "out/model.net" (Name (str "NODE"))
  = Some (Raise (ReadCsvException (str "$NODE:ID" ++ nl :: str "7" ++ [nl])
                                  (CsvError "refused"))).
Proof.
  apply (decoder_is_given_the_block_alone (fun _ => Raise (CsvError "refused"))
           posix_split (fun _ => RangeIndex 2)
           {[0 := [(str "no", [VStr (str "1"); VOther (str "2")])];
             1 := [(str "id", [VOther (str "7")])]]}
           ∅ [0; 1]
           [[(str "no", [VStr (str "1"); VOther (str "2")])];
            [(str "id", [VOther (str "7")])]]
           [str "LINK"; str "NODE"]
           (str "Net") (str "03/11/2026") "out/model.net" 1
           [(str "id", [VOther (str "7")])]
           (str "NODE")).
  - vm_compute. discriminate.
  - repeat constructor.
  - repeat constructor.
  - repeat constructor.
  - apply (bool_decide_unpack (NoDup [str "LINK"; str "NODE"])).
    vm_compute. reflexivity.
  - apply contains_char_false. vm_compute. reflexivity.
  - apply contains_char_false. vm_compute. reflexivity.
  - reflexivity.
  - reflexivity.
Defined.

(** ** The version block *)

Section VersionBlock.

Variable to_csv : DataFrame -> bytes * option error.
Variable pd_read_csv : bytes -> result csv_reader.
Variable os_path_split : string -> string * string.
Variable index_of : ref -> Index.

(** What the loop over the tables writes is empty or begins with the
    line of one asterisk. *)
Lemma write_blocks_begin (h : store) (pairs : list (nat * bytes)) :
  (write_blocks to_csv h pairs).1 = []
  \/ exists t rest, (write_blocks to_csv h pairs).1 = star :: t ++ nl :: rest
                    /\ (semicolon ∉ t) /\ (nl ∉ t).
Proof.
  destruct pairs as [|[r table_name] pairs]; [by left|right].
  cbn [write_blocks]. unfold block_header.
  destruct (to_csv _) as [rows [e|]]; [|destruct (write_blocks _ _ _) as [more status]];
    cbn [fst]; exists []; eexists; (split; [|split; apply not_elem_of_nil]);
    change (str "*") with [star]; app_norm; reflexivity.
Qed.

(** X15.  A file written in mode "w" to a path with a directory part
    can be read under the name VERSION, whatever tables the call
    wrote, whatever [to_csv] wrote for them and whether or not it
    raised: when the file type holds no asterisk and the date no
    dollar sign, the decoder is given the version lines of the file
    header and nothing of the tables. *)
Theorem version_block_of_written_file
    (input : export_input) (path : string) (file_type datetime_string : bytes)
    (h : store) (fs : filesystem) :
  has_directory os_path_split path ->
  star ∉ file_type -> dollar ∉ datetime_string ->
  let version_lines :=
    str "$VERSION:VERSNR;FILETYPE;LANGUAGE;UNIT" ++ [nl; nl]
    ++ str "10.000;" ++ file_type ++ str ";ENG;KM" ++ [nl; nl] in
  read_visum_file pd_read_csv
    (export_visum_file to_csv os_path_split index_of input path file_type "w"
                       datetime_string h fs).1.2
    path (Name (str "VERSION"))
  = match pd_read_csv version_lines with
    | OK (Parsed df_block) =>
        Some (OK (Table (strip_table_prefix (str "VERSION") df_block)))
    | OK (TextFileReader chunks) =>
        match pd_concat chunks with
        | OK df_block => Some (OK (Table (strip_table_prefix (str "VERSION") df_block)))
        | Raise e => Some (Raise e)
        end
    | Raise e => Some (Raise (ReadCsvException version_lines e))
    end.
Proof.
  intros Hdir Hft Hdt version_lines. rewrite export_mode_w by done. cbn zeta.
  pose proof (write_blocks_begin
                (_replace_invalid_visum_chars index_of (input_frames input) h).1
                (zip (input_frames input) (input_names input))) as Htail.
  destruct (write_blocks _ _ _) as [blocks status]. cbn [fst snd] in *.
  rewrite written_tables_shape.
  set (mid3 := nl :: str "10.000;" ++ file_type ++ str ";ENG;KM" ++ [nl; nl]).
  set (l2 := str "VERSION:VERSNR;FILETYPE;LANGUAGE;UNIT").
  set (mid2 := str "* " ++ datetime_string ++ [nl]).
  remember ([] ++ BOM_UTF8 ++ dollar :: str "VISION"
               ++ nl :: mid2 ++ dollar :: l2 ++ nl :: mid3 ++ blocks)
    as content eqn:Hcontent.
  unfold read_visum_file, _bom_aware_open, _get_encoding, open_rb.
  rewrite lookup_insert_eq.
  replace (mmap_open content) with (OK {| mm_data := content; mm_pos := 0 |})
    by (subst content; done).
  cbn [replicate length].
  change {| mm_data := content; mm_pos := 0 |}
    with {| mm_data := content; mm_pos := length (@nil ascii) |}.
  destruct (scan_passes_line_fuel pd_read_csv
              (S (mm_size {| mm_data := content; mm_pos := length (@nil ascii) |}))
              (str "VERSION") [] content [] BOM_UTF8 (str "VISION")
              (mid2 ++ dollar :: l2 ++ nl :: mid3 ++ blocks)
              [false] [empty_frame]) as (fuel1 & -> & Hfuel1).
  { exact Hcontent. }
  { by left. }
  { apply contains_char_false. reflexivity. }
  { apply contains_char_false. reflexivity. }
  { apply vision_line_matches_no_name. }
  { unfold mm_size. cbn. lia. }
  set (P1 := [] ++ BOM_UTF8 ++ dollar :: str "VISION" ++ [nl]) in *.
  change version_lines with (dollar :: l2 ++ nl :: mid3).
  apply (scan_reads_block pd_read_csv fuel1 (str "VERSION") content P1 mid2 l2 mid3
           blocks).
  - rewrite Hcontent. subst P1. by app_norm.
  - subst mid2. rewrite !elem_of_app, list_elem_of_singleton.
    intros [H|[H|H]]; [|done|done]. apply contains_char in H. discriminate.
  - apply contains_char_false. reflexivity.
  - apply guarded_of_no_star. subst mid3. rewrite elem_of_cons, !elem_of_app.
    intros H. repeat match goal with H : _ \/ _ |- _ => destruct H as [H|H] end;
      try done; try discriminate H; apply contains_char in H; discriminate H.
  - exact Htail.
  - reflexivity.
  - exact Hfuel1.
Qed.

End VersionBlock.

(** A file of one table, read under VERSION with the decoder of the
    model: the one row of the version block. *)
Lemma version_block_of_written_file_witness :
  read_file
    (write_file posix_split (fun _ => RangeIndex 1) (OneFrame 0 (str "LINK"))
                "out/model.net" (str "Net") "w" (str "03/11/2026")
                {[0 := [(str "no", [VStr (str "1")])]]} ∅).1.2
    "out/model.net" (Name (str "VERSION"))
  = match csv_decode (str "$VERSION:VERSNR;FILETYPE;LANGUAGE;UNIT" ++ [nl; nl]
                      ++ str "10.000;" ++ str "Net" ++ str ";ENG;KM" ++ [nl; nl]) with
    | OK (Parsed df_block) =>
        Some (OK (Table (strip_table_prefix (str "VERSION") df_block)))
    | OK (TextFileReader chunks) =>
        match pd_concat chunks with
        | OK df_block => Some (OK (Table (strip_table_prefix (str "VERSION") df_block)))
        | Raise e => Some (Raise e)
        end
    | Raise e => Some (Raise (ReadCsvException
                   (str "$VERSION:VERSNR;FILETYPE;LANGUAGE;UNIT" ++ [nl; nl]
                    ++ str "10.000;" ++ str "Net" ++ str ";ENG;KM" ++ [nl; nl]) e))
    end.
Proof.
  apply (version_block_of_written_file csv_encode csv_decode posix_split
           (fun _ => RangeIndex 1) (OneFrame 0 (str "LINK"))
           "out/model.net" (str "Net") (str "03/11/2026")
           {[0 := [(str "no", [VStr (str "1")])]]} ∅).
  - vm_compute. discriminate.
  - apply contains_char_false. vm_compute. reflexivity.
  - apply contains_char_false. vm_compute. reflexivity.
Defined.

(** ** The round trip: claim C1 *)

(** C1, as stated, fails.  The table below has one column and the string
    cell "*x", which holds neither dollar sign nor semicolon.  Written
    and read back under the same name it has lost its row: the line
    "*x" begins with an asterisk and has no semicolon, so it is the
    terminator of the block. *)
Lemma roundtrip_loses_row_led_by_asterisk :
  let df : DataFrame := [(str "A", [VStr (str "*x")])] in
  let out := write_file posix_split (fun _ => RangeIndex 1) (OneFrame 0 (str "T"))
                        "out/model.net" (str "Net") "w" (str "03/11/2026")
                        {[0 := df]} ∅ in
  str_cells_contain dollar df = false
  /\ str_cells_contain semicolon df = false
  /\ out.2 = None
  /\ read_file out.1.2 "out/model.net" (Name (str "T"))
     = Some (OK (Table [(str "A", [])])).
Proof. vm_compute. repeat split; reflexivity. Qed.

(** C1, amended.  Take a table with at least one column, all columns of
    one length, whose labels and cell texts are not empty, do not begin
    with a blank and hold no dollar sign, semicolon, line end or double
    quote, whose labels are of ASCII characters and whose last column
    holds no asterisk; a block name of printable ASCII characters
    without lower-case letters, backslash, quotes, dollar sign, colon
    or semicolon, other than VERSION; a file type and a date without
    dollar sign; a path with a directory part.  The table comes back in
    three ways of writing it: in mode "w"; in an append mode when no
    file is at the path; and in an append mode after a call in mode
    "w" that wrote clean tables under other clean names.  Each time the
    call succeeds and leaves the table as it was, and reading the file
    under the same name yields the table with its labels in upper case
    and every cell as the text that was written for it. *)
Theorem roundtrip_of_clean_table
    (os_path_split : string -> string * string) (index_of : ref -> Index)
    (h : store) (fs : filesystem) (r : nat) (df : DataFrame)
    (name file_type datetime_string : bytes) (path mode : string)
    (refs : list nat) (dfs : list DataFrame) (names : list bytes) :
  has_directory os_path_split path ->
  h !! r = Some df -> clean_table df = true -> clean_name name = true ->
  dollar ∉ file_type -> dollar ∉ datetime_string ->
  mode = "a"%string \/ mode = "a+"%string ->
  Forall2 (fun r df => h !! r = Some df) refs dfs ->
  Forall (fun df => clean_table df = true) dfs ->
  Forall (fun n => clean_name n = true) names ->
  length refs = length names -> NoDup (names ++ [name]) ->
  let write := write_file os_path_split index_of in
  let created := write (OneFrame r name) path file_type "w" datetime_string h fs in
  let begun := write (OneFrame r name) path file_type mode datetime_string
                     h (delete path fs) in
  let earlier := write (FrameList refs names) path file_type "w" datetime_string h fs in
  let appended := write (OneFrame r name) path file_type mode datetime_string
                        earlier.1.1 earlier.1.2 in
  comes_back path r df name created
  /\ comes_back path r df name begun
  /\ comes_back path r df name appended.
Proof.
  intros Hdir Hr Hclean Hname Hft Hdt Hmode Hlook Hcleans Hnames Hlen Hdup.
  cbn zeta. unfold comes_back.
  pose proof Hname as Hchars. unfold clean_name in Hchars.
  apply andb_true_iff in Hchars as [Hchars _].
  assert (Forall2 (fun r df => h !! r = Some df) [r] [df]) as Hone
    by (constructor; [done|constructor]).
  assert (Forall (fun df => clean_table df = true) [df]) as Hone'
    by (constructor; [done|constructor]).
  split; [|split].
  - destruct (clean_tables_written os_path_split index_of h fs (OneFrame r name) [df]
                file_type datetime_string "w" path) as [Hok Hstore]; try done.
    { by left. }
    split; [done|]. split; [by apply Hstore|].
    unfold write_file. rewrite one_frame_is_list. unfold read_file.
    pose proof (read_block_of_written_file csv_decode os_path_split index_of h fs [r]
                  [df] [name] file_type datetime_string path 0 df name) as Hread.
    unfold write_file in Hread. rewrite Hread; try done.
    + by apply decode_written_block.
    + constructor; [done|constructor].
    + apply NoDup_singleton.
  - destruct (clean_tables_written os_path_split index_of h (delete path fs)
                (OneFrame r name) [df] file_type datetime_string mode path)
      as [Hok Hstore]; try done.
    { by right. }
    split; [done|]. split; [by apply Hstore|].
    apply read_block_of_begun_file with (df := df); try done.
    by rewrite lookup_delete_eq.
  - destruct (clean_tables_written os_path_split index_of h fs (FrameList refs names)
                dfs file_type datetime_string "w" path) as [Hok _]; try done.
    { by left. }
    unfold write_file in *. rewrite one_frame_is_list.
    rewrite (write_then_append csv_encode os_path_split index_of refs [r] names [name]
               path file_type datetime_string mode h fs) by done.
    assert (Forall2 (fun r df => h !! r = Some df) (refs ++ [r]) (dfs ++ [df])) as Hall
      by (by apply Forall2_app).
    assert (Forall (fun df => clean_table df = true) (dfs ++ [df])) as Hall'
      by (by apply Forall_app).
    destruct (clean_tables_written os_path_split index_of h fs
                (FrameList (refs ++ [r]) (names ++ [name])) (dfs ++ [df])
                file_type datetime_string "w" path) as [Hok' Hstore]; try done.
    { by left. }
    unfold write_file in *. split; [done|]. split; [by apply Hstore|].
    unfold read_file.
    pose proof (Forall2_length _ _ _ Hlook) as Hlen'.
    pose proof (read_block_of_written_file csv_decode os_path_split index_of h fs
                  (refs ++ [r]) (dfs ++ [df]) (names ++ [name]) file_type
                  datetime_string path (length names) df name) as Hread.
    unfold write_file in Hread. rewrite Hread; try done.
    + by apply decode_written_block.
    + apply Forall_app. split; [done|]. constructor; [done|constructor].
    + rewrite <- Hlen, Hlen'. by rewrite list_lookup_middle.
    + by rewrite list_lookup_middle.
Qed.

(** The table NODE, with an asterisk in its first column, written to
    out/model.net: on its own in mode "w", on its own in mode "a+", and
    in mode "a+" after the table LINK was written in mode "w". *)
Lemma roundtrip_of_clean_table_witness :
  let links : DataFrame := [(str "no", [VStr (str "1"); VOther (str "2")])] in
  let nodes : DataFrame := [(str "id", [VOther (str "7*"); VOther (str "8")]);
                            (str "name", [VStr (str "Main St"); VStr (str "B-road")])] in
  let h : store := {[0 := links; 1 := nodes]} in
  let write := write_file posix_split (fun _ => RangeIndex 2) in
  let created := write (OneFrame 1 (str "NODE")) "out/model.net"%string (str "Net")
                       "w"%string (str "03/11/2026") h ∅ in
  let begun := write (OneFrame 1 (str "NODE")) "out/model.net"%string (str "Net")
                     "a+"%string (str "03/11/2026") h
                     (delete "out/model.net"%string ∅) in
  let earlier := write (FrameList [0] [str "LINK"]) "out/model.net"%string (str "Net")
                       "w"%string (str "03/11/2026") h ∅ in
  let appended := write (OneFrame 1 (str "NODE")) "out/model.net"%string (str "Net")
                        "a+"%string (str "03/11/2026") earlier.1.1 earlier.1.2 in
  comes_back "out/model.net" 1 nodes (str "NODE") created
  /\ comes_back "out/model.net" 1 nodes (str "NODE") begun
  /\ comes_back "out/model.net" 1 nodes (str "NODE") appended.
Proof.
  apply (roundtrip_of_clean_table posix_split (fun _ => RangeIndex 2)
           {[0 := [(str "no", [VStr (str "1"); VOther (str "2")])];
             1 := [(str "id", [VOther (str "7*"); VOther (str "8")]);
                   (str "name", [VStr (str "Main St"); VStr (str "B-road")])]]}
           ∅ 1
           [(str "id", [VOther (str "7*"); VOther (str "8")]);
            (str "name", [VStr (str "Main St"); VStr (str "B-road")])]
           (str "NODE") (str "Net") (str "03/11/2026") "out/model.net" "a+"
           [0] [[(str "no", [VStr (str "1"); VOther (str "2")])]] [str "LINK"]).
  - vm_compute. discriminate.
  - reflexivity.
  - vm_compute. reflexivity.
  - vm_compute. reflexivity.
  - apply contains_char_false. vm_compute. reflexivity.
  - apply contains_char_false. vm_compute. reflexivity.
  - by right.
  - repeat constructor.
  - repeat constructor.
  - repeat constructor.
  - reflexivity.
  - apply (bool_decide_unpack (NoDup ([str "LINK"] ++ [str "NODE"]))).
    vm_compute. reflexivity.
Defined.
